(** * smart_cloud_tag: a shallow embedding of the tagging pipeline

    The development follows the Python package [smart_cloud_tag]:
    [utils.py] (content truncation, prompt template, response parser),
    [schemas.py] (provider limits, validation, merge), [models.py]
    (records, summary statistics) and [core.py] (the per-object loop of
    [SmartCloudTagger]).

    Python values are modelled as follows.
    - [str] is a list of Unicode code points ([Z]); a Python [str] may hold
      lone surrogates, and so may a [str] here.
    - [bytes] is a list of byte values ([Z], each in 0..255).
    - a [dict] is an association list in insertion order with unique keys.
    - an exception is a value of [exn]; code that may raise returns a
      [Result]. *)

From Stdlib Require Import String Ascii DecimalString.
From Stdlib Require Import ZArith List Bool Lia QArith Permutation.
From Equations Require Import Equations.
Import ListNotations.

Set Implicit Arguments.
Open Scope Z_scope.

(** ** Python strings *)

Definition str := list Z.
Definition bytes := list Z.

(** A Rocq string literal (ASCII only) read as a Python [str]. *)
Definition py (s : string) : str :=
  map (fun a => Z.of_N (N_of_ascii a)) (list_ascii_of_string s).

Fixpoint str_eqb (a b : str) : bool :=
  match a, b with
  | [], [] => true
  | x :: a', y :: b' => (x =? y) && str_eqb a' b'
  | _, _ => false
  end.

Definition is_empty (s : str) : bool :=
  match s with [] => true | _ => false end.

(** [str(n)] for a Python integer. *)
Definition str_of_int (n : Z) : str :=
  py (NilZero.string_of_int (Z.to_int n)).

Definition str_of_len {A : Type} (l : list A) : str :=
  str_of_int (Z.of_nat (length l)).

(** Python's [str.isspace] on one code point, the set [str.strip()]
    removes: ASCII 0x09-0x0D, 0x1C-0x20, and the Unicode white space
    characters. *)
Definition isspace (c : Z) : bool :=
  ((9 <=? c) && (c <=? 13)) || ((28 <=? c) && (c <=? 32))
  || (c =? 0x85) || (c =? 0xA0) || (c =? 0x1680)
  || ((0x2000 <=? c) && (c <=? 0x200A))
  || (c =? 0x2028) || (c =? 0x2029) || (c =? 0x202F)
  || (c =? 0x205F) || (c =? 0x3000).

Fixpoint lstrip_by (p : Z -> bool) (s : str) : str :=
  match s with
  | [] => []
  | c :: s' => if p c then lstrip_by p s' else s
  end.

Definition rstrip_by (p : Z -> bool) (s : str) : str :=
  rev (lstrip_by p (rev s)).

Definition strip_by (p : Z -> bool) (s : str) : str :=
  rstrip_by p (lstrip_by p s).

(** [s.strip()] *)
Definition strip (s : str) : str := strip_by isspace s.

(** [s.strip(chars)] *)
Definition strip_chars (chars : str) (s : str) : str :=
  strip_by (fun c => existsb (Z.eqb c) chars) s.

(** [s.startswith(prefix)] *)
Fixpoint startswith (s prefix : str) {struct prefix} : bool :=
  match prefix with
  | [] => true
  | p :: ps =>
      match s with
      | [] => false
      | c :: cs => (c =? p) && startswith cs ps
      end
  end.

(** [s.split(sep)] for a separator of one character. *)
Fixpoint split (sep : Z) (s : str) : list str :=
  match s with
  | [] => [[]]
  | c :: s' =>
      if c =? sep then [] :: split sep s'
      else match split sep s' with
           | [] => [[c]]
           | w :: ws => (c :: w) :: ws
           end
  end.

(** [sub in s] *)
Fixpoint contains (s sub : str) : bool :=
  startswith s sub ||
  match s with
  | [] => false
  | _ :: s' => contains s' sub
  end.

(** ** Exceptions and results *)

Inductive exn_kind : Type :=
| ValueError
| IndexError
| KeyError
| UnicodeEncodeError
| UnicodeDecodeError
| SmartCloudTagError
| SchemaValidationError
| LLMError
| StorageError
| ConfigurationError
| FileProcessingError
| OtherException.

(** An exception: its class and [str(e)]. *)
Record exn : Type := Raise { exn_kind_of : exn_kind; exn_str : str }.

Inductive Result (A : Type) : Type :=
| Ok (a : A)
| Error (e : exn).
Arguments Ok {A} a.
Arguments Error {A} e.

Definition bind {A B : Type} (r : Result A) (f : A -> Result B) : Result B :=
  match r with
  | Ok a => f a
  | Error e => Error e
  end.

Declare Scope result_scope.
Delimit Scope result_scope with result.
Notation "x <- r ;; k" := (bind r (fun x => k))
  (at level 61, r at next level, right associativity) : result_scope.
Notation "r ;;; k" := (bind r (fun _ => k))
  (at level 61, right associativity) : result_scope.

(** ** The UTF-8 codec ([str.encode] and [bytes.decode])

    The encoder and decoder follow CPython's codec: the encoder rejects
    surrogate code points, the decoder accepts only well-formed sequences
    and reports the span CPython reports (an invalid start byte, the valid
    prefix before an invalid continuation byte, or the rest of the input
    when it ends inside a character).  With [errors="ignore"] the span is
    dropped and decoding resumes behind it. *)

Definition hex_digit (d : Z) : Z :=
  if d <? 10 then 48 + d else 87 + d.

Definition hex2 (b : Z) : str := [hex_digit (b / 16); hex_digit (b mod 16)].

Definition hex4 (c : Z) : str := hex2 (c / 256) ++ hex2 (c mod 256).

Definition str_of_nat (n : nat) : str := str_of_int (Z.of_nat n).

Definition is_surrogate (c : Z) : bool := (0xD800 <=? c) && (c <=? 0xDFFF).

Definition utf8_encode_char (c : Z) : bytes :=
  if c <? 0x80 then [c]
  else if c <? 0x800 then [0xC0 + c / 64; 0x80 + c mod 64]
  else if c <? 0x10000 then
    [0xE0 + c / 4096; 0x80 + (c / 64) mod 64; 0x80 + c mod 64]
  else
    [0xF0 + c / 262144; 0x80 + (c / 4096) mod 64;
     0x80 + (c / 64) mod 64; 0x80 + c mod 64].

(** The number of surrogates at the head of [s]: the span of the error. *)
Fixpoint surrogate_run (s : str) : nat :=
  match s with
  | c :: s' => if is_surrogate c then S (surrogate_run s') else 0%nat
  | [] => 0%nat
  end.

Definition encode_error (pos : nat) (c : Z) (run : nat) : exn :=
  Raise UnicodeEncodeError
    (if (run =? 1)%nat
     then py "'utf-8' codec can't encode character '\u" ++ hex4 c
          ++ py "' in position " ++ str_of_nat pos
          ++ py ": surrogates not allowed"
     else py "'utf-8' codec can't encode characters in position "
          ++ str_of_nat pos ++ py "-" ++ str_of_nat (pos + run - 1)
          ++ py ": surrogates not allowed").

Fixpoint utf8_encode_from (pos : nat) (s : str) : Result bytes :=
  match s with
  | [] => Ok []
  | c :: s' =>
      if is_surrogate c then Error (encode_error pos c (surrogate_run s))
      else match utf8_encode_from (S pos) s' with
           | Ok bs => Ok (utf8_encode_char c ++ bs)
           | Error e => Error e
           end
  end.

(** [s.encode("utf-8")] *)
Definition utf8_encode (s : str) : Result bytes := utf8_encode_from 0 s.

Inductive errors_mode : Type := Strict | Ignore.

Definition is_continuation (b : Z) : bool := (0x80 <=? b) && (b <? 0xC0).

Definition decode_error (pos span : nat) (b0 : Z) (reason : string) : exn :=
  Raise UnicodeDecodeError
    (if (span =? 1)%nat
     then py "'utf-8' codec can't decode byte 0x" ++ hex2 b0
          ++ py " in position " ++ str_of_nat pos ++ py ": " ++ py reason
     else py "'utf-8' codec can't decode bytes in position "
          ++ str_of_nat pos ++ py "-" ++ str_of_nat (pos + span - 1)
          ++ py ": " ++ py reason).

(** The error handler: raise, or drop the span and go on with [resume]. *)
Definition on_error (errors : errors_mode) (pos span : nat) (b0 : Z)
  (reason : string) (resume : Result str) : Result str :=
  match errors with
  | Strict => Error (decode_error pos span b0 reason)
  | Ignore => resume
  end.

Definition emit (c : Z) (rest : Result str) : Result str :=
  match rest with
  | Ok s => Ok (c :: s)
  | Error e => Error e
  end.

Definition invalid_start : string := "invalid start byte".
Definition invalid_continuation : string := "invalid continuation byte".
Definition unexpected_end : string := "unexpected end of data".

Fixpoint utf8_decode_from (errors : errors_mode) (pos : nat) (bs : bytes)
  {struct bs} : Result str :=
  match bs with
  | [] => Ok []
  | b0 :: r0 =>
    if b0 <? 0x80 then emit b0 (utf8_decode_from errors (pos + 1) r0)
    else if b0 <? 0xC2 then
      on_error errors pos 1 b0 invalid_start
        (utf8_decode_from errors (pos + 1) r0)
    else if b0 <? 0xE0 then
      match r0 with
      | [] => on_error errors pos 1 b0 unexpected_end (Ok [])
      | b1 :: r1 =>
        if is_continuation b1
        then emit ((b0 - 0xC0) * 64 + (b1 - 0x80))
               (utf8_decode_from errors (pos + 2) r1)
        else on_error errors pos 1 b0 invalid_continuation
               (utf8_decode_from errors (pos + 1) r0)
      end
    else if b0 <? 0xF0 then
      match r0 with
      | [] => on_error errors pos 1 b0 unexpected_end (Ok [])
      | b1 :: r1 =>
        if negb (is_continuation b1)
           || (if b1 <? 0xA0 then b0 =? 0xE0 else b0 =? 0xED)
        then on_error errors pos 1 b0 invalid_continuation
               (utf8_decode_from errors (pos + 1) r0)
        else
          match r1 with
          | [] => on_error errors pos 2 b0 unexpected_end (Ok [])
          | b2 :: r2 =>
            if is_continuation b2
            then emit ((b0 - 0xE0) * 4096 + (b1 - 0x80) * 64 + (b2 - 0x80))
                   (utf8_decode_from errors (pos + 3) r2)
            else on_error errors pos 2 b0 invalid_continuation
                   (utf8_decode_from errors (pos + 2) r1)
          end
      end
    else if b0 <? 0xF5 then
      match r0 with
      | [] => on_error errors pos 1 b0 unexpected_end (Ok [])
      | b1 :: r1 =>
        if negb (is_continuation b1)
           || (if b1 <? 0x90 then b0 =? 0xF0 else b0 =? 0xF4)
        then on_error errors pos 1 b0 invalid_continuation
               (utf8_decode_from errors (pos + 1) r0)
        else
          match r1 with
          | [] => on_error errors pos 2 b0 unexpected_end (Ok [])
          | b2 :: r2 =>
            if negb (is_continuation b2)
            then on_error errors pos 2 b0 invalid_continuation
                   (utf8_decode_from errors (pos + 2) r1)
            else
              match r2 with
              | [] => on_error errors pos 3 b0 unexpected_end (Ok [])
              | b3 :: r3 =>
                if is_continuation b3
                then emit ((b0 - 0xF0) * 262144 + (b1 - 0x80) * 4096
                           + (b2 - 0x80) * 64 + (b3 - 0x80))
                       (utf8_decode_from errors (pos + 4) r3)
                else on_error errors pos 3 b0 invalid_continuation
                       (utf8_decode_from errors (pos + 3) r2)
              end
          end
      end
    else
      on_error errors pos 1 b0 invalid_start
        (utf8_decode_from errors (pos + 1) r0)
  end.

(** [bs.decode("utf-8", errors=...)] *)
Definition utf8_decode (errors : errors_mode) (bs : bytes) : Result str :=
  utf8_decode_from errors 0 bs.

(** ** utils.py: truncate_content *)

(** [bs[:n]], also for a negative [n]. *)
Definition slice_to {A : Type} (n : Z) (l : list A) : list A :=
  if 0 <=? n then firstn (Z.to_nat n) l
  else firstn (length l - Z.to_nat (- n)) l.

(** The loop
    [while truncated_bytes and truncated_bytes[-1] & 0xC0 == 0x80:
         truncated_bytes = truncated_bytes[:-1]]. *)
Equations? drop_tail_continuation (truncated_bytes : bytes) : bytes
  by wf (length truncated_bytes) lt :=
drop_tail_continuation [] := [];
drop_tail_continuation (b :: l)
  with Z.land (last (b :: l) 0) 0xC0 =? 0x80 => {
  | true := drop_tail_continuation (removelast (b :: l));
  | false := b :: l }.
Proof.
  clear drop_tail_continuation.
  destruct l as [|x l]; [simpl; lia|].
  assert (H : forall (y : Z) (t : list Z),
             length (removelast (y :: t)) = length t).
  { intros y t. revert y. induction t as [|z t IH]; intros y; [reflexivity|].
    change (removelast (y :: z :: t)) with (y :: removelast (z :: t)).
    cbn [length]. rewrite IH. reflexivity. }
  change (length (x :: l)) with (S (length l)).
  change (length (b :: removelast (x :: l)) < S (S (length l)))%nat.
  cbn [length]. rewrite H. lia.
Qed.

Definition truncate_content (content : str) (max_bytes : Z) : Result str :=
  match utf8_encode content with
  | Error e => Error e
  | Ok content_bytes =>
    if Z.of_nat (length content_bytes) <=? max_bytes then Ok content
    else
      let truncated_bytes := slice_to max_bytes content_bytes in
      match utf8_decode Strict truncated_bytes with
      | Ok t => Ok t
      | Error e =>
        match exn_kind_of e with
        | UnicodeDecodeError =>
            utf8_decode Ignore (drop_tail_continuation truncated_bytes)
        | _ => Error e
        end
      end
  end.

(** A Python [str] holds code points 0..0x10FFFF. *)
Definition is_code_point (c : Z) : bool := (0 <=? c) && (c <? 0x110000).

Definition wf_str (s : str) : bool := forallb is_code_point s.

(** The strings [encode("utf-8")] accepts. *)
Definition no_surrogate (s : str) : bool := negb (existsb is_surrogate s).

(** A Unicode scalar value: a code point that is no surrogate. *)
Definition scalar (c : Z) : Prop :=
  0 <= c < 0x110000 /\ ~ (0xD800 <= c <= 0xDFFF).

(** The encoding of a string of scalar values. *)
Definition encode_chars (s : str) : bytes := flat_map utf8_encode_char s.

(** ** utils.py: parse_llm_response *)

Definition prefixes_to_remove : list str :=
  map py [ "Generated tags:"; "Tags:"; "Values:"; "Here are the tags:";
           "The tags are:"; "Based on the content:" ]%string.

(** The loop [for prefix in prefixes_to_remove]. *)
Definition remove_prefixes (cleaned : str) : str :=
  fold_left
    (fun cleaned prefix =>
       if startswith cleaned prefix
       then strip (skipn (length prefix) cleaned)
       else cleaned)
    prefixes_to_remove cleaned.

Definition general : str := py "general".

(** The loop [while len(values) < len(tag_keys): values.append("general")]. *)
Equations? pad_values (values : list str) (n : nat) : list str
  by wf (n - length values)%nat lt :=
pad_values values n with lt_dec (length values) n => {
  | left _ := pad_values (values ++ [general]) n;
  | right _ := values }.
Proof. rewrite length_app. simpl. lia. Qed.

Definition quote_chars : str := [34; 39].

Definition parse_llm_response (response : str) (tag_keys : list str)
  : Result (list str) :=
  let cleaned := strip response in
  let cleaned := remove_prefixes cleaned in
  let values :=
    map (fun v => strip_chars quote_chars (strip v)) (split 44 cleaned) in
  let values := filter (fun v => negb (is_empty v)) values in
  let values :=
    if (length values <? length tag_keys)%nat
    then pad_values values (length tag_keys)
    else if (length tag_keys <? length values)%nat
         then firstn (length tag_keys) values
         else values in
  if negb (length values =? length tag_keys)%nat
  then Error (Raise ValueError
                (py "Expected " ++ str_of_len tag_keys
                 ++ py " values, got " ++ str_of_len values))
  else Ok values.

(** ** The part of Python this development does not model

    The Unicode character database beyond ASCII, the rest of the
    [str.format] machinery, and the [json] and [csv] modules are taken as
    given. *)
Record Runtime : Type := {
  (** [str.isprintable] for a code point above 0x7F *)
  unicode_isprintable : Z -> bool;
  (** [str.isalnum] for a code point above 0x7F *)
  unicode_isalnum : Z -> bool;
  (** the value of a replacement field that is not a plain keyword name:
      positional and unknown names, attribute or index access, conversions
      and format specs, given the keyword arguments, the field name, the
      conversion and the spec *)
  format_other : list (str * str) -> str -> option Z -> str -> Result str;
  (** [json.dumps(json.loads(text), indent=2, ensure_ascii=False)] *)
  json_reformat : str -> Result str;
  (** [list(csv.reader(io.StringIO(text)))] *)
  csv_rows : str -> Result (list (list str))
}.

(** A schema: the [tags] dictionary of the configuration, in insertion
    order; [None] means that the model deduces the value. *)
Definition TagSchema := list (str * option (list str)).

(** ** [repr] and [str] of the values the prompt shows *)

Section Repr.
Variable rt : Runtime.

Definition isprintable (c : Z) : bool :=
  if c <? 0x7F then 0x20 <=? c
  else if c =? 0x7F then false
  else unicode_isprintable rt c.

Definition hex8 (c : Z) : str := hex4 (c / 65536) ++ hex4 (c mod 65536).

Definition repr_char (quote c : Z) : str :=
  if (c =? quote) || (c =? 92) then [92; c]
  else if c =? 9 then py "\t"
  else if c =? 10 then py "\n"
  else if c =? 13 then py "\r"
  else if (c <? 32) || (c =? 0x7F) then py "\x" ++ hex2 c
  else if c <? 0x7F then [c]
  else if isprintable c then [c]
  else if c <=? 0xFF then py "\x" ++ hex2 c
  else if c <=? 0xFFFF then py "\u" ++ hex4 c
  else py "\U" ++ hex8 c.

(** [repr(s)] for a [str]: single quotes, unless the text has a single
    quote and no double quote. *)
Definition repr_str (s : str) : str :=
  let squote := existsb (Z.eqb 39) s in
  let dquote := existsb (Z.eqb 34) s in
  let quote := if squote && negb dquote then 34 else 39 in
  [quote] ++ flat_map (repr_char quote) s ++ [quote].

(** [", ".join(items)] *)
Fixpoint join (sep : str) (items : list str) : str :=
  match items with
  | [] => []
  | [x] => x
  | x :: rest => x ++ sep ++ join sep rest
  end.

(** [repr] of a list of [str] *)
Definition repr_str_list (l : list str) : str :=
  py "[" ++ join (py ", ") (map repr_str l) ++ py "]".

Definition repr_allowed (v : option (list str)) : str :=
  match v with
  | None => py "None"
  | Some l => repr_str_list l
  end.

(** [str(tags)] *)
Definition str_of_tags (tags : TagSchema) : str :=
  py "{"
  ++ join (py ", ")
       (map (fun kv => repr_str (fst kv) ++ py ": " ++ repr_allowed (snd kv))
          tags)
  ++ py "}".

(** ** [str.format] with keyword arguments only

    The scanner of CPython's [MarkupIterator_next] and [parse_field], as a
    machine over the characters of the template. *)

Inductive fmt_state : Type :=
| SLit
| SName (name : str)
| SBracket (name : str)
| SConv (name : str)
| SAfterConv (name : str) (conv : Z)
| SSpec (name : str) (conv : option Z) (count : nat) (spec : str).

Fixpoint lookup (kwargs : list (str * str)) (name : str) : option str :=
  match kwargs with
  | [] => None
  | (k, v) :: rest => if str_eqb k name then Some v else lookup rest name
  end.

Definition render_field (kwargs : list (str * str)) (name : str)
  (conv : option Z) (spec : str) : Result str :=
  match conv, spec, lookup kwargs name with
  | None, [], Some v => Ok v
  | _, _, _ => format_other rt kwargs name conv spec
  end.

Definition value_error (msg : string) : exn := Raise ValueError (py msg).

Definition then_append (r : Result str) (k : Result str) : Result str :=
  match r with
  | Error e => Error e
  | Ok v => match k with
            | Ok out => Ok (v ++ out)
            | Error e => Error e
            end
  end.

Fixpoint format_from (kwargs : list (str * str)) (st : fmt_state) (s : str)
  {struct s} : Result str :=
  match s with
  | [] =>
    match st with
    | SLit => Ok []
    | SName _ | SBracket _ =>
        Error (value_error "expected '}' before end of string")
    | SConv _ =>
        Error (value_error
                 "end of string while looking for conversion specifier")
    | SAfterConv _ _ | SSpec _ _ _ _ =>
        Error (value_error "unmatched '{' in format spec")
    end
  | c :: rest =>
    match st with
    | SLit =>
      if c =? 123 then
        match rest with
        | [] => Error (value_error "Single '{' encountered in format string")
        | c2 :: rest2 =>
          if c2 =? 123 then emit 123 (format_from kwargs SLit rest2)
          else format_from kwargs (SName []) rest
        end
      else if c =? 125 then
        match rest with
        | [] => Error (value_error "Single '}' encountered in format string")
        | c2 :: rest2 =>
          if c2 =? 125 then emit 125 (format_from kwargs SLit rest2)
          else Error (value_error "Single '}' encountered in format string")
        end
      else emit c (format_from kwargs SLit rest)
    | SName name =>
      if c =? 123 then Error (value_error "unexpected '{' in field name")
      else if c =? 91 then format_from kwargs (SBracket (name ++ [c])) rest
      else if c =? 125 then
        then_append (render_field kwargs name None [])
          (format_from kwargs SLit rest)
      else if c =? 58 then format_from kwargs (SSpec name None 1 []) rest
      else if c =? 33 then format_from kwargs (SConv name) rest
      else format_from kwargs (SName (name ++ [c])) rest
    | SBracket name =>
      if c =? 93 then format_from kwargs (SName (name ++ [c])) rest
      else format_from kwargs (SBracket (name ++ [c])) rest
    | SConv name => format_from kwargs (SAfterConv name c) rest
    | SAfterConv name conv =>
      if c =? 125 then
        then_append (render_field kwargs name (Some conv) [])
          (format_from kwargs SLit rest)
      else if c =? 58 then
        format_from kwargs (SSpec name (Some conv) 1 []) rest
      else Error (value_error "expected ':' after conversion specifier")
    | SSpec name conv count spec =>
      if c =? 123 then
        format_from kwargs (SSpec name conv (S count) (spec ++ [c])) rest
      else if c =? 125 then
        match count with
        | 1%nat =>
          then_append (render_field kwargs name conv spec)
            (format_from kwargs SLit rest)
        | _ =>
          format_from kwargs (SSpec name conv (Nat.pred count) (spec ++ [c]))
            rest
        end
      else format_from kwargs (SSpec name conv count (spec ++ [c])) rest
    end
  end.

(** [template.format] applied to keyword arguments, the values already
    turned into text. *)
Definition py_format (template : str) (kwargs : list (str * str))
  : Result str :=
  format_from kwargs SLit template.

(** ** utils.py: format_custom_llm_prompt *)

Definition required_placeholders : list str :=
  [py "{tags}"; py "{content}"; py "{filename}"].

Definition format_custom_llm_prompt (custom_template : str)
  (tags : TagSchema) (content_preview filename : str) : Result str :=
  let missing_placeholders :=
    filter (fun placeholder => negb (contains custom_template placeholder))
      required_placeholders in
  match missing_placeholders with
  | _ :: _ =>
    Error (Raise ValueError
      (py "Custom prompt template is missing required placeholders: "
       ++ repr_str_list missing_placeholders
       ++ py ". Required placeholders: "
       ++ repr_str_list required_placeholders))
  | [] =>
    py_format custom_template
      [ (py "tags", str_of_tags tags);
        (py "content", content_preview);
        (py "filename", filename) ]
  end.

End Repr.

(** A runtime that knows no character beyond ASCII and no replacement
    field beyond the plain keyword names; it is used to evaluate the
    functions on ASCII inputs. *)
Definition ascii_runtime : Runtime := {|
  unicode_isprintable := fun _ => false;
  unicode_isalnum := fun _ => false;
  format_other := fun _ name _ _ => Error (Raise KeyError name);
  json_reformat := fun text => Ok text;
  csv_rows := fun text => Ok [[text]]
|}.

(** ** Dictionaries

    A Python [dict] keeps its entries in insertion order, and an assignment
    to a key that is present keeps the key's position. *)

Definition dict (V : Type) : Type := list (str * V).

Definition dict_keys {V : Type} (d : dict V) : list str := map fst d.
Definition dict_values {V : Type} (d : dict V) : list V := map snd d.

Fixpoint dict_get {V : Type} (d : dict V) (k : str) : option V :=
  match d with
  | [] => None
  | (k', v) :: d' => if str_eqb k' k then Some v else dict_get d' k
  end.

(** [d[k] = v] *)
Fixpoint dict_set {V : Type} (d : dict V) (k : str) (v : V) : dict V :=
  match d with
  | [] => [(k, v)]
  | (k', v') :: d' =>
      if str_eqb k' k then (k', v) :: d' else (k', v') :: dict_set d' k v
  end.

(** [d.update(new)] *)
Definition dict_update {V : Type} (d new : dict V) : dict V :=
  fold_left (fun acc kv => dict_set acc (fst kv) (snd kv)) new d.

(** [k in l] for a list of strings *)
Definition in_list (k : str) (l : list str) : bool := existsb (str_eqb k) l.

(** The elements of [set(l)], each once. *)
Fixpoint distinct (l : list str) : list str :=
  match l with
  | [] => []
  | x :: rest => if in_list x rest then distinct rest else x :: distinct rest
  end.

(** The invariant of a Python dictionary: no key twice. *)
Definition dict_wf {V : Type} (d : dict V) : Prop := NoDup (dict_keys d).

(** ** models.py *)

Inductive ProcessingMode : Type := PREVIEW | APPLY.

Inductive FileType : Type := TXT | MD | JSON | CSV.

Definition FileType_value (t : FileType) : str :=
  match t with
  | TXT => py "txt" | MD => py "md" | JSON => py "json" | CSV => py "csv"
  end.

Record TaggingConfig : Type := {
  llm_model : str;
  storage_uri : str;
  tags : TagSchema;
  max_bytes : Z
}.

(** The validator of the field [tags]. *)
Definition validate_tags (v : TagSchema) : Result TagSchema :=
  if (10 <=? length v)%nat then Error (Raise ValueError (py "Tags must be < 10."))
  else if (length v =? 0)%nat
       then Error (Raise ValueError (py "tags cannot be empty."))
       else Ok v.

(** The validator of the field [max_bytes]. *)
Definition validate_max_bytes (v : Z) : Result Z :=
  if v <=? 0 then Error (Raise ValueError (py "max_bytes must be positive."))
  else Ok v.

(** [TaggingConfig(...)]: the model runs its field validators; a failing
    validator makes the construction fail with a validation error, a
    ValueError (the report text pydantic puts around the validator's
    message is left out). *)
Definition TaggingConfig_new (llm_model storage_uri : str) (tags : TagSchema)
  (max_bytes : Z) : Result TaggingConfig :=
  match validate_tags tags, validate_max_bytes max_bytes with
  | Ok t, Ok m =>
      Ok {| llm_model := llm_model; storage_uri := storage_uri;
            tags := t; max_bytes := m |}
  | Error e, _ => Error e
  | Ok _, Error e => Error e
  end.

Record ObjectTags : Type := {
  existing : dict str;
  proposed : option (dict str);
  applied : option (dict str);
  skipped_reason : option str
}.

(** A value of the summary dictionary; [PyFloat q] is the float nearest
    to the rational [q]. *)
Inductive py_value : Type :=
| PyInt (n : Z)
| PyFloat (q : Q)
| PyStr (s : str).

Record TaggingResult : Type := {
  mode : ProcessingMode;
  config : TaggingConfig;
  results : dict ObjectTags;
  summary : dict py_value
}.

(** [result.add_result(uri, tags)] *)
Definition add_result (result : TaggingResult) (uri : str) (t : ObjectTags)
  : TaggingResult :=
  {| mode := mode result; config := config result;
     results := dict_set (results result) uri t;
     summary := summary result |}.

Definition set_summary (result : TaggingResult) (s : dict py_value)
  : TaggingResult :=
  {| mode := mode result; config := config result;
     results := results result; summary := s |}.

Definition is_some {A : Type} (o : option A) : bool :=
  match o with Some _ => true | None => false end.

(** [sum(1 for x in xs if cond(x))] *)
Definition count_if {A : Type} (cond : A -> bool) (xs : list A) : Z :=
  fold_left (fun acc x => if cond x then acc + 1 else acc) xs 0.

Definition get_summary_stats (result : TaggingResult) : dict py_value :=
  let total_objects := Z.of_nat (length (results result)) in
  let processed :=
    count_if (fun t => is_some (proposed t)) (dict_values (results result)) in
  let skipped :=
    count_if (fun t => is_some (skipped_reason t)) (dict_values (results result)) in
  let applied_count :=
    count_if (fun t => is_some (applied t)) (dict_values (results result)) in
  [ (py "total_objects", PyInt total_objects);
    (py "processed", PyInt processed);
    (py "skipped", PyInt skipped);
    (py "applied", PyInt applied_count);
    (py "success_rate",
      if 0 <? total_objects
      then PyFloat (Qmake processed (Z.to_pos total_objects))
      else PyInt 0) ].

(** ** schemas.py *)

Record Limits : Type := {
  max_tags : nat;
  max_key : nat;
  max_value : nat
}.

Definition schema_error (msg : str) : exn := Raise SchemaValidationError msg.

Definition get_provider_tag_limits (provider : str) : Result Limits :=
  if str_eqb provider (py "aws")
  then Ok {| max_tags := 10; max_key := 128; max_value := 256 |}
  else if str_eqb provider (py "azure")
  then Ok {| max_tags := 10; max_key := 128; max_value := 256 |}
  else if str_eqb provider (py "gcp")
  then Ok {| max_tags := 64; max_key := 128; max_value := 1024 |}
  else Error (schema_error (py "Unsupported storage provider: " ++ provider)).

(** [not s or not s.strip()] *)
Definition blank (s : str) : bool := is_empty s || is_empty (strip s).

(** [s.replace(c, "")] for a one-character [c] *)
Definition remove_char (c : Z) (s : str) : str :=
  filter (fun x => negb (x =? c)) s.

Section Schemas.
Variable rt : Runtime.

Definition isalnum_char (c : Z) : bool :=
  if c <? 128
  then ((48 <=? c) && (c <=? 57)) || ((65 <=? c) && (c <=? 90))
       || ((97 <=? c) && (c <=? 122))
  else unicode_isalnum rt c.

(** [s.isalnum()] *)
Definition isalnum (s : str) : bool :=
  negb (is_empty s) && forallb isalnum_char s.

(** The loop over the keys in [validate_tagging_config]. *)
Fixpoint validate_keys (limits : Limits) (ks : list str) : Result unit :=
  match ks with
  | [] => Ok tt
  | key :: rest =>
    if blank key then Error (schema_error (py "Tag keys cannot be empty"))
    else if (max_key limits <? length key)%nat then
      Error (schema_error
               (py "Tag key '" ++ key ++ py "' exceeds "
                ++ str_of_nat (max_key limits) ++ py " character limit"))
    else if negb (isalnum (remove_char 95 (remove_char 45 key))) then
      Error (schema_error
               (py "Tag key '" ++ key ++ py "' contains invalid characters"))
    else validate_keys limits rest
  end.

Definition validate_tagging_config (config : TaggingConfig) (provider : str)
  : Result unit :=
  match get_provider_tag_limits provider with
  | Error e => Error e
  | Ok limits =>
    if (max_tags limits <=? length (tags config))%nat then
      Error (schema_error
               (py "Maximum " ++ str_of_nat (max_tags limits)
                ++ py " tags per object"))
    else if negb (length (tags config)
                  =? length (distinct (dict_keys (tags config))))%nat then
      Error (schema_error (py "Tag keys must be unique"))
    else validate_keys limits (dict_keys (tags config))
  end.

(** The part of [SmartCloudTagger.__init__] that creates and validates
    the configuration. *)
Definition SmartCloudTagger_config (llm_model storage_uri : str)
  (tags : TagSchema) (max_bytes : Z) (storage_provider_type : str)
  : Result TaggingConfig :=
  match TaggingConfig_new llm_model storage_uri tags max_bytes with
  | Error e => Error e
  | Ok config =>
    match validate_tagging_config config storage_provider_type with
    | Ok _ => Ok config
    | Error e =>
        Error (Raise ConfigurationError
                 (py "Invalid configuration: " ++ exn_str e))
    end
  end.

End Schemas.

(** The loop [for i, value in enumerate(values)] of [validate_tag_values]. *)
Fixpoint validate_values (limits : Limits) (tag_keys : list str) (i : nat)
  (vs : list str) : Result unit :=
  match vs with
  | [] => Ok tt
  | value :: rest =>
    if blank value then
      Error (schema_error
               (py "Tag value for '" ++ nth i tag_keys [] ++ py "' cannot be empty"))
    else if (max_value limits <? length value)%nat then
      Error (schema_error
               (py "Tag value for '" ++ nth i tag_keys [] ++ py "' exceeds "
                ++ str_of_nat (max_value limits) ++ py " character limit"))
    else validate_values limits tag_keys (S i) rest
  end.

Definition validate_tag_values (vs : list str) (tag_keys : list str)
  (provider : str) : Result unit :=
  match get_provider_tag_limits provider with
  | Error e => Error e
  | Ok limits =>
    if negb (length vs =? length tag_keys)%nat then
      Error (schema_error
               (py "Expected " ++ str_of_len tag_keys ++ py " values, got "
                ++ str_of_len vs))
    else validate_values limits tag_keys 0 vs
  end.

Definition create_tag_mapping (tag_keys : list str) (vs : list str)
  (provider : str) : Result (dict str) :=
  match validate_tag_values vs tag_keys provider with
  | Error e => Error e
  | Ok _ =>
    Ok (fold_left (fun tag_mapping kv => dict_set tag_mapping (fst kv) (strip (snd kv)))
          (combine tag_keys vs) [])
  end.

(** The loop over the items in [validate_existing_tags]. *)
Fixpoint validate_items (limits : Limits) (items : dict str) : Result unit :=
  match items with
  | [] => Ok tt
  | (key, value) :: rest =>
    if blank key then Error (schema_error (py "Tag key cannot be empty"))
    else if (max_key limits <? length key)%nat then
      Error (schema_error
               (py "Tag key '" ++ key ++ py "' exceeds "
                ++ str_of_nat (max_key limits) ++ py " character limit"))
    else if blank value then
      Error (schema_error
               (py "Tag value for '" ++ key ++ py "' cannot be empty"))
    else if (max_value limits <? length value)%nat then
      Error (schema_error
               (py "Tag value for '" ++ key ++ py "' exceeds "
                ++ str_of_nat (max_value limits) ++ py " character limit"))
    else validate_items limits rest
  end.

Definition validate_existing_tags (tags : dict str) (provider : str)
  : Result unit :=
  match get_provider_tag_limits provider with
  | Error e => Error e
  | Ok limits =>
    if (max_tags limits <? length tags)%nat then
      Error (schema_error
               (py "Object has " ++ str_of_len tags
                ++ py " tags, exceeding the limit of "
                ++ str_of_nat (max_tags limits)))
    else validate_items limits tags
  end.

Definition merge_and_validate_tags (existing_tags new_tags : dict str)
  (tag_keys : list str) (provider : str) : Result (dict str) :=
  match get_provider_tag_limits provider with
  | Error e => Error e
  | Ok limits =>
    match validate_existing_tags existing_tags provider with
    | Error e => Error e
    | Ok _ =>
      match validate_tag_values (dict_values new_tags) tag_keys provider with
      | Error e => Error e
      | Ok _ =>
        let merged :=
          filter (fun kv => negb (in_list (fst kv) tag_keys)) existing_tags in
        let merged := dict_update merged new_tags in
        if (max_tags limits <? length merged)%nat then
          Error (schema_error
                   (py "Total tags (" ++ str_of_len merged
                    ++ py ") would exceed the limit of "
                    ++ str_of_nat (max_tags limits)))
        else Ok merged
      end
    end
  end.

Definition create_object_tags_result (existing_tags : dict str)
  (proposed_tags applied_tags : option (dict str))
  (skipped_reason : option str) : ObjectTags :=
  {| existing := existing_tags; proposed := proposed_tags;
     applied := applied_tags; skipped_reason := skipped_reason |}.

(** Entries that are valid one by one for a provider's limits. *)
Definition valid_value (limits : Limits) (value : str) : bool :=
  negb (blank value) && (length value <=? max_value limits)%nat.

Definition valid_entry (limits : Limits) (kv : str * str) : bool :=
  negb (blank (fst kv)) && (length (fst kv) <=? max_key limits)%nat
  && valid_value limits (snd kv).

Fixpoint no_dup (l : list str) : bool :=
  match l with
  | [] => true
  | x :: rest => negb (in_list x rest) && no_dup rest
  end.

Section ValidKey.
Variable rt : Runtime.

(** A key the schema validator accepts. *)
Definition valid_key (limits : Limits) (key : str) : bool :=
  negb (blank key) && (length key <=? max_key limits)%nat
  && isalnum rt (remove_char 95 (remove_char 45 key)).

End ValidKey.

(** A schema of ten keys, each left to the model. *)
Definition ten_keys : TagSchema :=
  map (fun k => (py k, None))
    [ "k0"; "k1"; "k2"; "k3"; "k4"; "k5"; "k6"; "k7"; "k8"; "k9" ]%string.

(** ** utils.py: parse_file_content *)

Section ParseFile.
Variable rt : Runtime.

(** The rows of a CSV file as text: the header, then numbered rows. *)
Fixpoint csv_lines (i : nat) (rows : list (list str)) : list str :=
  match rows with
  | [] => []
  | row :: rest =>
    (if (i =? 0)%nat
     then py "Headers: " ++ join (py ", ") row
     else py "Row " ++ str_of_nat i ++ py ": " ++ join (py ", ") row)
    :: csv_lines (S i) rest
  end.

Definition parse_file_content (content : bytes) (file_type : FileType)
  : Result str :=
  let parsed :=
    match file_type with
    | JSON =>
      (text <- utf8_decode Strict content ;;
       json_reformat rt text)%result
    | CSV =>
      (text_content <- utf8_decode Strict content ;;
       rows <- csv_rows rt text_content ;;
       Ok (join [10] (csv_lines 0 rows)))%result
    | TXT | MD => utf8_decode Strict content
    end in
  match parsed with
  | Ok text => Ok text
  | Error e =>
    Error (Raise FileProcessingError
             (py "Failed to parse " ++ FileType_value file_type
              ++ py " file: " ++ exn_str e))
  end.

End ParseFile.

(** ** The provider interfaces (providers/base.py, llm/base.py)

    [World] is the state of everything outside the process: the bucket,
    its objects and their tags, the model service.  A provider method is a
    function of the world that returns or raises and leaves a new world. *)

Record LLMRequest : Type := {
  request_content : str;
  request_tags : TagSchema;
  request_filename : str;
  request_template : option str
}.

Record LLMResponse : Type := {
  response_tags : list str
}.

Section Providers.
Variable World : Type.

Definition Call (A : Type) : Type := World -> Result A * World.

Record StorageProvider : Type := {
  list_objects : Call (list str);
  get_object_content : str -> Z -> Call (bytes * FileType);
  get_object_tags : str -> Call (dict str);
  set_object_tags : str -> dict str -> Call unit;
  is_supported_file_type : str -> Call bool
}.

Record LLMProvider : Type := {
  generate_tags : LLMRequest -> Call LLMResponse
}.

(** The fields of a [SmartCloudTagger] that a run reads. *)
Record SmartCloudTagger : Type := {
  tagger_config : TaggingConfig;
  storage_provider : StorageProvider;
  llm_provider : LLMProvider;
  storage_provider_type : str;
  custom_prompt_template : option str
}.

(** A call of a provider method, as the run makes it. *)
Inductive event : Type :=
| EListObjects
| EIsSupported (key : str)
| EGetTags (key : str)
| EGetContent (key : str) (max_bytes : Z)
| EGenerateTags (request : LLMRequest)
| ESetTags (key : str) (new_tags : dict str).

Definition is_set_tags (ev : event) : bool :=
  match ev with ESetTags _ _ => true | _ => false end.

(** The state of a run: the world, the provider calls made so far, and
    the [result] object the run fills. *)
Record RunState : Type := {
  world : World;
  trace : list event;
  result : TaggingResult
}.

(** ** core.py: a computation that reads and writes the state of the run
    and returns or raises *)

Definition M (A : Type) : Type := RunState -> Result A * RunState.

Definition ret {A : Type} (a : A) : M A := fun st => (Ok a, st).

Definition raise {A : Type} (e : exn) : M A := fun st => (Error e, st).

Definition mbind {A B : Type} (m : M A) (f : A -> M B) : M B :=
  fun st =>
    match m st with
    | (Ok a, st') => f a st'
    | (Error e, st') => (Error e, st')
    end.

(** [try: m except Exception as e: handler(e)] *)
Definition try_except {A : Type} (m : M A) (handler : exn -> M A) : M A :=
  fun st =>
    match m st with
    | (Ok a, st') => (Ok a, st')
    | (Error e, st') => handler e st'
    end.

Definition lift {A : Type} (r : Result A) : M A := fun st => (r, st).

Definition call {A : Type} (ev : event) (op : Call A) : M A :=
  fun st =>
    let (r, w) := op (world st) in
    (r, {| world := w; trace := trace st ++ [ev]; result := result st |}).

Definition get_result : M TaggingResult := fun st => (Ok (result st), st).

Definition put_result (r : TaggingResult) : M unit :=
  fun st => (Ok tt, {| world := world st; trace := trace st; result := r |}).

Definition add_result_m (uri : str) (t : ObjectTags) : M unit :=
  fun st => put_result (add_result (result st) uri t) st.

Definition set_summary_m (f : TaggingResult -> dict py_value) : M unit :=
  fun st => put_result (set_summary (result st) (f (result st))) st.

Declare Scope run_scope.
Delimit Scope run_scope with run.
Notation "x <- m ;; k" := (mbind m (fun x => k))
  (at level 61, m at next level, right associativity) : run_scope.
Notation "m ;;; k" := (mbind m (fun _ => k))
  (at level 61, right associativity) : run_scope.

(** [for obj_key in objects: body] *)
Fixpoint for_each (objects : list str) (body : str -> M unit) : M unit :=
  match objects with
  | [] => ret tt
  | obj_key :: rest => mbind (body obj_key) (fun _ => for_each rest body)
  end.

Section Run.
Variable rt : Runtime.
Variable self : SmartCloudTagger.

(** The steps of the loop body from the fetch of the existing tags to the
    mapping of the proposed tags. *)
Definition propose (obj_key : str) (process_max_bytes : Z)
  : M (dict str * dict str) :=
  (existing_tags <-
     call (EGetTags obj_key)
       (get_object_tags (storage_provider self) obj_key) ;;
   fetched <-
     call (EGetContent obj_key process_max_bytes)
       (get_object_content (storage_provider self) obj_key
          process_max_bytes) ;;
   text_content <- lift (parse_file_content rt (fst fetched) (snd fetched)) ;;
   truncated_content <-
     lift (truncate_content text_content process_max_bytes) ;;
   let llm_request :=
     {| request_content := truncated_content;
        request_tags := tags (tagger_config self);
        request_filename := obj_key;
        request_template := custom_prompt_template self |} in
   llm_response <-
     call (EGenerateTags llm_request)
       (generate_tags (llm_provider self) llm_request) ;;
   let tag_keys := dict_keys (tags (tagger_config self)) in
   proposed_tags <-
     lift (create_tag_mapping tag_keys (response_tags llm_response)
             (storage_provider_type self)) ;;
   ret (existing_tags, proposed_tags))%run.

(** The branch on the mode, for an object with proposed tags. *)
Definition record_or_apply (mode : ProcessingMode) (obj_key : str)
  (existing_tags proposed_tags : dict str) : M unit :=
  match mode with
  | PREVIEW =>
    add_result_m obj_key
      (create_object_tags_result existing_tags (Some proposed_tags) None None)
  | APPLY =>
    try_except
      (final_tags <-
         lift (merge_and_validate_tags existing_tags proposed_tags
                 (dict_keys (tags (tagger_config self)))
                 (storage_provider_type self)) ;;
       call (ESetTags obj_key final_tags)
         (set_object_tags (storage_provider self) obj_key final_tags) ;;;
       add_result_m obj_key
         (create_object_tags_result existing_tags (Some proposed_tags)
            (Some final_tags) None))%run
      (fun e =>
         add_result_m obj_key
           (create_object_tags_result existing_tags (Some proposed_tags)
              None (Some (py "Failed to apply tags: " ++ exn_str e))))
  end.

(** The body of the loop over the objects. *)
Definition process_object (mode : ProcessingMode) (process_max_bytes : Z)
  (obj_key : str) : M unit :=
  try_except
    (supported <-
       call (EIsSupported obj_key)
         (is_supported_file_type (storage_provider self) obj_key) ;;
     if negb supported then
       add_result_m obj_key
         (create_object_tags_result [] None None
            (Some (py "Unsupported file type")))
     else
       (tag_pair <- propose obj_key process_max_bytes ;;
        record_or_apply mode obj_key (fst tag_pair) (snd tag_pair)))%run
    (fun e =>
       add_result_m obj_key
         (create_object_tags_result [] None None
            (Some (py "Processing error: " ++ exn_str e)))).

Definition no_objects_summary : dict py_value :=
  [(py "message", PyStr (py "No objects found in bucket"))].

Definition _process_objects (mode : ProcessingMode) (max_bytes' : option Z)
  : M TaggingResult :=
  let process_max_bytes :=
    match max_bytes' with
    | Some n => if n =? 0 then max_bytes (tagger_config self) else n
    | None => max_bytes (tagger_config self)
    end in
  (put_result {| mode := mode; config := tagger_config self;
                 results := []; summary := [] |} ;;;
   try_except
     (objects <- call EListObjects (list_objects (storage_provider self)) ;;
      match objects with
      | [] => set_summary_m (fun _ => no_objects_summary) ;;; get_result
      | _ :: _ =>
        for_each objects (process_object mode process_max_bytes) ;;;
        set_summary_m get_summary_stats ;;;
        get_result
      end)
     (fun e =>
        raise (Raise SmartCloudTagError
                 (py "Failed to process objects: " ++ exn_str e))))%run.

Definition preview_tags (max_bytes' : option Z) : M TaggingResult :=
  _process_objects PREVIEW max_bytes'.

Definition apply_tags (max_bytes' : option Z) : M TaggingResult :=
  _process_objects APPLY max_bytes'.

End Run.
End Providers.

Arguments ret {World A} a.
Arguments raise {World A} e.
Arguments lift {World A} r.
Arguments get_result {World}.

(** The shape every record of a run is to have. *)
Definition record_ok (t : ObjectTags) : bool :=
  (if is_some (applied t)
   then negb (is_some (skipped_reason t)) && is_some (proposed t)
   else true)
  && (if is_some (skipped_reason t) then negb (is_some (applied t)) else true).

(** The record of an object the run gave up before the mode branch. *)
Definition processing_error_record (e : exn) : ObjectTags :=
  {| existing := []; proposed := None; applied := None;
     skipped_reason := Some (py "Processing error: " ++ exn_str e) |}.

(** The record of an object whose merge or write failed in Apply mode. *)
Definition apply_failed_record (existing_tags proposed_tags : dict str)
  (e : exn) : ObjectTags :=
  {| existing := existing_tags; proposed := Some proposed_tags;
     applied := None;
     skipped_reason := Some (py "Failed to apply tags: " ++ exn_str e) |}.

(** ** An in-memory bucket, to run the loop on concrete inputs

    An object of the bucket has a content, or the error its fetch raises,
    and tags.  Objects whose name ends in .txt are supported; the model
    always gives the same completion. *)

Definition Bucket : Type := dict (Result bytes * dict str).

Definition endswith (s suffix : str) : bool :=
  startswith (rev s) (rev suffix).

Definition memory_storage : StorageProvider Bucket := {|
  list_objects := fun w => (Ok (dict_keys w), w);
  get_object_content := fun key n w =>
    (match dict_get w key with
     | Some (Ok c, _) => Ok (slice_to n c, TXT)
     | Some (Error e, _) => Error e
     | None => Error (Raise StorageError (py "not found"))
     end, w);
  get_object_tags := fun key w =>
    (match dict_get w key with
     | Some (_, t) => Ok t
     | None => Ok []
     end, w);
  set_object_tags := fun key t w =>
    (Ok tt,
     match dict_get w key with
     | Some (c, _) => dict_set w key (c, t)
     | None => w
     end);
  is_supported_file_type := fun key w => (Ok (endswith key (py ".txt")), w)
|}.

Definition canned_llm (completion : str) : LLMProvider Bucket := {|
  generate_tags := fun request w =>
    (match parse_llm_response completion (dict_keys (request_tags request)) with
     | Ok vs => Ok {| response_tags := vs |}
     | Error e => Error (Raise LLMError (exn_str e))
     end, w)
|}.

Definition demo_tagger : SmartCloudTagger Bucket := {|
  tagger_config :=
    {| llm_model := py "gpt-4.1"; storage_uri := py "s3://bucket";
       tags := [(py "department", None)]; max_bytes := 5000 |};
  storage_provider := memory_storage;
  llm_provider := canned_llm (py "billing");
  storage_provider_type := py "aws";
  custom_prompt_template := None
|}.

(** The same bucket behind a provider that refuses every write. *)
Definition read_only_storage : StorageProvider Bucket := {|
  list_objects := list_objects memory_storage;
  get_object_content := get_object_content memory_storage;
  get_object_tags := get_object_tags memory_storage;
  set_object_tags := fun key t w =>
    (Error (Raise StorageError (py "access denied")), w);
  is_supported_file_type := is_supported_file_type memory_storage
|}.

Definition read_only_tagger : SmartCloudTagger Bucket := {|
  tagger_config := tagger_config demo_tagger;
  storage_provider := read_only_storage;
  llm_provider := llm_provider demo_tagger;
  storage_provider_type := py "aws";
  custom_prompt_template := None
|}.

Definition ten_tags : dict str :=
  map (fun k => (py k, py "x"))
    [ "t0"; "t1"; "t2"; "t3"; "t4"; "t5"; "t6"; "t7"; "t8"; "t9" ]%string.

Definition demo_bucket : Bucket :=
  [ (py "a.txt", (Ok (py "invoice 42"), [(py "owner", py "ann")]));
    (py "b.txt", (Error (Raise StorageError (py "boom")), []));
    (py "c.bin", (Ok [0; 1; 2], []));
    (py "d.txt", (Ok (py "report"), ten_tags)) ].

Definition start {World : Type} (w : World) (self : SmartCloudTagger World)
  : RunState World :=
  {| world := w; trace := [];
     result := {| mode := PREVIEW; config := tagger_config self;
                  results := []; summary := [] |} |}.

(** What one step of a run may do to the state: add provider calls to the
    trace and leave the result as it is. *)
Definition frame {World : Type} (st st' : RunState World)
  (evs : list event) : Prop :=
  result st' = result st /\ trace st' = trace st ++ evs.

(** The result a run starts from. *)
Definition fresh_result {World : Type} (self : SmartCloudTagger World)
  (mode : ProcessingMode) : TaggingResult :=
  {| mode := mode; config := tagger_config self; results := [];
     summary := [] |}.

(** Provider calls none of which writes tags. *)
Definition quiet (evs : list event) : bool :=
  forallb (fun ev => negb (is_set_tags ev)) evs.

(** A record of a preview: nothing applied, and proposed tags unless the
    object was skipped. *)
Definition preview_record (t : ObjectTags) : bool :=
  negb (is_some (applied t))
  && (is_some (skipped_reason t) || is_some (proposed t)).

(** The records a loop adds, in order, to the result. *)
Definition add_all (recs : list (str * ObjectTags)) (r : TaggingResult)
  : TaggingResult :=
  fold_left (fun r kt => add_result r (fst kt) (snd kt)) recs r.

(** The templates of the specification: text without braces and the
    three placeholder tokens. *)
Inductive placeholder : Type := PTags | PContent | PFilename.

Inductive segment : Type :=
| Text (t : str)
| Token (p : placeholder).

Definition token_text (p : placeholder) : str :=
  match p with
  | PTags => py "{tags}"
  | PContent => py "{content}"
  | PFilename => py "{filename}"
  end.

Definition is_brace (c : Z) : bool := (c =? 123) || (c =? 125).

Definition brace_free (t : str) : bool :=
  forallb (fun c => negb (is_brace c)) t.

Definition plain_segments (segs : list segment) : bool :=
  forallb (fun seg => match seg with
                      | Text t => brace_free t
                      | Token _ => true
                      end) segs.

Definition template_of (segs : list segment) : str :=
  flat_map (fun seg => match seg with
                       | Text t => t
                       | Token p => token_text p
                       end) segs.

Definition placeholder_eqb (p q : placeholder) : bool :=
  match p, q with
  | PTags, PTags | PContent, PContent | PFilename, PFilename => true
  | _, _ => false
  end.

Definition has_token (p : placeholder) (segs : list segment) : bool :=
  existsb (fun seg => match seg with
                      | Token q => placeholder_eqb p q
                      | Text _ => false
                      end) segs.

(** The template with each token replaced by its value. *)
Definition substituted (tags_text content filename : str)
  (segs : list segment) : str :=
  flat_map (fun seg => match seg with
                       | Text t => t
                       | Token PTags => tags_text
                       | Token PContent => content
                       | Token PFilename => filename
                       end) segs.

(** The message of the error for missing placeholders. *)
Definition missing_message (rt : Runtime) (missing : list str) : str :=
  py "Custom prompt template is missing required placeholders: "
  ++ repr_str_list rt missing
  ++ py ". Required placeholders: "
  ++ repr_str_list rt required_placeholders.

(** The parser's contract in the words of the specification: the pieces
    that remain after cleaning, and the repair of their number. *)
Definition spec_pieces (response : str) : list str :=
  filter (fun v => negb (is_empty v))
    (map (fun v => strip_chars quote_chars (strip v))
       (split 44 (remove_prefixes (strip response)))).

Definition spec_repair (n : nat) (values : list str) : list str :=
  firstn n (values ++ repeat general (n - length values)).

(** The cleaning, step by step, without the helpers of the parser. *)

Definition is_quote (c : Z) : bool := (c =? 34) || (c =? 39).

(** [v] is [s] without the characters of the class [p] at its two ends. *)
Definition trimmed (p : Z -> bool) (s v : str) : Prop :=
  exists l r,
    s = l ++ v ++ r
    /\ forallb p l = true
    /\ forallb p r = true
    /\ match v with c :: _ => p c = false | [] => True end
    /\ match rev v with c :: _ => p c = false | [] => True end.

(** The prefixes are tried once each, in their order: one that the text
    starts with is dropped and what follows is trimmed of white space. *)
Inductive without_prefixes : list str -> str -> str -> Prop :=
| prefixes_done (s : str) : without_prefixes [] s s
| prefix_dropped (prefix : str) (prefixes : list str) (rest rest' body : str) :
    trimmed isspace rest rest' ->
    without_prefixes prefixes rest' body ->
    without_prefixes (prefix :: prefixes) (prefix ++ rest) body
| prefix_absent (prefix : str) (prefixes : list str) (s body : str) :
    (forall rest, s <> prefix ++ rest) ->
    without_prefixes prefixes s body ->
    without_prefixes (prefix :: prefixes) s body.

(** The cleaned pieces of a completion: the completion trimmed of white
    space and freed of the known prefixes, cut at its commas, each piece
    trimmed of white space and then of quote characters. *)
Definition cleaning (response : str) (cleaned : list str) : Prop :=
  exists stripped body pieces,
    trimmed isspace response stripped
    /\ without_prefixes
         (map py [ "Generated tags:"; "Tags:"; "Values:";
                   "Here are the tags:"; "The tags are:";
                   "Based on the content:" ]%string)
         stripped body
    /\ pieces <> []
    /\ join [44] pieces = body
    /\ Forall (fun piece => ~ In 44 piece) pieces
    /\ Forall2
         (fun piece value =>
            exists inner,
              trimmed isspace piece inner /\ trimmed is_quote inner value)
         pieces cleaned.

(* ================================================================== *)
(** * Further functions of the package *)

(** ** utils.py: file types *)

Definition ascii_lower (c : Z) : Z :=
  if (65 <=? c) && (c <=? 90) then c + 32 else c.

Definition is_ascii (s : str) : bool := forallb (fun c => c <? 128) s.

(** [FileType(value)]; [None] stands for the ValueError of a value that
    no member has. *)
Definition FileType_of_value (value : str) : option FileType :=
  if str_eqb value (py "txt") then Some TXT
  else if str_eqb value (py "md") then Some MD
  else if str_eqb value (py "json") then Some JSON
  else if str_eqb value (py "csv") then Some CSV
  else None.

Section FileTypes.
(** [str.lower] on a text that holds a character beyond ASCII. *)
Variable lower_beyond_ascii : str -> str.

(** [s.lower()] *)
Definition lower (s : str) : str :=
  if is_ascii s then map ascii_lower s else lower_beyond_ascii s.

Definition supported_extensions : list str :=
  [py ".txt"; py ".md"; py ".json"; py ".csv"].

(** [utils.is_supported_file_type] *)
Definition utils_is_supported_file_type (filename : str) : bool :=
  let file_ext :=
    if contains filename (py ".")
    then last (split 46 (lower filename)) []
    else [] in
  in_list (py "." ++ file_ext) supported_extensions.

Definition get_file_type (filename : str) : option FileType :=
  if negb (utils_is_supported_file_type filename) then None
  else
    let file_ext := last (split 46 (lower filename)) [] in
    FileType_of_value file_ext.

(** The method [is_supported_file_type] of the three storage providers. *)
Definition provider_is_supported_file_type (filename : str) : bool :=
  is_some (get_file_type filename).

End FileTypes.

(** ** utils.py: merge_tags *)

Definition merge_tags (existing_tags new_tags : dict str)
  (tag_keys : list str) : Result (dict str) :=
  let merged :=
    filter (fun kv => negb (in_list (fst kv) tag_keys)) existing_tags in
  let merged := dict_update merged new_tags in
  if (10 <? length merged)%nat then
    Error (Raise ValueError
             (py "Total tags (" ++ str_of_len merged
              ++ py ") would exceed the limit of 10"))
  else Ok merged.

(** ** utils.py: format_llm_prompt *)

Definition dq : str := [34].

Definition prompt_head : str :=
  join [10]
    [ py "Analyze the following content and generate exactly " ].

Definition prompt_after_count : str :=
  join [10]
    [ py " tag values.";
      [];
      py "Tag keys and constraints:";
      [] ].

Definition prompt_before_content : str :=
  join [10]
    [ [];
      py "Content preview:";
      [] ].

Definition prompt_instructions_head : str :=
  join [10]
    [ [];
      [];
      py "Instructions:";
      py "1. Generate exactly " ].

Definition prompt_instructions_tail : str :=
  join [10]
    [ py " values, one for each tag key";
      py "2. Return only the values in order, separated by commas";
      py "3. Keep values concise (1-3 words when possible)";
      py "4. Make values relevant and descriptive for the content";
      py "5. For tags with allowed values, use only those values";
      py "6. For tags without allowed values, deduce appropriate values based on content and key name";
      py "7. If you see any abbreviations, interpret them according to context, following these examples:";
      py "    Example: " ++ dq ++ py "BOL#: 7782-CA-TOR-2025" ++ dq ++ py " " ++ [0x2192] ++ py " " ++ dq ++ py "bill_of_lading" ++ dq ++ py " (a shipping document)";
      py "    Example: " ++ dq ++ py "PO# 5567-AB" ++ dq ++ py " " ++ [0x2192] ++ py " " ++ dq ++ py "purchase_order" ++ dq ++ py " (a procurement document)";
      [];
      py "File Context Guidelines:";
      py "- Consider the filename as additional context for tagging decisions";
      py "- Use filename context to inform your understanding of the document type and content";
      py "- However, if the filename is not relevant to the content, ignore it";
      [];
      py "Example output format:";
      py "value1, value2, value3";
      [];
      py "Generated tags:" ].

Section DefaultPrompt.
Variable rt : Runtime.

(** One line of constraints for a key of the schema. *)
Definition constraint_line (kv : str * option (list str)) : str :=
  match snd kv with
  | None =>
    py "- " ++ fst kv
    ++ py ": deduce appropriate value based on content and key name"
  | Some allowed_values =>
    py "- " ++ fst kv ++ py ": must be one of "
    ++ repr_str_list rt allowed_values
  end.

Definition format_llm_prompt (tags : TagSchema)
  (content_preview filename : str) : Result str :=
  if blank filename then
    Error (Raise ValueError (py "filename is required and cannot be empty"))
  else
    let tag_keys := dict_keys tags in
    let constraints_text := join [10] (map constraint_line tags) in
    let filename_context :=
      [10] ++ py "File being analyzed: " ++ filename ++ [10] in
    Ok (prompt_head ++ str_of_len tag_keys ++ prompt_after_count
        ++ constraints_text ++ filename_context
        ++ prompt_before_content ++ content_preview
        ++ prompt_instructions_head ++ str_of_len tag_keys
        ++ prompt_instructions_tail).

(** The prompt a provider sends: the custom template when one is set and
    not empty, the default prompt otherwise. *)
Definition build_prompt (request : LLMRequest) : Result str :=
  match request_template request with
  | Some (c :: template) =>
    format_custom_llm_prompt rt (c :: template) (request_tags request)
      (request_content request) (request_filename request)
  | _ =>
    format_llm_prompt (request_tags request) (request_content request)
      (request_filename request)
  end.

End DefaultPrompt.

(** ** schemas.py: sanitize_tag_key and sanitize_tag_value *)

(** [s.replace(old, new)] for one-character [old] and [new] *)
Definition replace_char (old new : Z) (s : str) : str :=
  map (fun c => if c =? old then new else c) s.

Definition invalid_key_chars : str :=
  [32; 9; 10; 13; 92; 47; 58; 42; 63; 34; 60; 62; 124].

Definition invalid_value_chars : str :=
  [9; 10; 13; 92; 47; 58; 42; 63; 34; 60; 62; 124].

Definition sanitize_tag_key (rt : Runtime) (key : str) : str :=
  let sanitized := strip key in
  let sanitized :=
    fold_left (fun sanitized char => replace_char char 95 sanitized)
      invalid_key_chars sanitized in
  let sanitized :=
    match sanitized with
    | c :: _ => if negb (isalnum rt [c]) then py "tag_" ++ sanitized
                else sanitized
    | [] => sanitized
    end in
  if (128 <? length sanitized)%nat then firstn 128 sanitized else sanitized.

(** [re.sub(r"\s+", " ", s)]: each run of white space becomes one space. *)
Fixpoint collapse_spaces (in_run : bool) (s : str) : str :=
  match s with
  | [] => []
  | c :: rest =>
    if isspace c
    then if in_run then collapse_spaces true rest
         else 32 :: collapse_spaces true rest
    else c :: collapse_spaces false rest
  end.

Definition sanitize_tag_value (value : str) : str :=
  let sanitized := strip value in
  let sanitized :=
    fold_left (fun sanitized char => replace_char char 32 sanitized)
      invalid_value_chars sanitized in
  let sanitized := collapse_spaces false sanitized in
  if (256 <? length sanitized)%nat then firstn 256 sanitized else sanitized.

(** ** providers: the container and bucket names of a storage URI *)

(** [s.split(sep, 1)] for a separator of one character *)
Fixpoint split_once (sep : Z) (s : str) : list str :=
  match s with
  | [] => [[]]
  | c :: rest =>
    if c =? sep then [[]; rest]
    else match split_once sep rest with
         | w :: ws => (c :: w) :: ws
         | [] => [[c]]
         end
  end.

(** [AzureBlobProvider._parse_azure_uri] *)
Definition _parse_azure_uri (uri : str) : Result str :=
  if negb (startswith uri (py "az://")) then
    Error (Raise ValueError (py "Azure URI must start with 'az://'"))
  else
    let parts := split_once 47 (skipn 5 uri) in
    let container := nth 0 parts [] in
    if is_empty container then
      Error (Raise ValueError (py "Invalid Azure URI: missing container name"))
    else Ok container.

(** [GCSProvider._parse_gcs_uri] *)
Definition _parse_gcs_uri (uri : str) : Result str :=
  if negb (startswith uri (py "gs://")) then
    Error (Raise StorageError
             (py "Invalid GCS URI format: " ++ uri
              ++ py ". Must start with 'gs://'"))
  else
    let path := skipn 5 uri in
    let bucket_name :=
      if contains path (py "/") then nth 0 (split_once 47 path) []
      else path in
    if is_empty bucket_name then
      Error (Raise StorageError
               (py "Invalid GCS URI: missing bucket name in " ++ uri))
    else Ok bucket_name.

(** ** llm: the method generate_tags of the three providers

    The request to the service is a call on the world; what the provider
    does before and after it is the code of the package. *)

Section LLMProviders.
Variable rt : Runtime.
Variable World : Type.

Definition llm_error (msg : str) : exn := Raise LLMError msg.

(** The steps shared by the providers once the service has answered. *)
Definition tags_of_completion (request : LLMRequest) (content : str)
  : Result LLMResponse :=
  match parse_llm_response content (dict_keys (request_tags request)) with
  | Ok tag_values => Ok {| response_tags := tag_values |}
  | Error e => Error e
  end.

(** [AnthropicProvider.generate_tags]; [messages_create] gives the texts
    of the content blocks of the answer. *)
Definition AnthropicProvider (messages_create : str -> Call World (list str))
  : LLMProvider World := {|
  generate_tags := fun request w =>
    let attempt : Result LLMResponse * World :=
      match build_prompt rt request with
      | Error e => (Error e, w)
      | Ok prompt =>
        match messages_create prompt w with
        | (Error e, w') => (Error e, w')
        | (Ok blocks, w') =>
          let content := match blocks with
                         | text :: _ => text
                         | [] => []
                         end in
          (tags_of_completion request content, w')
        end
      end in
    match attempt with
    | (Ok response, w') => (Ok response, w')
    | (Error e, w') =>
      (Error (llm_error
                (py "Failed to generate tags with Anthropic: " ++ exn_str e)),
       w')
    end
|}.

(** [GeminiProvider.generate_tags]; [generate_content] gives the text of
    the answer. *)
Definition GeminiProvider (generate_content : str -> Call World str)
  : LLMProvider World := {|
  generate_tags := fun request w =>
    let attempt : Result LLMResponse * World :=
      match build_prompt rt request with
      | Error e => (Error e, w)
      | Ok prompt =>
        match generate_content prompt w with
        | (Error e, w') => (Error e, w')
        | (Ok text, w') => (tags_of_completion request text, w')
        end
      end in
    match attempt with
    | (Ok response, w') => (Ok response, w')
    | (Error e, w') =>
      (Error (llm_error
                (py "Failed to generate tags with Gemini: " ++ exn_str e)),
       w')
    end
|}.

(** What the OpenAI client raises, as the handlers of the provider tell
    the cases apart, in their order. *)
Inductive openai_failure : Type :=
| RateLimitError
| AuthenticationError
| APIError (message : str)
| UnexpectedError (e : exn).

(** [OpenAIProvider.generate_tags]; [chat_completions_create] gives the
    content of the first choice, which may be absent. *)
Definition OpenAIProvider
  (chat_completions_create :
     str -> World -> (openai_failure + option str) * World)
  : LLMProvider World := {|
  generate_tags := fun request w =>
    let unexpected (e : exn) : exn :=
      llm_error (py "Unexpected error calling OpenAI: " ++ exn_str e) in
    match build_prompt rt request with
    | Error e => (Error (unexpected e), w)
    | Ok prompt =>
      match chat_completions_create prompt w with
      | (inl RateLimitError, w') =>
        (Error (llm_error
                  (py "OpenAI rate limit exceeded. Please try again later.")),
         w')
      | (inl AuthenticationError, w') =>
        (Error (llm_error
                  (py "OpenAI authentication failed. Please check your API key.")),
         w')
      | (inl (APIError message), w') =>
        (Error (llm_error (py "OpenAI API error: " ++ message)), w')
      | (inl (UnexpectedError e), w') => (Error (unexpected e), w')
      | (inr None, w') | (inr (Some []), w') =>
        (Error (unexpected (llm_error (py "Empty response from OpenAI"))), w')
      | (inr (Some content), w') =>
        match tags_of_completion request content with
        | Ok response => (Ok response, w')
        | Error e => (Error (unexpected e), w')
        end
      end
    end
|}.

End LLMProviders.

(** ** core.py: what a step of the loop leaves behind *)

(** A fetch of content with the byte budget [b]. *)
Definition fetch_with_budget (b : Z) (ev : event) : bool :=
  match ev with
  | EGetContent _ n => n =? b
  | _ => true
  end.

(** The byte budget of a run. *)
Definition budget_of (config : TaggingConfig) (max_bytes' : option Z) : Z :=
  match max_bytes' with
  | Some n => if n =? 0 then max_bytes config else n
  | None => max_bytes config
  end.

Definition unsupported_record : ObjectTags :=
  {| existing := []; proposed := None; applied := None;
     skipped_reason := Some (py "Unsupported file type") |}.

Section Outcomes.
Variable World : Type.
Variable self : SmartCloudTagger World.

(** A request the loop makes to the model for an object. *)
Definition request_for (obj_key : str) (request : LLMRequest) : Prop :=
  request_tags request = tags (tagger_config self)
  /\ request_filename request = obj_key
  /\ request_template request = custom_prompt_template self.

(** The provider calls of the loop body up to the answer of the model, in
    their order. *)
Definition calls_before_write (obj_key : str) (b : Z) (request : LLMRequest)
  : list event :=
  [ EIsSupported obj_key; EGetTags obj_key; EGetContent obj_key b;
    EGenerateTags request ].

(** Tags that are a mapping of values to the keys of the schema. *)
Definition mapped (proposed_tags : dict str) : Prop :=
  exists vs,
    create_tag_mapping (dict_keys (tags (tagger_config self))) vs
      (storage_provider_type self) = Ok proposed_tags.

(** The record the loop body leaves for an object and the provider calls
    it makes, case by case. *)
Inductive outcome (mode : ProcessingMode) (b : Z) (obj_key : str)
  : ObjectTags -> list event -> Prop :=
| Unsupported :
    outcome mode b obj_key unsupported_record [EIsSupported obj_key]
| GaveUp (e : exn) (request : LLMRequest) (n : nat) (evs : list event) :
    request_for obj_key request ->
    (1 <= n <= 4)%nat ->
    evs = firstn n (calls_before_write obj_key b request) ->
    outcome mode b obj_key (processing_error_record e) evs
| Previewed (existing_tags proposed_tags : dict str) (request : LLMRequest) :
    mode = PREVIEW ->
    request_for obj_key request ->
    mapped proposed_tags ->
    outcome mode b obj_key
      (create_object_tags_result existing_tags (Some proposed_tags) None None)
      (calls_before_write obj_key b request)
| Applied (existing_tags proposed_tags final_tags : dict str)
    (request : LLMRequest) :
    mode = APPLY ->
    request_for obj_key request ->
    mapped proposed_tags ->
    merge_and_validate_tags existing_tags proposed_tags
      (dict_keys (tags (tagger_config self))) (storage_provider_type self)
    = Ok final_tags ->
    outcome mode b obj_key
      (create_object_tags_result existing_tags (Some proposed_tags)
         (Some final_tags) None)
      (calls_before_write obj_key b request ++ [ESetTags obj_key final_tags])
| MergeFailed (existing_tags proposed_tags : dict str) (e : exn)
    (request : LLMRequest) :
    mode = APPLY ->
    request_for obj_key request ->
    mapped proposed_tags ->
    merge_and_validate_tags existing_tags proposed_tags
      (dict_keys (tags (tagger_config self))) (storage_provider_type self)
    = Error e ->
    outcome mode b obj_key
      (apply_failed_record existing_tags proposed_tags e)
      (calls_before_write obj_key b request)
| WriteFailed (existing_tags proposed_tags final_tags : dict str) (e : exn)
    (request : LLMRequest) :
    mode = APPLY ->
    request_for obj_key request ->
    mapped proposed_tags ->
    merge_and_validate_tags existing_tags proposed_tags
      (dict_keys (tags (tagger_config self))) (storage_provider_type self)
    = Ok final_tags ->
    outcome mode b obj_key
      (apply_failed_record existing_tags proposed_tags e)
      (calls_before_write obj_key b request ++ [ESetTags obj_key final_tags]).

(** The steps of a loop: for each object its record and its calls. *)
Definition step : Type := (str * ObjectTags) * list event.

Definition steps_ok (mode : ProcessingMode) (b : Z) (steps : list step)
  : Prop :=
  Forall (fun s => outcome mode b (fst (fst s)) (snd (fst s)) (snd s)) steps.

End Outcomes.

(** A call that concerns one of the objects [objects]. *)
Definition about (objects : list str) (ev : event) : bool :=
  match ev with
  | EListObjects => false
  | EIsSupported key | EGetTags key | EGetContent key _ | ESetTags key _ =>
    in_list key objects
  | EGenerateTags request => in_list (request_filename request) objects
  end.

(** ** What a computation may raise *)

(** [r] returns, or raises an exception that [p] accepts. *)
Definition raises_only {A : Type} (p : exn -> bool) (r : Result A) : bool :=
  match r with
  | Ok _ => true
  | Error e => p e
  end.

Definition is_schema_error (e : exn) : bool :=
  match exn_kind_of e with SchemaValidationError => true | _ => false end.

Definition is_llm_error (e : exn) : bool :=
  match exn_kind_of e with LLMError => true | _ => false end.

(** A FileProcessingError whose text starts with the report for the file
    type. *)
Definition is_parse_error (file_type : FileType) (e : exn) : bool :=
  match exn_kind_of e with
  | FileProcessingError =>
    startswith (exn_str e)
      (py "Failed to parse " ++ FileType_value file_type ++ py " file: ")
  | _ => false
  end.

Definition is_value_error (e : exn) : bool :=
  match exn_kind_of e with ValueError => true | _ => false end.

(** [r] is a return, not a raise. *)
Definition succeeds {A : Type} (r : Result A) : bool :=
  match r with Ok _ => true | Error _ => false end.

(** No two spaces side by side. *)
Fixpoint single_spaced (s : str) : bool :=
  match s with
  | a :: (b :: _) as rest => negb ((a =? 32) && (b =? 32)) && single_spaced rest
  | _ => true
  end.

(* ================================================================== *)
(** * Properties *)

(** ** Response parser *)

Lemma pad_values_spec (values : list str) (n : nat) :
  pad_values values n = values ++ repeat general (n - length values).
Proof.
  funelim (pad_values values n).
  - match goal with IH : pad_values _ _ = _ ++ _ |- _ => rewrite IH end.
    rewrite length_app. simpl.
    replace (n - length values)%nat with (S (n - (length values + 1)))%nat by lia.
    simpl. rewrite <- app_assoc. reflexivity.
  - replace (n - length values)%nat with 0%nat by lia.
    simpl. rewrite app_nil_r. reflexivity.
Qed.

Lemma spec_repair_length (n : nat) (values : list str) :
  length (spec_repair n values) = n.
Proof.
  unfold spec_repair. rewrite length_firstn, length_app, repeat_length. lia.
Qed.

Lemma parse_llm_response_exactly_N_pieces
  (response : str) (tag_keys : list str) :
  parse_llm_response response tag_keys
  = Ok (spec_repair (length tag_keys) (spec_pieces response))
  /\ length (spec_repair (length tag_keys) (spec_pieces response))
     = length tag_keys.
Proof.
  set (N := length tag_keys). set (values := spec_pieces response).
  assert (HN : length (spec_repair N values) = N) by apply spec_repair_length.
  split; [|exact HN].
  unfold parse_llm_response. fold (spec_pieces response). fold values. fold N.
  assert (E : (if (length values <? N)%nat
               then pad_values values N
               else if (N <? length values)%nat
                    then firstn N values else values)
              = spec_repair N values).
  { unfold spec_repair.
    destruct (Nat.ltb_spec (length values) N) as [Hlt|Hge].
    - rewrite pad_values_spec. rewrite firstn_all2; [reflexivity|].
      rewrite length_app, repeat_length. lia.
    - replace (N - length values)%nat with 0%nat by lia.
      simpl. rewrite app_nil_r.
      destruct (Nat.ltb_spec N (length values)); [reflexivity|].
      rewrite firstn_all2; [reflexivity|lia]. }
  rewrite E, HN, Nat.eqb_refl. reflexivity.
Qed.

(** *** Facts about the string operations *)

Lemma startswith_app (sub rest : str) : startswith (sub ++ rest) sub = true.
Proof.
  induction sub as [|c sub IH]; simpl; [reflexivity|].
  rewrite Z.eqb_refl. exact IH.
Qed.

Lemma lstrip_by_suffix (p : Z -> bool) (s : str) :
  exists pre, s = pre ++ lstrip_by p s /\ forallb p pre = true.
Proof.
  induction s as [|c s IH]; simpl.
  - exists []. auto.
  - destruct (p c) eqn:E.
    + destruct IH as (pre & Es & Hp). exists (c :: pre). simpl.
      rewrite E, Hp. split; [congruence|reflexivity].
    + exists []. auto.
Qed.

Lemma lstrip_by_head (p : Z -> bool) (s : str) (c : Z) (r : str) :
  lstrip_by p s = c :: r -> p c = false.
Proof.
  induction s as [|x s IH]; simpl; [discriminate|].
  destruct (p x) eqn:E; [exact IH|]. intros H. inversion H. subst. exact E.
Qed.

Lemma split_pieces_no_sep (sep : Z) (s : str) :
  forall w, In w (split sep s) -> ~ In sep w.
Proof.
  induction s as [|c s IH]; simpl.
  - intros w [<-|[]] [].
  - destruct (Z.eqb_spec c sep) as [->|Hc].
    + intros w [<-|H]; [intros []|exact (IH w H)].
    + destruct (split sep s) as [|w0 ws].
      * intros w [<-|[]] [H|[]]. congruence.
      * intros w [<-|H].
        -- intros [H|H]; [congruence|]. apply (IH w0); simpl; auto.
        -- apply IH. simpl. auto.
Qed.

Lemma forallb_rev {A : Type} (p : A -> bool) (l : list A) :
  forallb p (rev l) = forallb p l.
Proof.
  induction l as [|a l IH]; [reflexivity|].
  simpl. rewrite forallb_app, IH. simpl. rewrite andb_true_r.
  apply andb_comm.
Qed.

Lemma strip_by_trimmed (p : Z -> bool) (s : str) :
  trimmed p s (strip_by p s).
Proof.
  unfold strip_by, rstrip_by.
  destruct (lstrip_by_suffix p s) as (pre & Es & Hpre).
  remember (lstrip_by p s) as v eqn:Hv.
  destruct (lstrip_by_suffix p (rev v)) as (post & Ev & Hpost).
  remember (lstrip_by p (rev v)) as u eqn:Hu.
  assert (Ev' : v = rev u ++ rev post).
  { rewrite <- (rev_involutive v), Ev, rev_app_distr. reflexivity. }
  exists pre, (rev post).
  split; [rewrite Es, Ev'; reflexivity|].
  split; [exact Hpre|].
  split; [rewrite forallb_rev; exact Hpost|].
  split.
  - destruct (rev u) as [|c r] eqn:E; [exact I|].
    apply (lstrip_by_head p s (c := c) (r := r ++ rev post)).
    rewrite <- Hv, Ev'. reflexivity.
  - rewrite rev_involutive. destruct u as [|c r]; [exact I|].
    apply (lstrip_by_head p (rev v) (c := c) (r := r)).
    symmetry. exact Hu.
Qed.

Lemma lstrip_by_ext (p q : Z -> bool) (s : str) :
  (forall c, p c = q c) -> lstrip_by p s = lstrip_by q s.
Proof.
  intros H. induction s as [|c s IH]; simpl; [reflexivity|].
  rewrite <- H, IH. reflexivity.
Qed.

Lemma strip_by_ext (p q : Z -> bool) (s : str) :
  (forall c, p c = q c) -> strip_by p s = strip_by q s.
Proof.
  intros H. unfold strip_by, rstrip_by.
  rewrite (lstrip_by_ext p q s H).
  rewrite (lstrip_by_ext p q (rev (lstrip_by q s)) H). reflexivity.
Qed.

Lemma strip_chars_quotes_trimmed (s : str) :
  trimmed is_quote s (strip_chars quote_chars s).
Proof.
  unfold strip_chars.
  rewrite (strip_by_ext (fun c => existsb (Z.eqb c) quote_chars) is_quote).
  - apply strip_by_trimmed.
  - intros c. unfold is_quote. simpl. rewrite orb_false_r. reflexivity.
Qed.

Lemma startswith_skipn (s prefix : str) :
  startswith s prefix = true -> s = prefix ++ skipn (length prefix) s.
Proof.
  revert s. induction prefix as [|c prefix IH]; intros s; [reflexivity|].
  destruct s as [|x s]; simpl; [discriminate|].
  intros H. apply andb_prop in H. destruct H as [Hx Hs].
  apply Z.eqb_eq in Hx. subst x. f_equal. apply IH, Hs.
Qed.

Lemma remove_prefixes_without (prefixes : list str) :
  forall s,
    without_prefixes prefixes s
      (fold_left
         (fun cleaned prefix =>
            if startswith cleaned prefix
            then strip (skipn (length prefix) cleaned)
            else cleaned)
         prefixes s).
Proof.
  induction prefixes as [|prefix prefixes IH]; intros s; simpl.
  - constructor.
  - destruct (startswith s prefix) eqn:E.
    + rewrite (startswith_skipn s prefix E) at 1.
      apply prefix_dropped with (rest' := strip (skipn (length prefix) s)).
      * apply strip_by_trimmed.
      * apply IH.
    + apply prefix_absent; [|apply IH].
      intros rest ->. rewrite startswith_app in E. discriminate.
Qed.

Lemma join_split (sep : Z) (s : str) :
  split sep s <> [] /\ join [sep] (split sep s) = s.
Proof.
  induction s as [|c s [Hne IH]]; simpl.
  - split; [discriminate|reflexivity].
  - destruct (split sep s) as [|w ws] eqn:E; [contradiction|].
    destruct (Z.eqb_spec c sep) as [->|Hc].
    + split; [discriminate|].
      change (join [sep] ([] :: w :: ws))
        with ([] ++ [sep] ++ join [sep] (w :: ws)).
      rewrite IH. reflexivity.
    + split; [discriminate|]. destruct ws as [|w' ws].
      * change (join [sep] [w]) with w in IH. subst w. reflexivity.
      * change (join [sep] (w :: w' :: ws))
          with (w ++ [sep] ++ join [sep] (w' :: ws)) in IH.
        change (join [sep] ((c :: w) :: w' :: ws))
          with ((c :: w) ++ [sep] ++ join [sep] (w' :: ws)).
        rewrite <- IH. reflexivity.
Qed.

Lemma cleaned_pieces (pieces : list str) :
  Forall2
    (fun piece value =>
       exists inner, trimmed isspace piece inner /\ trimmed is_quote inner value)
    pieces (map (fun v => strip_chars quote_chars (strip v)) pieces).
Proof.
  induction pieces as [|piece pieces IH]; simpl; constructor; [|exact IH].
  exists (strip piece). split.
  - apply strip_by_trimmed.
  - apply strip_chars_quotes_trimmed.
Qed.

Lemma lstrip_by_all (p : Z -> bool) (s : str) :
  forallb p s = true -> lstrip_by p s = [].
Proof.
  induction s as [|c s IH]; simpl; [reflexivity|].
  intros H. apply andb_prop in H. destruct H as [Hc Hs].
  rewrite Hc. auto.
Qed.

Lemma lstrip_by_fixed (p : Z -> bool) (s : str) :
  match s with [] => True | c :: _ => p c = false end ->
  lstrip_by p s = s.
Proof. destruct s as [|c s]; simpl; [reflexivity|]. intros ->. reflexivity. Qed.

Lemma lstrip_by_app_all (p : Z -> bool) (l x : str) :
  forallb p l = true -> lstrip_by p (l ++ x) = lstrip_by p x.
Proof.
  induction l as [|c l IH]; simpl; [reflexivity|].
  intros H. apply andb_prop in H. destruct H as [Hc Hl].
  rewrite Hc. exact (IH Hl).
Qed.

Lemma trimmed_strip_by (p : Z -> bool) (s v : str) :
  trimmed p s v -> v = strip_by p s.
Proof.
  intros (l & r & -> & Hl & Hr & Hhead & Hlast).
  unfold strip_by, rstrip_by. rewrite lstrip_by_app_all by exact Hl.
  destruct v as [|c v'].
  - simpl. rewrite (lstrip_by_all p r Hr). reflexivity.
  - rewrite (lstrip_by_fixed p ((c :: v') ++ r)) by exact Hhead.
    rewrite rev_app_distr, lstrip_by_app_all
      by (rewrite forallb_rev; exact Hr).
    rewrite lstrip_by_fixed; [rewrite rev_involutive; reflexivity|].
    exact Hlast.
Qed.

Lemma trimmed_unique (p : Z -> bool) (s v v' : str) :
  trimmed p s v -> trimmed p s v' -> v = v'.
Proof.
  intros H H'. rewrite (trimmed_strip_by H), (trimmed_strip_by H').
  reflexivity.
Qed.

Lemma without_prefixes_unique (prefixes : list str) (s body body' : str) :
  without_prefixes prefixes s body ->
  without_prefixes prefixes s body' ->
  body = body'.
Proof.
  intros H. revert body'.
  induction H as [s|prefix prefixes rest rest' body Ht _ IH
                  |prefix prefixes s body Hs _ IH]; intros body' H'.
  - inversion H'. reflexivity.
  - inversion H'; subst.
    + match goal with
      | E : _ ++ _ = _ ++ _ |- _ => apply app_inv_head in E; subst
      end.
      match goal with
      | H1 : trimmed isspace ?a ?b, H2 : trimmed isspace ?a ?c,
        H0 : without_prefixes _ ?c body' |- _ =>
          rewrite (trimmed_unique H2 H1) in H0; exact (IH _ H0)
      end.
    + exfalso.
      match goal with
      | Hs0 : forall _, _ <> _ |- _ => exact (Hs0 _ eq_refl)
      end.
  - inversion H'; subst.
    + exfalso. exact (Hs _ eq_refl).
    + match goal with
      | H0 : without_prefixes _ _ body' |- _ => exact (IH _ H0)
      end.
Qed.

Lemma split_comma_free (sep : Z) (w : str) :
  ~ In sep w -> split sep w = [w].
Proof.
  induction w as [|c w IH]; simpl; [reflexivity|].
  intros H. destruct (Z.eqb_spec c sep) as [->|Hc]; [tauto|].
  rewrite IH by tauto. reflexivity.
Qed.

Lemma split_app_sep (sep : Z) (w x : str) :
  ~ In sep w -> split sep (w ++ sep :: x) = w :: split sep x.
Proof.
  induction w as [|c w IH]; simpl.
  - intros _. rewrite Z.eqb_refl. reflexivity.
  - intros H. destruct (Z.eqb_spec c sep) as [->|Hc]; [tauto|].
    rewrite IH by tauto. reflexivity.
Qed.

Lemma split_join (sep : Z) (pieces : list str) :
  pieces <> [] ->
  Forall (fun piece => ~ In sep piece) pieces ->
  split sep (join [sep] pieces) = pieces.
Proof.
  induction pieces as [|w pieces IH]; [contradiction|].
  intros _ H. inversion H as [|? ? Hw Hrest]; subst.
  destruct pieces as [|w' pieces].
  - apply split_comma_free, Hw.
  - change (join [sep] (w :: w' :: pieces))
      with (w ++ sep :: join [sep] (w' :: pieces)).
    rewrite split_app_sep by exact Hw.
    rewrite IH; [reflexivity|discriminate|exact Hrest].
Qed.

Lemma cleaned_unique (pieces cleaned cleaned' : list str) :
  Forall2
    (fun piece value =>
       exists inner, trimmed isspace piece inner /\ trimmed is_quote inner value)
    pieces cleaned ->
  Forall2
    (fun piece value =>
       exists inner, trimmed isspace piece inner /\ trimmed is_quote inner value)
    pieces cleaned' ->
  cleaned = cleaned'.
Proof.
  intros H. revert cleaned'.
  induction H as [|piece value pieces cleaned (inner & Hi & Hv) _ IH];
    intros cleaned' H'.
  - inversion H'. reflexivity.
  - inversion H' as [|? value' ? cleaned0 (inner' & Hi' & Hv') H0]; subst.
    rewrite <- (trimmed_unique Hi Hi') in Hv'.
    rewrite (trimmed_unique Hv Hv'), (IH _ H0). reflexivity.
Qed.

Lemma cleaning_of_parser (response : str) :
  cleaning response
    (map (fun v => strip_chars quote_chars (strip v))
       (split 44 (remove_prefixes (strip response)))).
Proof.
  exists (strip response), (remove_prefixes (strip response)),
    (split 44 (remove_prefixes (strip response))).
  destruct (join_split 44 (remove_prefixes (strip response))) as [Hne Hjoin].
  split; [apply strip_by_trimmed|].
  split; [exact (remove_prefixes_without prefixes_to_remove (strip response))|].
  split; [exact Hne|]. split; [exact Hjoin|].
  split; [|apply cleaned_pieces].
  apply Forall_forall. intros piece Hin.
  exact (split_pieces_no_sep _ _ _ Hin).
Qed.

Lemma cleaning_unique (response : str) (cleaned cleaned' : list str) :
  cleaning response cleaned -> cleaning response cleaned' ->
  cleaned = cleaned'.
Proof.
  intros (stripped & body & pieces & Hs & Hb & Hne & Hj & Hc & Hv)
         (stripped' & body' & pieces' & Hs' & Hb' & Hne' & Hj' & Hc' & Hv').
  rewrite <- (trimmed_unique Hs Hs') in Hb'.
  pose proof (without_prefixes_unique Hb Hb') as Eb.
  assert (Ep : pieces = pieces').
  { rewrite <- (@split_join 44 pieces Hne Hc),
      <- (@split_join 44 pieces' Hne' Hc'), Hj, Hj', Eb.
    reflexivity. }
  rewrite <- Ep in Hv'. exact (cleaned_unique Hv Hv').
Qed.

(** C1. Whatever the completion and the expected keys, the parser returns
    (it never raises) a list with exactly one value per key.  The values
    come from the cleaned pieces of the completion, which the cleaning
    determines: the completion is trimmed of white space; the known
    prefixes are dropped from its head, each tried once in the order
    given, what follows a dropped prefix being trimmed again; the text is
    cut at its commas; each piece is trimmed of white space and then of
    quote characters.  The empty pieces are left out, and the list is
    padded at the tail with "general" when too few remain and cut to the
    first N when too many.  "a, b" with three keys gives a, b, general and
    "a, b, c, d" gives a, b, c; " Tags: 'a', " followed by b in double
    quotes gives a, b, general. *)
Theorem parse_llm_response_exactly_N :
  (forall (response : str) (tag_keys : list str),
      let N := length tag_keys in
      exists cleaned,
        cleaning response cleaned
        /\ (forall cleaned', cleaning response cleaned' -> cleaned' = cleaned)
        /\ let values := filter (fun v => negb (is_empty v)) cleaned in
           parse_llm_response response tag_keys = Ok (spec_repair N values)
           /\ length (spec_repair N values) = N
           /\ firstn (Nat.min N (length values)) (spec_repair N values)
              = firstn N values
           /\ skipn (length values) (spec_repair N values)
              = repeat (py "general") (N - length values))
  /\ (forall k1 k2 k3 : str,
         parse_llm_response (py "a, b") [k1; k2; k3]
         = Ok [py "a"; py "b"; py "general"])
  /\ (forall k1 k2 k3 : str,
         parse_llm_response (py "a, b, c, d") [k1; k2; k3]
         = Ok [py "a"; py "b"; py "c"])
  /\ (forall k1 k2 k3 : str,
         parse_llm_response (py " Tags: 'a', " ++ [34] ++ py "b" ++ [34])
           [k1; k2; k3]
         = Ok [py "a"; py "b"; py "general"]).
Proof.
  split; [|repeat split; intros; vm_compute; reflexivity].
  intros response tag_keys N.
  pose proof (cleaning_of_parser response) as Hclean.
  eexists. split; [exact Hclean|].
  split; [intros cleaned' H'; exact (cleaning_unique H' Hclean)|].
  intros values.
  assert (HN : length (spec_repair N values) = N) by apply spec_repair_length.
  split; [|split; [exact HN|split]].
  - apply parse_llm_response_exactly_N_pieces.
  - unfold spec_repair. rewrite firstn_firstn.
    replace (Nat.min (Nat.min N (length values)) N)
      with (Nat.min N (length values)) by lia.
    rewrite firstn_app.
    replace (Nat.min N (length values) - length values)%nat with 0%nat by lia.
    simpl. rewrite app_nil_r.
    destruct (Nat.le_ge_cases N (length values)) as [Hle|Hge].
    + rewrite Nat.min_l by lia. reflexivity.
    + rewrite Nat.min_r by lia. rewrite !firstn_all2; [reflexivity|lia|lia].
  - unfold spec_repair.
    destruct (Nat.le_ge_cases N (length values)) as [Hle|Hge].
    + replace (N - length values)%nat with 0%nat by lia.
      simpl. rewrite app_nil_r. apply skipn_all2.
      rewrite length_firstn. lia.
    + rewrite firstn_all2 by (rewrite length_app, repeat_length; lia).
      rewrite skipn_app, skipn_all, Nat.sub_diag. reflexivity.
Qed.


Lemma strip_all_space (s : str) :
  forallb isspace s = true -> strip s = [].
Proof.
  intros H. unfold strip, strip_by. rewrite lstrip_by_all by exact H.
  reflexivity.
Qed.

(** C10. An empty or all-whitespace completion does not raise: the parser
    returns "general" once per expected key. *)
Theorem parse_llm_response_blank (response : str) (tag_keys : list str) :
  forallb isspace response = true ->
  parse_llm_response response tag_keys
  = Ok (repeat general (length tag_keys)).
Proof.
  intros Hblank.
  destruct parse_llm_response_exactly_N_pieces
    with (response := response) (tag_keys := tag_keys) as [E _].
  rewrite E. unfold spec_pieces, spec_repair.
  rewrite strip_all_space by exact Hblank.
  change (remove_prefixes []) with (@nil Z).
  simpl. rewrite Nat.sub_0_r. rewrite firstn_all2; [reflexivity|].
  rewrite repeat_length. lia.
Qed.

Lemma parse_llm_response_blank_witness :
  forallb isspace [32; 9; 10] = true
  /\ parse_llm_response [32; 9; 10] [py "department"; py "topic"]
     = Ok [general; general].
Proof.
  split; [reflexivity|].
  apply (parse_llm_response_blank [32; 9; 10] [py "department"; py "topic"]).
  reflexivity.
Defined.

(** ** Truncation *)

Lemma scalar_of_bools (s : str) :
  wf_str s = true -> no_surrogate s = true -> Forall scalar s.
Proof.
  unfold wf_str, no_surrogate. induction s as [|c s IH]; simpl; intros Hw Hs.
  - constructor.
  - apply andb_prop in Hw. destruct Hw as [Hc Hw].
    apply negb_true_iff, orb_false_elim in Hs. destruct Hs as [Hsc Hs].
    constructor.
    + unfold is_code_point, is_surrogate in *. split; lia.
    + apply IH; [exact Hw|]. rewrite Hs. reflexivity.
Qed.

Lemma utf8_encode_from_ok (s : str) :
  Forall scalar s ->
  forall pos, utf8_encode_from pos s = Ok (encode_chars s).
Proof.
  induction 1 as [|c s [_ Hc] _ IH]; intros pos; simpl; [reflexivity|].
  assert (E : is_surrogate c = false) by (unfold is_surrogate; lia).
  rewrite E, IH. reflexivity.
Qed.

Ltac zlia := Z.div_mod_to_equations; lia.

Ltac decide_tests :=
  repeat match goal with
    | |- context [?a <? ?b] =>
        destruct (Z.ltb_spec a b); [try (exfalso; zlia)|try (exfalso; zlia)]
    | |- context [?a <=? ?b] =>
        destruct (Z.leb_spec a b); [try (exfalso; zlia)|try (exfalso; zlia)]
    | |- context [?a =? ?b] =>
        destruct (Z.eqb_spec a b); [try (exfalso; zlia)|try (exfalso; zlia)]
    end.

Lemma decode_encode_char (errors : errors_mode) (c : Z) (rest : bytes)
  (pos : nat) :
  scalar c ->
  utf8_decode_from errors pos (utf8_encode_char c ++ rest)
  = emit c (utf8_decode_from errors
              (pos + length (utf8_encode_char c)) rest).
Proof.
  intros [Hr Hs]. unfold utf8_encode_char.
  destruct (Z.ltb_spec c 0x80); [|destruct (Z.ltb_spec c 0x800);
    [|destruct (Z.ltb_spec c 0x10000)]];
    cbn [app length utf8_decode_from]; unfold is_continuation;
    decide_tests; cbn [negb orb andb]; f_equal; zlia.
Qed.
Lemma decode_encode_chars (errors : errors_mode) (s : str) (rest : bytes) :
  Forall scalar s ->
  forall pos,
    utf8_decode_from errors pos (encode_chars s ++ rest)
    = match utf8_decode_from errors (pos + length (encode_chars s)) rest with
      | Ok t => Ok (s ++ t)
      | Error e => Error e
      end.
Proof.
  induction 1 as [|c s Hc _ IH]; intros pos; simpl.
  - rewrite Nat.add_0_r. destruct (utf8_decode_from errors pos rest); reflexivity.
  - rewrite <- app_assoc, decode_encode_char by exact Hc.
    rewrite IH, length_app, Nat.add_assoc.
    destruct (utf8_decode_from errors _ rest); reflexivity.
Qed.

Lemma decode_encode_roundtrip (s : str) :
  Forall scalar s -> utf8_decode Strict (encode_chars s) = Ok s.
Proof.
  intros H. unfold utf8_decode.
  rewrite <- (app_nil_r (encode_chars s)), decode_encode_chars by exact H.
  simpl. rewrite app_nil_r. reflexivity.
Qed.

(** A cut of the encoding falls on a character boundary or inside the
    encoding of one character. *)
Lemma firstn_encode_chars (s : str) :
  forall n : nat,
  exists s1 s2 p,
    s = s1 ++ s2
    /\ firstn n (encode_chars s) = encode_chars s1 ++ p
    /\ (p = []
        \/ exists c s2' k,
             s2 = c :: s2'
             /\ (0 < k < length (utf8_encode_char c))%nat
             /\ p = firstn k (utf8_encode_char c)).
Proof.
  induction s as [|c s IH]; intros n.
  - exists [], [], []. rewrite firstn_nil. auto.
  - simpl. destruct (Nat.le_gt_cases (length (utf8_encode_char c)) n) as [Hle|Hgt].
    + destruct (IH (n - length (utf8_encode_char c))%nat)
        as (s1 & s2 & p & Es & Ef & Hp).
      exists (c :: s1), s2, p. split; [simpl; congruence|]. split; [|exact Hp].
      rewrite firstn_app, firstn_all2 by lia. simpl.
      rewrite Ef, app_assoc. reflexivity.
    + exists [], (c :: s), (firstn n (utf8_encode_char c)).
      split; [reflexivity|]. split.
      * rewrite firstn_app.
        replace (n - length (utf8_encode_char c))%nat with 0%nat by lia.
        simpl. rewrite app_nil_r. reflexivity.
      * destruct n as [|n]; [left; reflexivity|].
        right. exists c, s, (S n). repeat split; [lia|exact Hgt].
Qed.

Lemma land_C0_continuation (b : Z) :
  0 <= b < 256 -> (Z.land b 0xC0 =? 0x80) = is_continuation b.
Proof.
  intros Hb.
  assert (H : forallb
                (fun n => Bool.eqb (Z.land (Z.of_nat n) 0xC0 =? 0x80)
                            (is_continuation (Z.of_nat n)))
                (seq 0 256) = true) by (vm_compute; reflexivity).
  rewrite forallb_forall in H. specialize (H (Z.to_nat b)).
  rewrite Z2Nat.id in H by lia. apply eqb_prop, H, in_seq. lia.
Qed.

Lemma drop_tail_continuation_snoc (l : bytes) (b : Z) :
  drop_tail_continuation (l ++ [b])
  = if Z.land b 0xC0 =? 0x80 then drop_tail_continuation l else l ++ [b].
Proof.
  destruct (l ++ [b]) as [|x l'] eqn:E; [destruct l; discriminate|].
  simp drop_tail_continuation. rewrite <- E at 1. rewrite last_last.
  destruct (Z.land b 0xC0 =? 0x80); cbn [drop_tail_continuation_unfold_clause_2].
  - rewrite <- E, removelast_last. reflexivity.
  - reflexivity.
Qed.

(** The encoding of one character: a lead byte and the continuation
    bytes CPython's decoder expects behind it. *)
Lemma encode_char_shape (c : Z) :
  scalar c ->
  (utf8_encode_char c = [c] /\ 0 <= c < 0x80)
  \/ (exists b0 b1,
        utf8_encode_char c = [b0; b1]
        /\ 0xC2 <= b0 < 0xE0 /\ 0x80 <= b1 < 0xC0)
  \/ (exists b0 b1 b2,
        utf8_encode_char c = [b0; b1; b2]
        /\ 0xE0 <= b0 < 0xF0 /\ 0x80 <= b1 < 0xC0 /\ 0x80 <= b2 < 0xC0
        /\ (b0 = 0xE0 -> 0xA0 <= b1) /\ (b0 = 0xED -> b1 < 0xA0))
  \/ (exists b0 b1 b2 b3,
        utf8_encode_char c = [b0; b1; b2; b3]
        /\ 0xF0 <= b0 < 0xF5 /\ 0x80 <= b1 < 0xC0 /\ 0x80 <= b2 < 0xC0
        /\ 0x80 <= b3 < 0xC0
        /\ (b0 = 0xF0 -> 0x90 <= b1) /\ (b0 = 0xF4 -> b1 < 0x90)).
Proof.
  intros [Hr Hs]. unfold utf8_encode_char.
  destruct (Z.ltb_spec c 0x80); [left; split; [reflexivity|lia]|right].
  destruct (Z.ltb_spec c 0x800).
  { left. eexists _, _. split; [reflexivity|]. zlia. }
  right. destruct (Z.ltb_spec c 0x10000).
  { left. eexists _, _, _. split; [reflexivity|]. zlia. }
  right. eexists _, _, _, _. split; [reflexivity|]. zlia.
Qed.

Ltac peel_byte :=
  rewrite drop_tail_continuation_snoc, land_C0_continuation by lia;
  unfold is_continuation; decide_tests; cbn [andb].

(** A cut inside a character: strict decoding fails, the loop removes the
    continuation bytes of the tail, and the lone lead byte is ignored. *)
Lemma partial_char (c : Z) (k : nat) (pre : bytes) (pos : nat) :
  scalar c ->
  (0 < k < length (utf8_encode_char c))%nat ->
  (exists e,
      utf8_decode_from Strict pos (firstn k (utf8_encode_char c)) = Error e
      /\ exn_kind_of e = UnicodeDecodeError)
  /\ (exists lead,
        drop_tail_continuation (pre ++ firstn k (utf8_encode_char c))
        = pre ++ [lead]
        /\ utf8_decode_from Ignore pos [lead] = Ok []).
Proof.
  intros Hc Hk.
  destruct (encode_char_shape Hc)
    as [[E _]|[(b0 & b1 & E & H)|[(b0 & b1 & b2 & E & H)
         |(b0 & b1 & b2 & b3 & E & H)]]];
    rewrite E in *; simpl in Hk.
  - lia.
  - assert (k = 1%nat) by lia. subst k. cbn [firstn]. split.
    + cbn [utf8_decode_from]. decide_tests.
      eexists. split; reflexivity.
    + exists b0. split; [peel_byte; reflexivity|].
      cbn [utf8_decode_from]. decide_tests. reflexivity.
  - assert (Hk' : k = 1%nat \/ k = 2%nat) by lia.
    destruct Hk'; subst k; cbn [firstn]; split.
    + cbn [utf8_decode_from]. decide_tests. eexists. split; reflexivity.
    + exists b0. split; [peel_byte; reflexivity|].
      cbn [utf8_decode_from]. decide_tests. reflexivity.
    + cbn [utf8_decode_from]. unfold is_continuation. decide_tests;
        cbn [negb andb orb]; eexists; split; reflexivity.
    + exists b0. split.
      * change (pre ++ [b0; b1]) with (pre ++ [b0] ++ [b1]).
        rewrite app_assoc. peel_byte. peel_byte. reflexivity.
      * cbn [utf8_decode_from]. decide_tests. reflexivity.
  - assert (Hk' : k = 1%nat \/ k = 2%nat \/ k = 3%nat) by lia.
    destruct Hk' as [?|[?|?]]; subst k; cbn [firstn]; split.
    + cbn [utf8_decode_from]. decide_tests. eexists. split; reflexivity.
    + exists b0. split; [peel_byte; reflexivity|].
      cbn [utf8_decode_from]. decide_tests. reflexivity.
    + cbn [utf8_decode_from]. unfold is_continuation. decide_tests;
        cbn [negb andb orb]; eexists; split; reflexivity.
    + exists b0. split.
      * change (pre ++ [b0; b1]) with (pre ++ [b0] ++ [b1]).
        rewrite app_assoc. peel_byte. peel_byte. reflexivity.
      * cbn [utf8_decode_from]. decide_tests. reflexivity.
    + cbn [utf8_decode_from]. unfold is_continuation. decide_tests;
        cbn [negb andb orb]; eexists; split; reflexivity.
    + exists b0. split.
      * change (pre ++ [b0; b1; b2]) with (pre ++ [b0] ++ [b1] ++ [b2]).
        rewrite !app_assoc. peel_byte. peel_byte. peel_byte. reflexivity.
      * cbn [utf8_decode_from]. decide_tests. reflexivity.
Qed.

Lemma truncate_content_fits (t : str) (b : Z) :
  Forall scalar t ->
  Z.of_nat (length (encode_chars t)) <= b ->
  truncate_content t b = Ok t.
Proof.
  intros Ht Hlen. unfold truncate_content, utf8_encode.
  rewrite utf8_encode_from_ok by exact Ht.
  destruct (Z.leb_spec (Z.of_nat (length (encode_chars t))) b); [reflexivity|lia].
Qed.

Lemma truncate_content_prefix (s : str) (b : Z) :
  Forall scalar s -> 0 <= b ->
  exists t rest,
    truncate_content s b = Ok t
    /\ s = t ++ rest
    /\ Z.of_nat (length (encode_chars t)) <= b.
Proof.
  intros Hs Hb. unfold truncate_content, utf8_encode.
  rewrite utf8_encode_from_ok by exact Hs.
  destruct (Z.leb_spec (Z.of_nat (length (encode_chars s))) b) as [Hle|Hgt].
  { exists s, []. rewrite app_nil_r. auto. }
  unfold slice_to. destruct (Z.leb_spec 0 b); [|lia].
  destruct (firstn_encode_chars s (Z.to_nat b)) as (s1 & s2 & p & Es & Ef & Hp).
  assert (Hs1 : Forall scalar s1).
  { subst s. apply Forall_app in Hs. tauto. }
  assert (Hlen : Z.of_nat (length (encode_chars s1)) <= b).
  { assert (Hl : (length (firstn (Z.to_nat b) (encode_chars s))
                  <= Z.to_nat b)%nat) by (rewrite length_firstn; lia).
    rewrite Ef, length_app in Hl. lia. }
  exists s1, s2. split; [|split; [exact Es|exact Hlen]].
  rewrite Ef. unfold utf8_decode.
  destruct Hp as [Hp|(c & s2' & k & Es2 & Hk & Hp)]; subst p.
  - rewrite decode_encode_chars by exact Hs1. simpl. rewrite app_nil_r.
    reflexivity.
  - assert (Hc : scalar c).
    { subst s s2. apply Forall_app in Hs. destruct Hs as [_ Hs].
      inversion Hs. assumption. }
    rewrite decode_encode_chars by exact Hs1.
    destruct (partial_char (encode_chars s1)
                (0 + length (encode_chars s1)) Hc Hk)
      as [(e & Ee & Ekind) (lead & Ed & Ei)].
    rewrite Ee, Ekind, Ed, decode_encode_chars by exact Hs1.
    rewrite Ei, app_nil_r. reflexivity.
Qed.

Lemma utf8_encode_from_surrogate (s : str) :
  existsb is_surrogate s = true ->
  forall pos, exists msg,
    utf8_encode_from pos s = Error (Raise UnicodeEncodeError msg).
Proof.
  induction s as [|c s IH]; simpl; [discriminate|].
  intros H pos. destruct (is_surrogate c).
  - eexists. unfold encode_error. reflexivity.
  - destruct (IH H (S pos)) as (msg & E). rewrite E. exists msg. reflexivity.
Qed.

(** C3 (as amended). For a string without surrogate code points and a
    positive byte budget, truncation returns a string whose UTF-8 encoding
    fits the budget and decodes back to it, that is a prefix of the input
    made of whole characters, and that truncation leaves unchanged.  For
    a string that holds a surrogate code point, truncation raises a
    UnicodeEncodeError, whatever the budget. *)
Theorem truncate_content_sound (s : str) (b : Z) :
  (wf_str s = true ->
   no_surrogate s = true ->
   0 < b ->
   exists t bs,
     truncate_content s b = Ok t
     /\ utf8_encode t = Ok bs
     /\ Z.of_nat (length bs) <= b
     /\ utf8_decode Strict bs = Ok t
     /\ (exists rest, s = t ++ rest)
     /\ truncate_content t b = Ok t)
  /\ (no_surrogate s = false ->
      exists msg,
        truncate_content s b = Error (Raise UnicodeEncodeError msg)).
Proof.
  split.
  - intros Hw Hn Hb.
    assert (Hs : Forall scalar s) by (apply scalar_of_bools; assumption).
    destruct (@truncate_content_prefix s b Hs) as (t & rest & Et & Es & Hlen);
      [lia|].
    assert (Ht : Forall scalar t).
    { subst s. apply Forall_app in Hs. tauto. }
    exists t, (encode_chars t). split; [exact Et|].
    split; [apply utf8_encode_from_ok; exact Ht|].
    split; [exact Hlen|].
    split; [apply decode_encode_roundtrip; exact Ht|].
    split; [exists rest; exact Es|].
    apply truncate_content_fits; assumption.
  - intros Hn. unfold no_surrogate in Hn. apply negb_false_iff in Hn.
    destruct (utf8_encode_from_surrogate s Hn 0) as (msg & E).
    exists msg. unfold truncate_content, utf8_encode. rewrite E. reflexivity.
Qed.

Lemma truncate_content_sound_witness :
  (exists t bs,
      truncate_content [97; 0x20AC; 98] 3 = Ok t
      /\ utf8_encode t = Ok bs
      /\ Z.of_nat (length bs) <= 3
      /\ utf8_decode Strict bs = Ok t
      /\ (exists rest, [97; 0x20AC; 98] = t ++ rest)
      /\ truncate_content t 3 = Ok t)
  /\ (exists msg,
        truncate_content [97; 0xDC00; 98] (-1)
        = Error (Raise UnicodeEncodeError msg)).
Proof.
  split.
  - apply (proj1 (@truncate_content_sound [97; 0x20AC; 98] 3));
      [reflexivity|reflexivity|reflexivity].
  - apply (proj2 (@truncate_content_sound [97; 0xDC00; 98] (-1))).
    reflexivity.
Defined.

(** C3, the claim as stated, fails on a string with a lone surrogate (which
    [json.loads] produces from an escape): encoding raises. *)
Lemma truncate_content_lone_surrogate :
  wf_str [0xD800] = true
  /\ truncate_content [0xD800] 5
     = Error (Raise UnicodeEncodeError
                (py "'utf-8' codec can't encode character '\ud800' in position 0: surrogates not allowed")).
Proof. split; vm_compute; reflexivity. Qed.

(** ** Custom prompt template *)


Lemma contains_app_r (a b sub : str) :
  contains b sub = true -> contains (a ++ b) sub = true.
Proof.
  intros H. induction a as [|c a IH]; [exact H|].
  simpl app. cbn [contains]. rewrite IH. apply orb_true_r.
Qed.

Lemma contains_prefix (sub rest : str) : contains (sub ++ rest) sub = true.
Proof.
  destruct (sub ++ rest) eqn:E; cbn [contains];
    rewrite <- E, startswith_app; reflexivity.
Qed.

Lemma contains_token (p : placeholder) (segs : list segment) :
  has_token p segs = true ->
  contains (template_of segs) (token_text p) = true.
Proof.
  induction segs as [|seg segs IH]; simpl; [discriminate|].
  intros H. apply orb_prop in H. destruct H as [H|H].
  - destruct seg as [t|q]; [discriminate|].
    assert (p = q) by (destruct p, q; try discriminate; reflexivity).
    subst q. apply contains_prefix.
  - apply contains_app_r, IH, H.
Qed.

Section FormatFacts.
Variable rt : Runtime.
Variable kwargs : list (str * str).

Lemma format_from_text (t rest : str) :
  brace_free t = true ->
  format_from rt kwargs SLit (t ++ rest)
  = then_append (Ok t) (format_from rt kwargs SLit rest).
Proof.
  induction t as [|c t IH]; simpl.
  - intros _. destruct (format_from rt kwargs SLit rest); reflexivity.
  - intros H. apply andb_prop in H. destruct H as [Hc Ht].
    unfold is_brace in Hc. apply negb_true_iff, orb_false_elim in Hc.
    destruct Hc as [H1 H2]. rewrite H1, H2, (IH Ht). simpl.
    destruct (format_from rt kwargs SLit rest); reflexivity.
Qed.

End FormatFacts.

Lemma format_from_token (rt : Runtime) (tags_text content filename : str)
  (p : placeholder) (rest : str) :
  format_from rt
    [(py "tags", tags_text); (py "content", content); (py "filename", filename)]
    SLit (token_text p ++ rest)
  = then_append
      (Ok (substituted tags_text content filename [Token p]))
      (format_from rt
         [(py "tags", tags_text); (py "content", content);
          (py "filename", filename)]
         SLit rest).
Proof.
  destruct p; simpl; rewrite ?app_nil_r; reflexivity.
Qed.

Lemma format_segments (rt : Runtime) (tags_text content filename : str)
  (segs : list segment) :
  plain_segments segs = true ->
  py_format rt (template_of segs)
    [(py "tags", tags_text); (py "content", content); (py "filename", filename)]
  = Ok (substituted tags_text content filename segs).
Proof.
  unfold py_format. induction segs as [|seg segs IH]; [reflexivity|].
  simpl. intros H. apply andb_prop in H. destruct H as [Hseg Hsegs].
  destruct seg as [t|p].
  - rewrite format_from_text, (IH Hsegs) by exact Hseg. reflexivity.
  - rewrite format_from_token, (IH Hsegs). simpl.
    rewrite app_nil_r. reflexivity.
Qed.

(** C9 (as amended). When a placeholder token is absent from the template,
    building the prompt fails with a ValueError whose message lists exactly
    the absent tokens.  When the template is made of text without braces
    and the three tokens, each of them present, the result is the template
    with the tokens replaced by the schema, the content and the file
    name. *)
Theorem format_custom_llm_prompt_spec (rt : Runtime) (tags : TagSchema)
  (content filename : str) :
  (forall template : str,
      (exists p, In p required_placeholders /\ contains template p = false) ->
      exists missing,
        format_custom_llm_prompt rt template tags content filename
        = Error (Raise ValueError (missing_message rt missing))
        /\ forall p, In p missing
                     <-> In p required_placeholders
                         /\ contains template p = false)
  /\ (forall segs : list segment,
        plain_segments segs = true ->
        has_token PTags segs = true ->
        has_token PContent segs = true ->
        has_token PFilename segs = true ->
        format_custom_llm_prompt rt (template_of segs) tags content filename
        = Ok (substituted (str_of_tags rt tags) content filename segs)).
Proof.
  split.
  - intros template (p & Hin & Hp).
    exists (filter (fun q => negb (contains template q)) required_placeholders).
    split.
    + unfold format_custom_llm_prompt.
      destruct (filter _ required_placeholders) eqn:E; [|reflexivity].
      exfalso.
      assert (Hf : In p (filter (fun q => negb (contains template q))
                           required_placeholders)).
      { apply filter_In. rewrite Hp. auto. }
      rewrite E in Hf. exact Hf.
    + intros q. rewrite filter_In, negb_true_iff. reflexivity.
  - intros segs Hplain Ht Hc Hf. unfold format_custom_llm_prompt.
    assert (E : filter (fun q => negb (contains (template_of segs) q))
                  required_placeholders = []).
    { pose proof (contains_token PTags segs Ht) as H1.
      pose proof (contains_token PContent segs Hc) as H2.
      pose proof (contains_token PFilename segs Hf) as H3.
      cbn [token_text] in H1, H2, H3.
      unfold required_placeholders. cbn [filter].
      rewrite H1, H2, H3. reflexivity. }
    rewrite E. apply format_segments. exact Hplain.
Qed.

Lemma format_custom_llm_prompt_spec_witness :
  (exists missing,
      format_custom_llm_prompt ascii_runtime (py "Classify: {content}") []
        (py "text") (py "a.txt")
      = Error (Raise ValueError (missing_message ascii_runtime missing))
      /\ forall p, In p missing
                   <-> In p required_placeholders
                       /\ contains (py "Classify: {content}") p = false)
  /\ format_custom_llm_prompt ascii_runtime
       (template_of [Token PFilename; Text (py ": "); Token PContent;
                     Text (py " -> "); Token PTags])
       [(py "topic", None)] (py "text") (py "a.txt")
     = Ok (substituted (str_of_tags ascii_runtime [(py "topic", None)])
             (py "text") (py "a.txt")
             [Token PFilename; Text (py ": "); Token PContent;
              Text (py " -> "); Token PTags]).
Proof.
  split.
  - apply (proj1 (format_custom_llm_prompt_spec ascii_runtime []
                    (py "text") (py "a.txt"))).
    exists (py "{tags}"). split; [simpl; auto|reflexivity].
  - apply (proj2 (format_custom_llm_prompt_spec ascii_runtime
                    [(py "topic", None)] (py "text") (py "a.txt")));
      reflexivity.
Defined.

(** C9, the claim as stated, fails on a template that holds the three
    tokens and another brace: a stray brace makes [str.format] raise, and
    a doubled brace comes out single. *)
Lemma format_custom_llm_prompt_stray_brace :
  forallb (contains (py "{tags} {content} {filename} }"))
    required_placeholders = true
  /\ format_custom_llm_prompt ascii_runtime
       (py "{tags} {content} {filename} }") [] (py "text") (py "a.txt")
     = Error (Raise ValueError
                (py "Single '}' encountered in format string"))
  /\ forallb (contains (py "{{x}} {tags} {content} {filename}"))
       required_placeholders = true
  /\ format_custom_llm_prompt ascii_runtime
       (py "{{x}} {tags} {content} {filename}") [] (py "text") (py "a.txt")
     = Ok (py "{x} {} text a.txt").
Proof. repeat split; vm_compute; reflexivity. Qed.

(** ** Dictionaries *)

Lemma str_eqb_eq (a b : str) : str_eqb a b = true <-> a = b.
Proof.
  revert b. induction a as [|x a IH]; intros [|y b]; simpl;
    try (split; [discriminate|discriminate]); [tauto|].
  rewrite andb_true_iff, Z.eqb_eq, IH. split.
  - intros [-> ->]. reflexivity.
  - intros E. inversion E. auto.
Qed.

Lemma in_list_In (k : str) (l : list str) : in_list k l = true <-> In k l.
Proof.
  unfold in_list. rewrite existsb_exists. split.
  - intros (x & Hx & E). apply str_eqb_eq in E. subst. exact Hx.
  - intros H. exists k. split; [exact H|apply str_eqb_eq; reflexivity].
Qed.

Lemma in_list_false (k : str) (l : list str) :
  in_list k l = false <-> ~ In k l.
Proof.
  rewrite <- in_list_In. destruct (in_list k l); split; intuition congruence.
Qed.

Lemma no_dup_NoDup (l : list str) : no_dup l = true <-> NoDup l.
Proof.
  induction l as [|x l IH]; simpl.
  - split; [constructor|reflexivity].
  - rewrite andb_true_iff, negb_true_iff, in_list_false, IH. split.
    + intros [H1 H2]. constructor; assumption.
    + intros H. inversion H. auto.
Qed.

Lemma dict_get_None {V : Type} (d : dict V) (k : str) :
  ~ In k (dict_keys d) -> dict_get d k = None.
Proof.
  induction d as [|[k' v] d IH]; simpl; [reflexivity|].
  intros H. destruct (str_eqb k' k) eqn:E.
  - apply str_eqb_eq in E. tauto.
  - apply IH. tauto.
Qed.

Lemma dict_get_app {V : Type} (a b : dict V) (k : str) :
  dict_get (a ++ b) k
  = match dict_get a k with
    | Some v => Some v
    | None => dict_get b k
    end.
Proof.
  induction a as [|[k' v] a IH]; simpl; [reflexivity|].
  destruct (str_eqb k' k); [reflexivity|exact IH].
Qed.

Lemma dict_get_filter {V : Type} (p : str -> bool) (d : dict V) (k : str) :
  p k = true ->
  dict_get (filter (fun kv => p (fst kv)) d) k = dict_get d k.
Proof.
  intros Hk. induction d as [|[k' v] d IH]; simpl; [reflexivity|].
  destruct (str_eqb k' k) eqn:E.
  - apply str_eqb_eq in E. subst k'. rewrite Hk. simpl.
    rewrite (proj2 (str_eqb_eq k k) eq_refl). reflexivity.
  - destruct (p k'); simpl; [rewrite E|]; exact IH.
Qed.

Lemma dict_set_fresh {V : Type} (d : dict V) (k : str) (v : V) :
  ~ In k (dict_keys d) -> dict_set d k v = d ++ [(k, v)].
Proof.
  induction d as [|[k' v'] d IH]; simpl; [reflexivity|].
  intros H. destruct (str_eqb k' k) eqn:E.
  - apply str_eqb_eq in E. tauto.
  - rewrite IH by tauto. reflexivity.
Qed.

Lemma dict_update_fresh {V : Type} (new d : dict V) :
  NoDup (dict_keys new) ->
  (forall k, In k (dict_keys new) -> ~ In k (dict_keys d)) ->
  dict_update d new = d ++ new.
Proof.
  unfold dict_update. revert d.
  induction new as [|[k v] new IH]; intros d Hnd Hfresh; simpl.
  - rewrite app_nil_r. reflexivity.
  - inversion Hnd as [|? ? Hk Hnew]; subst.
    rewrite dict_set_fresh by (apply Hfresh; simpl; auto).
    rewrite IH; [rewrite <- app_assoc; reflexivity|exact Hnew|].
    intros k' Hk' Hin. unfold dict_keys in Hin.
    rewrite map_app, in_app_iff in Hin. destruct Hin as [Hin|Hin].
    + apply (Hfresh k'); simpl; auto.
    + simpl in Hin. destruct Hin as [<-|[]]. exact (Hk Hk').
Qed.

Lemma filter_length_split {A : Type} (p : A -> bool) (l : list A) :
  (length (filter p l) + length (filter (fun x => negb (p x)) l)
   = length l)%nat.
Proof.
  induction l as [|x l IH]; simpl; [reflexivity|].
  destruct (p x); simpl; lia.
Qed.

Lemma common_count (l1 l2 : list str) :
  NoDup l1 -> NoDup l2 ->
  length (filter (fun k => in_list k l2) l1)
  = length (filter (fun k => in_list k l1) l2).
Proof.
  intros H1 H2. apply Permutation_length, NoDup_Permutation.
  - apply NoDup_filter, H1.
  - apply NoDup_filter, H2.
  - intros k. rewrite !filter_In, !in_list_In. tauto.
Qed.

(** ** Merge *)

Lemma validate_values_ok (limits : Limits) (tag_keys vs : list str) :
  forallb (valid_value limits) vs = true ->
  forall i, validate_values limits tag_keys i vs = Ok tt.
Proof.
  induction vs as [|v vs IH]; simpl; intros H i; [reflexivity|].
  apply andb_prop in H. destruct H as [Hv Hvs].
  unfold valid_value in Hv. apply andb_prop in Hv. destruct Hv as [Hb Hl].
  apply negb_true_iff in Hb. rewrite Hb.
  apply Nat.leb_le in Hl.
  destruct (Nat.ltb_spec (max_value limits) (length v)); [lia|].
  apply IH, Hvs.
Qed.

Lemma validate_items_ok (limits : Limits) (items : dict str) :
  forallb (valid_entry limits) items = true ->
  validate_items limits items = Ok tt.
Proof.
  induction items as [|[k v] items IH]; simpl; intros H; [reflexivity|].
  apply andb_prop in H. destruct H as [Hkv Hrest].
  unfold valid_entry, valid_value in Hkv. simpl in Hkv.
  apply andb_prop in Hkv. destruct Hkv as [Hk Hv].
  apply andb_prop in Hk. destruct Hk as [Hkb Hkl].
  apply andb_prop in Hv. destruct Hv as [Hvb Hvl].
  apply negb_true_iff in Hkb, Hvb. rewrite Hkb, Hvb.
  apply Nat.leb_le in Hkl, Hvl.
  destruct (Nat.ltb_spec (max_key limits) (length k)); [lia|].
  destruct (Nat.ltb_spec (max_value limits) (length v)); [lia|].
  apply IH, Hrest.
Qed.

(** C2. With proposed tags that hold one entry per schema key and entries
    that are valid one by one, the merge is the existing tags without the
    schema keys followed by the proposed tags: a schema key has the
    proposed value, the count is k1 - s + k2, and the merge fails with a
    SchemaValidationError, returning no mapping, exactly when that count
    exceeds the provider's maximum. *)
Theorem merge_and_validate_tags_spec (provider : str) (limits : Limits)
  (existing_tags new_tags : dict str) (tag_keys : list str) :
  get_provider_tag_limits provider = Ok limits ->
  no_dup (dict_keys existing_tags) = true ->
  no_dup (dict_keys new_tags) = true ->
  no_dup tag_keys = true ->
  Permutation (dict_keys new_tags) tag_keys ->
  forallb (valid_entry limits) existing_tags = true ->
  forallb (valid_value limits) (dict_values new_tags) = true ->
  let k1 := length existing_tags in
  let k2 := length new_tags in
  let s := length (filter (fun k => in_list k (dict_keys existing_tags))
                     tag_keys) in
  let merged :=
    filter (fun kv => negb (in_list (fst kv) tag_keys)) existing_tags
    ++ new_tags in
  length merged = (k1 - s + k2)%nat
  /\ (s <= k1)%nat
  /\ (forall k, In k tag_keys -> dict_get merged k = dict_get new_tags k)
  /\ (forall k, ~ In k tag_keys ->
                dict_get merged k = dict_get existing_tags k)
  /\ ((k1 - s + k2 <= max_tags limits)%nat ->
      merge_and_validate_tags existing_tags new_tags tag_keys provider
      = Ok merged)
  /\ ((max_tags limits < k1 - s + k2)%nat ->
      exists msg,
        merge_and_validate_tags existing_tags new_tags tag_keys provider
        = Error (Raise SchemaValidationError msg)).
Proof.
  intros Hlim He Hn Hk Hperm Hve Hvn k1 k2 s merged.
  apply no_dup_NoDup in He, Hn, Hk.
  set (kept := filter (fun kv => negb (in_list (fst kv) tag_keys))
                 existing_tags) in *.
  assert (Hkept_keys : forall k, In k (dict_keys kept) -> ~ In k tag_keys).
  { intros k Hin. unfold dict_keys, kept in Hin. apply in_map_iff in Hin.
    destruct Hin as ([k' v] & <- & Hf). apply filter_In in Hf.
    destruct Hf as [_ Hf]. apply negb_true_iff, in_list_false in Hf.
    exact Hf. }
  assert (Hs : s = length (filter (fun kv => in_list (fst kv) tag_keys)
                             existing_tags)).
  { unfold s. rewrite <- (common_count He Hk).
    unfold dict_keys. clear. induction existing_tags as [|[k v] l IH];
      simpl; [reflexivity|].
    destruct (in_list k tag_keys); simpl; rewrite IH; reflexivity. }
  assert (Hsplit := filter_length_split
                      (fun kv : str * str => in_list (fst kv) tag_keys)
                      existing_tags).
  cbv beta in Hsplit. fold kept in Hsplit. rewrite <- Hs in Hsplit.
  assert (Hk2 : k2 = length tag_keys).
  { unfold k2. rewrite <- (Permutation_length Hperm).
    unfold dict_keys. rewrite length_map. reflexivity. }
  assert (Hsk : (s <= k2)%nat).
  { rewrite Hk2. unfold s. apply filter_length_le. }
  assert (Hlen : length merged = (k1 - s + k2)%nat).
  { unfold merged. rewrite length_app. fold k2. unfold k1. lia. }
  assert (Hupd : dict_update kept new_tags = merged).
  { apply dict_update_fresh; [exact Hn|].
    intros k Hin Hin'. apply (Hkept_keys k Hin').
    apply (Permutation_in _ Hperm Hin). }
  split; [exact Hlen|]. split; [unfold k1; lia|].
  split; [|split; [|split]].
  - intros k Hin. unfold merged. rewrite dict_get_app, dict_get_None.
    + reflexivity.
    + intros Hin'. exact (Hkept_keys k Hin' Hin).
  - intros k Hnin. unfold merged. rewrite dict_get_app.
    unfold kept.
    rewrite (dict_get_filter (fun k => negb (in_list k tag_keys)))
      by (apply negb_true_iff, in_list_false; exact Hnin).
    destruct (dict_get existing_tags k); [reflexivity|].
    apply dict_get_None. intros Hin. apply Hnin.
    apply (Permutation_in _ Hperm Hin).
  - intros Hfit. unfold merge_and_validate_tags.
    unfold validate_existing_tags, validate_tag_values. rewrite Hlim.
    destruct (Nat.ltb_spec (max_tags limits) (length existing_tags));
      [unfold k1 in *; lia|].
    rewrite validate_items_ok by exact Hve.
    unfold dict_values at 1. rewrite length_map. fold k2.
    rewrite Hk2, Nat.eqb_refl. simpl negb. cbv iota.
    rewrite validate_values_ok by exact Hvn.
    fold kept. rewrite Hupd, Hlen.
    destruct (Nat.ltb_spec (max_tags limits) (k1 - s + k2)); [lia|].
    reflexivity.
  - intros Hover. unfold merge_and_validate_tags.
    unfold validate_existing_tags, validate_tag_values. rewrite Hlim.
    destruct (Nat.ltb_spec (max_tags limits) (length existing_tags));
      [eexists; reflexivity|].
    rewrite validate_items_ok by exact Hve.
    unfold dict_values at 1. rewrite length_map. fold k2.
    rewrite Hk2, Nat.eqb_refl. simpl negb. cbv iota.
    rewrite validate_values_ok by exact Hvn.
    fold kept. rewrite Hupd, Hlen.
    destruct (Nat.ltb_spec (max_tags limits) (k1 - s + k2)); [|lia].
    eexists. reflexivity.
Qed.

Lemma merge_and_validate_tags_spec_witness :
  merge_and_validate_tags
    [(py "owner", py "ann"); (py "department", py "labs")]
    [(py "department", py "billing")] [py "department"] (py "aws")
  = Ok [(py "owner", py "ann"); (py "department", py "billing")].
Proof.
  pose proof (@merge_and_validate_tags_spec (py "aws")
                {| max_tags := 10; max_key := 128; max_value := 256 |}
                [(py "owner", py "ann"); (py "department", py "labs")]
                [(py "department", py "billing")] [py "department"]) as X.
  assert (H1 : get_provider_tag_limits (py "aws")
               = Ok {| max_tags := 10; max_key := 128; max_value := 256 |})
    by (vm_compute; reflexivity).
  specialize (X H1).
  repeat (match type of X with
          | (?a = true) -> _ =>
              let H := fresh in
              assert (H : a = true) by (vm_compute; reflexivity);
              specialize (X H); clear H
          | Permutation _ _ -> _ => specialize (X (Permutation_refl _))
          end).
  destruct X as (_ & _ & _ & _ & X & _).
  apply X. vm_compute. lia.
Defined.

(** ** Schema validation *)

Lemma distinct_NoDup (l : list str) : NoDup l -> distinct l = l.
Proof.
  induction 1 as [|x l Hx _ IH]; simpl; [reflexivity|].
  apply in_list_false in Hx. rewrite Hx, IH. reflexivity.
Qed.

Lemma validate_keys_ok (rt : Runtime) (limits : Limits) (ks : list str) :
  forallb (valid_key rt limits) ks = true ->
  validate_keys rt limits ks = Ok tt.
Proof.
  induction ks as [|k ks IH]; simpl; intros H; [reflexivity|].
  apply andb_prop in H. destruct H as [Hk Hks].
  unfold valid_key in Hk.
  apply andb_prop in Hk. destruct Hk as [Hk Ha].
  apply andb_prop in Hk. destruct Hk as [Hb Hl].
  apply negb_true_iff in Hb. rewrite Hb, Ha. apply Nat.leb_le in Hl.
  destruct (Nat.ltb_spec (max_key limits) (length k)); [lia|].
  apply IH, Hks.
Qed.

(** The validator of [schemas.py], taken alone, follows the limits table:
    with keys that are well formed it rejects a schema exactly when the
    number of keys reaches the provider's maximum. *)
Lemma validate_tagging_config_count (rt : Runtime) (config : TaggingConfig)
  (provider : str) (limits : Limits) :
  get_provider_tag_limits provider = Ok limits ->
  no_dup (dict_keys (tags config)) = true ->
  forallb (valid_key rt limits) (dict_keys (tags config)) = true ->
  validate_tagging_config rt config provider
  = if (max_tags limits <=? length (tags config))%nat
    then Error (schema_error
                  (py "Maximum " ++ str_of_nat (max_tags limits)
                   ++ py " tags per object"))
    else Ok tt.
Proof.
  intros Hlim Hnd Hkeys. unfold validate_tagging_config. rewrite Hlim.
  destruct (max_tags limits <=? length (tags config))%nat; [reflexivity|].
  apply no_dup_NoDup in Hnd. rewrite (distinct_NoDup Hnd).
  unfold dict_keys at 1. rewrite length_map, Nat.eqb_refl. simpl.
  apply validate_keys_ok, Hkeys.
Qed.

Lemma unknown_provider_rejected (rt : Runtime) (config : TaggingConfig) :
  validate_tagging_config rt config (py "minio")
  = Error (schema_error (py "Unsupported storage provider: minio")).
Proof. reflexivity. Qed.

(** C4 (the code departs from the claim). For gcp the limits table allows
    up to 63 keys and the schema validator accepts a schema of ten keys,
    but the configuration model refuses every schema of ten keys or more,
    whatever the provider: the configuration of a tagger for gcp with ten
    keys fails, and it fails with a ValueError for aws too, before the
    schema validator runs. *)
Theorem ten_keys_rejected_for_gcp :
  get_provider_tag_limits (py "gcp")
  = Ok {| max_tags := 64; max_key := 128; max_value := 1024 |}
  /\ validate_tagging_config ascii_runtime
       {| llm_model := py "gpt-4.1"; storage_uri := py "gs://bucket";
          tags := ten_keys; max_bytes := 5000 |} (py "gcp")
     = Ok tt
  /\ TaggingConfig_new (py "gpt-4.1") (py "gs://bucket") ten_keys 5000
     = Error (Raise ValueError (py "Tags must be < 10."))
  /\ SmartCloudTagger_config ascii_runtime (py "gpt-4.1") (py "gs://bucket")
       ten_keys 5000 (py "gcp")
     = Error (Raise ValueError (py "Tags must be < 10."))
  /\ SmartCloudTagger_config ascii_runtime (py "gpt-4.1") (py "s3://bucket")
       ten_keys 5000 (py "aws")
     = Error (Raise ValueError (py "Tags must be < 10.")).
Proof. repeat split; vm_compute; reflexivity. Qed.

(** ** The run *)

Lemma In_dict_set {V : Type} (d : dict V) (k k' : str) (v v' : V) :
  In (k, v) (dict_set d k' v') -> In (k, v) d \/ v = v'.
Proof.
  induction d as [|[k0 v0] d IH]; simpl.
  - intros [E|[]]. inversion E. auto.
  - destruct (str_eqb k0 k'); simpl.
    + intros [E|H]; [inversion E; auto|auto].
    + intros [E|H]; [auto|]. destruct (IH H); auto.
Qed.

Lemma dict_get_set {V : Type} (d : dict V) (k k' : str) (v : V) :
  dict_get (dict_set d k v) k'
  = if str_eqb k k' then Some v else dict_get d k'.
Proof.
  induction d as [|[k0 v0] d IH]; simpl.
  - reflexivity.
  - destruct (str_eqb k0 k) eqn:E0; simpl.
    + apply str_eqb_eq in E0. subst k0.
      destruct (str_eqb k k'); reflexivity.
    + rewrite IH. destruct (str_eqb k0 k') eqn:E1; [|reflexivity].
      destruct (str_eqb k k') eqn:E2; [|reflexivity].
      apply str_eqb_eq in E1, E2. subst.
      rewrite (proj2 (str_eqb_eq k' k') eq_refl) in E0. discriminate.
Qed.

Lemma results_add_all (recs : list (str * ObjectTags)) (r : TaggingResult) :
  results (add_all recs r)
  = fold_left (fun d kt => dict_set d (fst kt) (snd kt)) recs (results r)
  /\ mode (add_all recs r) = mode r
  /\ config (add_all recs r) = config r
  /\ summary (add_all recs r) = summary r.
Proof.
  revert r. induction recs as [|[k t] recs IH]; intros r; simpl; [auto|].
  destruct (IH (add_result r k t)) as (H1 & H2 & H3 & H4).
  unfold add_all in *. simpl. rewrite H1, H2, H3, H4. auto.
Qed.

Lemma In_fold_dict_set {V : Type} (recs : list (str * V)) (d : dict V)
  (k : str) (v : V) :
  In (k, v) (fold_left (fun d kt => dict_set d (fst kt) (snd kt)) recs d) ->
  In (k, v) d \/ In v (map snd recs).
Proof.
  revert d. induction recs as [|[k' v'] recs IH]; intros d; simpl; [auto|].
  intros H. destruct (IH _ H) as [H'|H']; [|auto].
  destruct (In_dict_set _ _ _ _ _ H'); auto.
Qed.

Lemma fold_dict_set_keeps {V : Type} (recs : list (str * V)) (d : dict V)
  (k : str) :
  dict_get d k <> None ->
  dict_get (fold_left (fun d kt => dict_set d (fst kt) (snd kt)) recs d) k
  <> None.
Proof.
  revert d. induction recs as [|[k' v'] recs IH]; intros d H; simpl; [exact H|].
  apply IH. rewrite dict_get_set. destruct (str_eqb k' k); [discriminate|exact H].
Qed.

Lemma fold_dict_set_has {V : Type} (recs : list (str * V)) (d : dict V)
  (k : str) :
  In k (map fst recs) ->
  dict_get (fold_left (fun d kt => dict_set d (fst kt) (snd kt)) recs d) k
  <> None.
Proof.
  revert d. induction recs as [|[k' v'] recs IH]; intros d; simpl; [tauto|].
  intros [E|H].
  - subst k'. apply fold_dict_set_keeps. rewrite dict_get_set.
    rewrite (proj2 (str_eqb_eq k k) eq_refl). discriminate.
  - apply IH, H.
Qed.

Lemma count_if_filter {A : Type} (cond : A -> bool) (xs : list A) :
  count_if cond xs = Z.of_nat (length (filter cond xs)).
Proof.
  unfold count_if.
  assert (H : forall acc,
             fold_left (fun acc x => if cond x then acc + 1 else acc) xs acc
             = acc + Z.of_nat (length (filter cond xs))).
  { induction xs as [|x xs IH]; intros acc; simpl; [lia|].
    rewrite IH. destruct (cond x); simpl length; lia. }
  rewrite H. lia.
Qed.

Section RunFacts.
Variable World : Type.
Variable rt : Runtime.
Variable self : SmartCloudTagger World.

Lemma call_frame {A : Type} (ev : event) (op : Call World A)
  (st : RunState World) :
  frame st (snd (call ev op st)) [ev].
Proof.
  unfold call, frame. destruct (op (world st)). simpl. auto.
Qed.

Ltac step_call :=
  match goal with
  | |- context [call ?ev ?op ?st] =>
      let H := fresh "Hc" in
      pose proof (call_frame ev op st) as H;
      destruct (call ev op st) as [[?|?] [? ? ?]];
      unfold frame in H; simpl in H; destruct H; subst
  end.

Ltac step_lift :=
  match goal with
  | |- context [match ?r with Ok _ => _ | Error _ => _ end] =>
      destruct r
  end.

Lemma propose_frame (obj_key : str) (process_max_bytes : Z)
  (st : RunState World) :
  exists evs,
    frame st (snd (propose rt self obj_key process_max_bytes st)) evs
    /\ quiet evs = true.
Proof.
  unfold propose, mbind, lift, ret, frame.
  step_call; simpl; [|eexists; repeat split; reflexivity].
  step_call; simpl; [|eexists; repeat split;
                       [rewrite <- app_assoc; reflexivity|reflexivity]].
  destruct (parse_file_content rt _ _); simpl;
    [|eexists; repeat split; [rewrite <- app_assoc; reflexivity|reflexivity]].
  destruct (truncate_content _ _); simpl;
    [|eexists; repeat split; [rewrite <- app_assoc; reflexivity|reflexivity]].
  step_call; simpl;
    [|eexists; repeat split; [rewrite <- !app_assoc; reflexivity|reflexivity]].
  destruct (create_tag_mapping _ _ _); simpl;
    eexists; repeat split; try (rewrite <- !app_assoc; reflexivity);
    reflexivity.
Qed.

Lemma record_or_apply_step (mode : ProcessingMode) (obj_key : str)
  (existing_tags proposed_tags : dict str) (st : RunState World) :
  exists t evs st',
    record_or_apply self mode obj_key existing_tags proposed_tags st
    = (Ok tt, st')
    /\ result st' = add_result (result st) obj_key t
    /\ trace st' = trace st ++ evs
    /\ record_ok t = true
    /\ existing t = existing_tags
    /\ proposed t = Some proposed_tags
    /\ (mode = PREVIEW ->
        evs = [] /\ applied t = None /\ skipped_reason t = None).
Proof.
  destruct mode; simpl.
  - eexists _, [], _. unfold add_result_m, put_result. simpl.
    rewrite app_nil_r. repeat split; reflexivity.
  - unfold try_except, mbind, lift, add_result_m, put_result.
    destruct (merge_and_validate_tags _ _ _ _) as [final_tags|e]; simpl.
    + step_call; simpl.
      * eexists _, _, _. repeat split; try reflexivity; discriminate.
      * eexists _, _, _. repeat split; try reflexivity; discriminate.
    + eexists _, [], _. simpl. rewrite app_nil_r.
      repeat split; try reflexivity; discriminate.
Qed.

Lemma process_object_step (mode : ProcessingMode) (process_max_bytes : Z)
  (obj_key : str) (st : RunState World) :
  exists t evs st',
    process_object rt self mode process_max_bytes obj_key st = (Ok tt, st')
    /\ result st' = add_result (result st) obj_key t
    /\ trace st' = trace st ++ evs
    /\ record_ok t = true
    /\ (mode = PREVIEW -> quiet evs = true /\ preview_record t = true).
Proof.
  unfold process_object, try_except, mbind, add_result_m, put_result.
  step_call; simpl.
  - destruct a; simpl.
    + match goal with
      | |- context [propose rt self obj_key process_max_bytes ?s] =>
          destruct (propose_frame obj_key process_max_bytes s)
            as (evs & [Hr Ht] & Hq);
          destruct (propose rt self obj_key process_max_bytes s)
            as [[[ex pr]|e] st2]; simpl in Hr, Ht
      end.
      * destruct (record_or_apply_step mode obj_key ex pr st2)
          as (t & evs2 & st3 & E & Hr3 & Ht3 & Hok & _ & Hp & Hprev).
        simpl. rewrite E. exists t, ([EIsSupported obj_key] ++ evs ++ evs2), st3.
        split; [reflexivity|]. split; [congruence|].
        split; [rewrite Ht3, Ht, <- !app_assoc; reflexivity|].
        split; [exact Hok|]. intros Hm.
        destruct (Hprev Hm) as (-> & Ha & Hs). rewrite app_nil_r.
        split; [exact Hq|]. unfold preview_record. rewrite Ha, Hp, Hs.
        reflexivity.
      * eexists _, ([EIsSupported obj_key] ++ evs), _. simpl.
        split; [reflexivity|]. split; [rewrite Hr; reflexivity|].
        split; [rewrite Ht, <- app_assoc; reflexivity|].
        split; [reflexivity|]. intros _. split; [exact Hq|reflexivity].
    + eexists _, _, _. repeat split; reflexivity.
  - eexists _, _, _. repeat split; reflexivity.
Qed.

Lemma for_each_run (mode : ProcessingMode) (process_max_bytes : Z)
  (objects : list str) :
  forall st : RunState World,
  exists recs evs st',
    for_each objects (process_object rt self mode process_max_bytes) st
    = (Ok tt, st')
    /\ map fst recs = objects
    /\ result st' = add_all recs (result st)
    /\ trace st' = trace st ++ evs
    /\ forallb (fun kt => record_ok (snd kt)) recs = true
    /\ (mode = PREVIEW ->
        quiet evs = true
        /\ forallb (fun kt => preview_record (snd kt)) recs = true).
Proof.
  induction objects as [|o objects IH]; intros st; simpl.
  - exists [], [], st. rewrite app_nil_r. repeat split; reflexivity.
  - destruct (process_object_step mode process_max_bytes o st)
      as (t & evs & st1 & E & Hr & Ht & Hok & Hprev).
    destruct (IH st1) as (recs & evs' & st2 & E' & Hk & Hr' & Ht' & Hoks & Hprevs).
    exists ((o, t) :: recs), (evs ++ evs'), st2.
    unfold mbind. rewrite E, E'. simpl.
    split; [reflexivity|]. split; [rewrite Hk; reflexivity|].
    split; [rewrite Hr', Hr; reflexivity|].
    split; [rewrite Ht', Ht, app_assoc; reflexivity|].
    split; [rewrite Hok, Hoks; reflexivity|].
    intros Hm. destruct (Hprev Hm) as [Hq Hp].
    destruct (Hprevs Hm) as [Hq' Hp'].
    unfold quiet in *. rewrite forallb_app, Hq, Hq', Hp, Hp'. auto.
Qed.

Lemma process_objects_cases (mode : ProcessingMode) (max_bytes' : option Z)
  (st : RunState World) :
  match list_objects (storage_provider self) (world st) with
  | (Error e, _) =>
    fst (_process_objects rt self mode max_bytes' st)
    = Error (Raise SmartCloudTagError
               (py "Failed to process objects: " ++ exn_str e))
    /\ trace (snd (_process_objects rt self mode max_bytes' st))
       = trace st ++ [EListObjects]
  | (Ok [], _) =>
    fst (_process_objects rt self mode max_bytes' st)
    = Ok (set_summary (fresh_result self mode) no_objects_summary)
    /\ trace (snd (_process_objects rt self mode max_bytes' st))
       = trace st ++ [EListObjects]
  | (Ok (o :: objects), _) =>
    exists recs evs,
      fst (_process_objects rt self mode max_bytes' st)
      = Ok (set_summary (add_all recs (fresh_result self mode))
              (get_summary_stats (add_all recs (fresh_result self mode))))
      /\ map fst recs = o :: objects
      /\ trace (snd (_process_objects rt self mode max_bytes' st))
         = trace st ++ EListObjects :: evs
      /\ forallb (fun kt => record_ok (snd kt)) recs = true
      /\ (mode = PREVIEW ->
          quiet evs = true
          /\ forallb (fun kt => preview_record (snd kt)) recs = true)
  end.
Proof.
  unfold _process_objects, try_except, mbind, put_result, call, raise,
    set_summary_m, get_result. simpl.
  destruct (list_objects (storage_provider self) (world st))
    as [[[|o objects]|e] w1]; simpl.
  - split; reflexivity.
  - match goal with
    | |- context [mbind (process_object rt self mode ?p o) _ ?s] =>
        destruct (for_each_run mode p (o :: objects) s)
          as (recs & evs & st2 & E & Hk & Hr & Ht & Hoks & Hprevs)
    end.
    cbn [for_each] in E. rewrite E. simpl. simpl in Hr, Ht.
    exists recs, evs. rewrite Hr, Ht, <- app_assoc.
    repeat split; try assumption; apply Hprevs; assumption.
  - split; reflexivity.
Qed.

Lemma results_of_records (mode : ProcessingMode)
  (recs : list (str * ObjectTags)) (p : ObjectTags -> bool) :
  forallb (fun kt => p (snd kt)) recs = true ->
  forallb (fun kt => p (snd kt)) (results (add_all recs (fresh_result self mode)))
  = true.
Proof.
  intros H. apply forallb_forall. intros [k t] Hin.
  destruct (results_add_all recs (fresh_result self mode)) as [E _].
  rewrite E in Hin. apply In_fold_dict_set in Hin. simpl in Hin.
  destruct Hin as [[]|Hin]. apply in_map_iff in Hin.
  destruct Hin as ([k' t'] & Et & Hin). simpl in Et. subst t'.
  rewrite forallb_forall in H. exact (H _ Hin).
Qed.


(** C6. A preview makes no call of the provider's set-tags operation; the
    result it returns has mode Preview, and each of its records has no
    applied tags and, unless it is a skip, has proposed tags. *)
Theorem preview_tags_writes_nothing (max_bytes' : option Z)
  (st : RunState World) :
  exists evs,
    trace (snd (preview_tags rt self max_bytes' st)) = trace st ++ evs
    /\ quiet evs = true
    /\ match fst (preview_tags rt self max_bytes' st) with
       | Ok r =>
         mode r = PREVIEW
         /\ forallb (fun kt => preview_record (snd kt)) (results r) = true
       | Error _ => True
       end.
Proof.
  unfold preview_tags.
  pose proof (process_objects_cases PREVIEW max_bytes' st) as H.
  destruct (list_objects (storage_provider self) (world st))
    as [[[|o objects]|e] w1].
  - destruct H as [E Ht]. rewrite E, Ht. exists [EListObjects].
    repeat split; reflexivity.
  - destruct H as (recs & evs & E & Hk & Ht & Hoks & Hprev).
    destruct (Hprev eq_refl) as [Hq Hp].
    rewrite E, Ht. exists (EListObjects :: evs).
    split; [reflexivity|]. split; [exact Hq|]. split.
    + simpl. apply (results_add_all recs (fresh_result self PREVIEW)).
    + simpl. apply results_of_records with (p := preview_record). exact Hp.
  - destruct H as [E Ht]. rewrite E, Ht. exists [EListObjects].
    repeat split; reflexivity.
Qed.

(** C7. In the result of a preview or an apply, a record with applied
    tags has no skip reason and has proposed tags, and a record with a
    skip reason has no applied tags.  In Apply mode, when the merge or the
    write fails for an object with proposed tags, its record keeps the
    existing and the proposed tags, has no applied tags and carries the
    failure as skip reason. *)
Theorem run_records_invariant (mode : ProcessingMode)
  (max_bytes' : option Z) (st : RunState World) :
  match fst (_process_objects rt self mode max_bytes' st) with
  | Ok r => forallb (fun kt => record_ok (snd kt)) (results r) = true
  | Error _ => True
  end
  /\ (forall obj_key existing_tags proposed_tags e,
        merge_and_validate_tags existing_tags proposed_tags
          (dict_keys (tags (tagger_config self))) (storage_provider_type self)
        = Error e ->
        record_or_apply self APPLY obj_key existing_tags proposed_tags st
        = (Ok tt,
           {| world := world st; trace := trace st;
              result := add_result (result st) obj_key
                          (apply_failed_record existing_tags proposed_tags e)
           |}))
  /\ (forall obj_key existing_tags proposed_tags final_tags e w,
        merge_and_validate_tags existing_tags proposed_tags
          (dict_keys (tags (tagger_config self))) (storage_provider_type self)
        = Ok final_tags ->
        set_object_tags (storage_provider self) obj_key final_tags (world st)
        = (Error e, w) ->
        record_or_apply self APPLY obj_key existing_tags proposed_tags st
        = (Ok tt,
           {| world := w; trace := trace st ++ [ESetTags obj_key final_tags];
              result := add_result (result st) obj_key
                          (apply_failed_record existing_tags proposed_tags e)
           |})).
Proof.
  split; [|split].
  - pose proof (process_objects_cases mode max_bytes' st) as H.
    destruct (list_objects (storage_provider self) (world st))
      as [[[|o objects]|e] w1].
    + destruct H as [E _]. rewrite E. reflexivity.
    + destruct H as (recs & evs & E & _ & _ & Hoks & _). rewrite E. simpl.
      apply results_of_records with (p := record_ok). exact Hoks.
    + destruct H as [E _]. rewrite E. exact I.
  - intros obj_key ex pr e Hm. simpl.
    unfold try_except, mbind, lift. rewrite Hm. reflexivity.
  - intros obj_key ex pr final e w Hm Hset. simpl.
    unfold try_except, mbind, lift, call. rewrite Hm, Hset. reflexivity.
Qed.

(** C8 (as amended). A run whose listing yields at least one object
    returns a result whose summary holds the number of records, the
    numbers of records with proposed tags, with a skip reason and with
    applied tags, and the success rate processed / total, the total being
    positive; on a result without records the summary statistics give the
    success rate 0. *)
Theorem run_summary (mode : ProcessingMode) (max_bytes' : option Z)
  (st : RunState World) (o : str) (objects : list str) (w : World) :
  list_objects (storage_provider self) (world st) = (Ok (o :: objects), w) ->
  (exists r,
      fst (_process_objects rt self mode max_bytes' st) = Ok r
      /\ let records := dict_values (results r) in
         let total := Z.of_nat (length records) in
         let processed :=
           Z.of_nat (length (filter (fun t => is_some (proposed t)) records)) in
         let skipped :=
           Z.of_nat
             (length (filter (fun t => is_some (skipped_reason t)) records)) in
         let applied_count :=
           Z.of_nat (length (filter (fun t => is_some (applied t)) records)) in
         0 < total
         /\ summary r
            = [ (py "total_objects", PyInt total);
                (py "processed", PyInt processed);
                (py "skipped", PyInt skipped);
                (py "applied", PyInt applied_count);
                (py "success_rate",
                  PyFloat (Qmake processed (Z.to_pos total))) ])
  /\ (forall r : TaggingResult,
        results r = [] ->
        dict_get (get_summary_stats r) (py "success_rate") = Some (PyInt 0)).
Proof.
  intros Hlist. split.
  - pose proof (process_objects_cases mode max_bytes' st) as H.
    rewrite Hlist in H. destruct H as (recs & evs & E & Hk & _).
    eexists. split; [exact E|]. simpl.
    set (R := add_all recs (fresh_result self mode)).
    assert (Hpos : 0 < Z.of_nat (length (results R))).
    { destruct (results R) eqn:ER; [|simpl; lia]. exfalso.
      destruct (results_add_all recs (fresh_result self mode)) as [Eres _].
      fold R in Eres. rewrite ER in Eres.
      apply (@fold_dict_set_has _ recs [] o); [rewrite Hk; simpl; auto|].
      simpl in Eres. rewrite <- Eres. reflexivity. }
    unfold dict_values. rewrite length_map. split; [exact Hpos|].
    unfold get_summary_stats. rewrite !count_if_filter.
    destruct (Z.ltb_spec 0 (Z.of_nat (length (results R)))); [|lia].
    reflexivity.
  - intros r Hr. unfold get_summary_stats. rewrite Hr. reflexivity.
Qed.

End RunFacts.


Lemma run_records_invariant_witness :
  record_or_apply demo_tagger APPLY (py "d.txt") ten_tags
    [(py "department", py "billing")] (start demo_bucket demo_tagger)
  = (Ok tt,
     {| world := world (start demo_bucket demo_tagger);
        trace := trace (start demo_bucket demo_tagger);
        result :=
          add_result (result (start demo_bucket demo_tagger)) (py "d.txt")
            (apply_failed_record ten_tags [(py "department", py "billing")]
               (schema_error
                  (py "Total tags (11) would exceed the limit of 10"))) |})
  /\ record_or_apply read_only_tagger APPLY (py "a.txt")
       [(py "owner", py "ann")] [(py "department", py "billing")]
       (start demo_bucket read_only_tagger)
     = (Ok tt,
        {| world := demo_bucket;
           trace := trace (start demo_bucket read_only_tagger)
                    ++ [ ESetTags (py "a.txt")
                           [(py "owner", py "ann");
                            (py "department", py "billing")] ];
           result :=
             add_result (result (start demo_bucket read_only_tagger))
               (py "a.txt")
               (apply_failed_record [(py "owner", py "ann")]
                  [(py "department", py "billing")]
                  (Raise StorageError (py "access denied"))) |}).
Proof.
  assert (H1 : merge_and_validate_tags ten_tags
                 [(py "department", py "billing")]
                 (dict_keys (tags (tagger_config demo_tagger)))
                 (storage_provider_type demo_tagger)
               = Error (schema_error
                          (py "Total tags (11) would exceed the limit of 10")))
    by (vm_compute; reflexivity).
  assert (H2 : merge_and_validate_tags [(py "owner", py "ann")]
                 [(py "department", py "billing")]
                 (dict_keys (tags (tagger_config read_only_tagger)))
                 (storage_provider_type read_only_tagger)
               = Ok [(py "owner", py "ann"); (py "department", py "billing")])
    by (vm_compute; reflexivity).
  assert (H3 : set_object_tags (storage_provider read_only_tagger)
                 (py "a.txt")
                 [(py "owner", py "ann"); (py "department", py "billing")]
                 (world (start demo_bucket read_only_tagger))
               = (Error (Raise StorageError (py "access denied")),
                  demo_bucket))
    by reflexivity.
  split.
  - pose proof (@run_records_invariant Bucket ascii_runtime demo_tagger APPLY
                  None (start demo_bucket demo_tagger)) as X.
    destruct X as (_ & X & _).
    exact (X (py "d.txt") ten_tags [(py "department", py "billing")] _ H1).
  - pose proof (@run_records_invariant Bucket ascii_runtime read_only_tagger
                  APPLY None (start demo_bucket read_only_tagger)) as X.
    destruct X as (_ & _ & X).
    exact (X (py "a.txt") [(py "owner", py "ann")]
             [(py "department", py "billing")] _ _ _ H2 H3).
Defined.

Lemma run_summary_witness :
  exists r,
    fst (_process_objects ascii_runtime demo_tagger APPLY None
           (start demo_bucket demo_tagger)) = Ok r
    /\ 0 < Z.of_nat (length (dict_values (results r)))
    /\ summary r
       = [ (py "total_objects",
             PyInt (Z.of_nat (length (dict_values (results r)))));
           (py "processed",
             PyInt (Z.of_nat (length (filter (fun t => is_some (proposed t))
                                        (dict_values (results r))))));
           (py "skipped",
             PyInt (Z.of_nat (length (filter
                                        (fun t => is_some (skipped_reason t))
                                        (dict_values (results r))))));
           (py "applied",
             PyInt (Z.of_nat (length (filter (fun t => is_some (applied t))
                                        (dict_values (results r))))));
           (py "success_rate",
             PyFloat
               (Qmake
                  (Z.of_nat (length (filter (fun t => is_some (proposed t))
                                       (dict_values (results r)))))
                  (Z.to_pos
                     (Z.of_nat (length (dict_values (results r))))))) ].
Proof.
  pose proof (@run_summary Bucket ascii_runtime demo_tagger APPLY None
                (start demo_bucket demo_tagger) (py "a.txt")
                [py "b.txt"; py "c.bin"; py "d.txt"] demo_bucket) as X.
  assert (H : list_objects (storage_provider demo_tagger)
                (world (start demo_bucket demo_tagger))
              = (Ok [py "a.txt"; py "b.txt"; py "c.bin"; py "d.txt"],
                 demo_bucket))
    by (vm_compute; reflexivity).
  exact (proj1 (X H)).
Defined.

(** C8, the claim as stated, fails on a bucket without objects: the run
    returns a summary that holds a message and none of the counts. *)
Lemma empty_bucket_summary :
  fst (preview_tags ascii_runtime demo_tagger None (start [] demo_tagger))
  = Ok {| mode := PREVIEW; config := tagger_config demo_tagger;
          results := [];
          summary := [(py "message", PyStr (py "No objects found in bucket"))]
       |}
  /\ dict_get [(py "message", PyStr (py "No objects found in bucket"))]
       (py "total_objects") = None
  /\ dict_get [(py "message", PyStr (py "No objects found in bucket"))]
       (py "success_rate") = None.
Proof. repeat split; vm_compute; reflexivity. Qed.

Example demo_summary :
  match fst (apply_tags ascii_runtime demo_tagger None
               (start demo_bucket demo_tagger)) with
  | Ok r =>
    summary r
    = [ (py "total_objects", PyInt 4); (py "processed", PyInt 2);
        (py "skipped", PyInt 3); (py "applied", PyInt 1);
        (py "success_rate", PyFloat (Qmake 2 4)) ]
  | Error _ => False
  end.
Proof. vm_compute. reflexivity. Qed.

Example demo_preview :
  match fst (preview_tags ascii_runtime demo_tagger None
               (start demo_bucket demo_tagger)) with
  | Ok r =>
    map (fun kt => (fst kt, proposed (snd kt), skipped_reason (snd kt)))
      (results r)
    = [ (py "a.txt", Some [(py "department", py "billing")], None);
        (py "b.txt", None, Some (py "Processing error: boom"));
        (py "c.bin", None, Some (py "Unsupported file type"));
        (py "d.txt", Some [(py "department", py "billing")], None) ]
  | Error _ => False
  end.
Proof. vm_compute. reflexivity. Qed.

Example demo_apply :
  match fst (apply_tags ascii_runtime demo_tagger None
               (start demo_bucket demo_tagger)) with
  | Ok r =>
    map (fun kt => (fst kt, applied (snd kt), skipped_reason (snd kt)))
      (results r)
    = [ (py "a.txt",
         Some [(py "owner", py "ann"); (py "department", py "billing")], None);
        (py "b.txt", None, Some (py "Processing error: boom"));
        (py "c.bin", None, Some (py "Unsupported file type"));
        (py "d.txt", None,
         Some (py "Failed to apply tags: Total tags (11) would exceed the limit of 10")) ]
  | Error _ => False
  end.
Proof. vm_compute. reflexivity. Qed.

(* ================================================================== *)
(** * Further properties *)

(** ** File types *)

Lemma FileType_of_value_supported (v : str) :
  is_some (FileType_of_value v) = in_list (py "." ++ v) supported_extensions.
Proof.
  apply Bool.eq_iff_eq_true. rewrite in_list_In. split.
  - intros H. unfold FileType_of_value in H.
    destruct (str_eqb v (py "txt")) eqn:E1;
      [apply str_eqb_eq in E1; subst v; simpl; auto|].
    destruct (str_eqb v (py "md")) eqn:E2;
      [apply str_eqb_eq in E2; subst v; simpl; auto|].
    destruct (str_eqb v (py "json")) eqn:E3;
      [apply str_eqb_eq in E3; subst v; simpl; auto|].
    destruct (str_eqb v (py "csv")) eqn:E4;
      [apply str_eqb_eq in E4; subst v; simpl; auto 6|].
    discriminate H.
  - intros H. simpl in H.
    destruct H as [H|[H|[H|[H|[]]]]]; inversion H; reflexivity.
Qed.

(** X1. The file type lookup and the support test agree: [get_file_type]
    gives a file type exactly for the names [is_supported_file_type]
    accepts, so the fallback for a value without enum member is never
    taken and the providers' test is the test of utils. *)
Theorem provider_support_is_utils_support (lower_beyond_ascii : str -> str)
  (filename : str) :
  provider_is_supported_file_type lower_beyond_ascii filename
  = utils_is_supported_file_type lower_beyond_ascii filename.
Proof.
  unfold provider_is_supported_file_type, get_file_type.
  destruct (utils_is_supported_file_type lower_beyond_ascii filename) eqn:E;
    [|reflexivity].
  simpl. unfold utils_is_supported_file_type in E.
  destruct (contains filename (py ".")).
  - rewrite FileType_of_value_supported. exact E.
  - discriminate E.
Qed.

Lemma contains_char (s : str) (c : Z) :
  contains s [c] = existsb (fun x => x =? c) s.
Proof.
  induction s as [|x s IH]; [reflexivity|].
  cbn [contains startswith existsb]. rewrite IH, andb_true_r. reflexivity.
Qed.

Lemma split_no_sep (sep : Z) (s : str) :
  existsb (fun x => x =? sep) s = false -> split sep s = [s].
Proof.
  induction s as [|c s IH]; simpl; [reflexivity|].
  intros H. apply orb_false_elim in H. destruct H as [Hc Hs].
  rewrite Hc, (IH Hs). reflexivity.
Qed.

Lemma last_split (sep : Z) (a ext : str) :
  existsb (fun x => x =? sep) ext = false ->
  last (split sep (a ++ sep :: ext)) [] = ext.
Proof.
  intros Hext.
  assert (H : exists w ws,
             split sep (a ++ sep :: ext) = w :: ws
             /\ ws <> [] /\ last ws [] = ext).
  { induction a as [|c a IH]; simpl.
    - rewrite Z.eqb_refl, (split_no_sep _ _ Hext).
      exists [], [ext]. repeat split. discriminate.
    - destruct IH as (w & ws & E & Hne & Hl). rewrite E.
      destruct (c =? sep).
      + exists [], (w :: ws). repeat split; [discriminate|].
        destruct ws; [contradiction|exact Hl].
      + exists (c :: w), ws. auto. }
  destruct H as (w & ws & E & Hne & Hl). rewrite E.
  destruct ws; [contradiction|exact Hl].
Qed.

Lemma ascii_lower_dot (s : str) :
  existsb (fun x => x =? 46) (map ascii_lower s)
  = existsb (fun x => x =? 46) s.
Proof.
  induction s as [|c s IH]; simpl; [reflexivity|]. rewrite IH. f_equal.
  unfold ascii_lower.
  destruct (Z.leb_spec 65 c), (Z.leb_spec c 90); simpl; try reflexivity.
  destruct (Z.eqb_spec (c + 32) 46), (Z.eqb_spec c 46); try reflexivity; lia.
Qed.

(** X2. For a file name in ASCII the file type is decided by the text
    behind the last dot, whatever its case: the type of the lower-cased
    extension, and none for an extension outside txt, md, json and csv. *)
Theorem get_file_type_by_extension (lower_beyond_ascii : str -> str)
  (stem ext : str) :
  is_ascii stem = true ->
  is_ascii ext = true ->
  contains ext (py ".") = false ->
  get_file_type lower_beyond_ascii (stem ++ py "." ++ ext)
  = FileType_of_value (map ascii_lower ext).
Proof.
  intros Hs He Hdot. change (py ".") with [46] in *.
  rewrite contains_char in Hdot.
  assert (Ha : is_ascii (stem ++ [46] ++ ext) = true).
  { unfold is_ascii in *. rewrite forallb_app, Hs. simpl. exact He. }
  assert (Hl : last (split 46 (lower lower_beyond_ascii (stem ++ [46] ++ ext)))
                 [] = map ascii_lower ext).
  { unfold lower. rewrite Ha, map_app. simpl map.
    change (ascii_lower 46) with 46. apply last_split.
    rewrite ascii_lower_dot. exact Hdot. }
  unfold get_file_type, utils_is_supported_file_type.
  assert (Hc : contains (stem ++ [46] ++ ext) [46] = true).
  { rewrite contains_char, existsb_app. simpl. apply orb_true_r. }
  change (py ".") with [46]. rewrite Hc, Hl.
  change [46] with (py ".") at 1.
  rewrite <- FileType_of_value_supported.
  destruct (FileType_of_value (map ascii_lower ext)); reflexivity.
Qed.

Lemma get_file_type_by_extension_witness :
  get_file_type (fun s => s) (py "Report" ++ py "." ++ py "TXT")
  = FileType_of_value (map ascii_lower (py "TXT")).
Proof.
  apply (@get_file_type_by_extension (fun s => s) (py "Report") (py "TXT"));
    vm_compute; reflexivity.
Defined.

(** ** Truncation, further *)

Lemma utf8_encode_char_nonempty (c : Z) : utf8_encode_char c <> [].
Proof.
  unfold utf8_encode_char.
  destruct (c <? 0x80); [discriminate|].
  destruct (c <? 0x800); [discriminate|].
  destruct (c <? 0x10000); discriminate.
Qed.

Lemma utf8_encode_from_nonempty (s : str) (pos : nat) (bs : bytes) :
  utf8_encode_from pos s = Ok bs -> bs = [] -> s = [].
Proof.
  destruct s as [|c s]; [reflexivity|]. simpl.
  destruct (is_surrogate c); [discriminate|].
  destruct (utf8_encode_from (S pos) s); [|discriminate].
  intros E Hbs. inversion E as [E']. rewrite Hbs in E'.
  apply app_eq_nil in E'. destruct E' as [E' _].
  destruct (@utf8_encode_char_nonempty c E').
Qed.

(** X3. A negative budget is not refused: the slice then counts from the
    end, and the outcome is that of the budget which leaves out that many
    bytes of the encoding (zero when the encoding is shorter). *)
Theorem truncate_content_negative_budget (s : str) (b : Z) :
  b < 0 ->
  truncate_content s b
  = match utf8_encode s with
    | Ok content_bytes =>
      truncate_content s (Z.max 0 (Z.of_nat (length content_bytes) + b))
    | Error e => Error e
    end.
Proof.
  intros Hb. unfold truncate_content.
  destruct (utf8_encode s) as [bs|e] eqn:E; [|reflexivity].
  destruct (Z.leb_spec (Z.of_nat (length bs)) b) as [H|_]; [lia|].
  set (m := Z.max 0 (Z.of_nat (length bs) + b)).
  assert (Hslice : slice_to b bs = slice_to m bs).
  { unfold slice_to. destruct (Z.leb_spec 0 b); [lia|].
    destruct (Z.leb_spec 0 m); [|unfold m in *; lia]. f_equal.
    unfold m. lia. }
  destruct (Z.leb_spec (Z.of_nat (length bs)) m) as [Hle|Hgt].
  - assert (Hnil : bs = [])
      by (destruct bs; [reflexivity|unfold m in *; cbn [length] in *; lia]).
    rewrite (utf8_encode_from_nonempty _ _ E Hnil), Hnil.
    unfold slice_to. destruct (0 <=? b); rewrite firstn_nil; reflexivity.
  - rewrite Hslice. reflexivity.
Qed.

Lemma truncate_content_negative_budget_witness :
  truncate_content (py "abcdef") (-2)
  = match utf8_encode (py "abcdef") with
    | Ok content_bytes =>
      truncate_content (py "abcdef")
        (Z.max 0 (Z.of_nat (length content_bytes) + -2))
    | Error e => Error e
    end.
Proof.
  apply (@truncate_content_negative_budget (py "abcdef") (-2)).
  reflexivity.
Defined.

(** X4. When the encoding is longer than the budget, truncation stops at
    the last character that fits: the next character of the input would
    pass the budget. *)
Theorem truncate_content_maximal (s : str) (b : Z) :
  wf_str s = true ->
  no_surrogate s = true ->
  0 <= b < Z.of_nat (length (encode_chars s)) ->
  exists t c rest,
    truncate_content s b = Ok t
    /\ s = t ++ c :: rest
    /\ Z.of_nat (length (encode_chars t)) <= b
    /\ b < Z.of_nat (length (encode_chars t))
           + Z.of_nat (length (utf8_encode_char c)).
Proof.
  intros Hw Hn Hb.
  assert (Hs : Forall scalar s) by (apply scalar_of_bools; assumption).
  unfold truncate_content, utf8_encode.
  rewrite utf8_encode_from_ok by exact Hs.
  destruct (Z.leb_spec (Z.of_nat (length (encode_chars s))) b); [lia|].
  unfold slice_to. destruct (Z.leb_spec 0 b); [|lia].
  destruct (firstn_encode_chars s (Z.to_nat b)) as (s1 & s2 & p & Es & Ef & Hp).
  assert (Hs1 : Forall scalar s1).
  { subst s. apply Forall_app in Hs. tauto. }
  assert (Hl : length (firstn (Z.to_nat b) (encode_chars s)) = Z.to_nat b).
  { rewrite length_firstn. lia. }
  rewrite Ef, length_app in Hl. rewrite Ef. unfold utf8_decode.
  destruct Hp as [Hp|(c & s2' & k & Es2 & Hk & Hp)]; subst p.
  - destruct s2 as [|c s2'].
    + exfalso. rewrite app_nil_r in Es. subst s1. simpl in Hl. lia.
    + exists s1, c, s2'.
      rewrite decode_encode_chars by exact Hs1. simpl. rewrite app_nil_r.
      split; [reflexivity|]. split; [exact Es|]. simpl in Hl.
      pose proof (@utf8_encode_char_nonempty c) as Hne.
      destruct (utf8_encode_char c); [contradiction|]. simpl. lia.
  - assert (Hc : scalar c).
    { subst s s2. apply Forall_app in Hs. destruct Hs as [_ Hs].
      inversion Hs. assumption. }
    exists s1, c, s2'.
    rewrite decode_encode_chars by exact Hs1.
    destruct (partial_char (encode_chars s1)
                (0 + length (encode_chars s1)) Hc Hk)
      as [(e & Ee & Ekind) (lead & Ed & Ei)].
    rewrite Ee, Ekind, Ed, decode_encode_chars by exact Hs1.
    rewrite Ei, app_nil_r.
    split; [reflexivity|]. split; [subst s2; exact Es|].
    rewrite length_firstn in Hl. lia.
Qed.

Lemma truncate_content_maximal_witness :
  exists t c rest,
    truncate_content [97; 0x20AC; 98] 3 = Ok t
    /\ [97; 0x20AC; 98] = t ++ c :: rest
    /\ Z.of_nat (length (encode_chars t)) <= 3
    /\ 3 < Z.of_nat (length (encode_chars t))
           + Z.of_nat (length (utf8_encode_char c)).
Proof.
  apply (@truncate_content_maximal [97; 0x20AC; 98] 3);
    [reflexivity|reflexivity|vm_compute; split; [discriminate|reflexivity]].
Defined.

(** ** Content of a file *)

Lemma utf8_encode_from_inv (s : str) :
  forall pos bs,
    utf8_encode_from pos s = Ok bs ->
    no_surrogate s = true /\ bs = encode_chars s.
Proof.
  unfold no_surrogate.
  induction s as [|c s IH]; intros pos bs; simpl.
  - intros E. inversion E. auto.
  - destruct (is_surrogate c); [discriminate|].
    destruct (utf8_encode_from (S pos) s) as [bs'|] eqn:E'; [|discriminate].
    intros E. inversion E. destruct (IH _ _ E') as [Hn ->]. auto.
Qed.

(** X5. Whatever the bytes and the file type, reading the content of a
    file returns or raises a FileProcessingError whose text starts with
    the file type; no other exception leaves the function. *)
Theorem parse_file_content_raises_only (rt : Runtime) (content : bytes)
  (file_type : FileType) :
  raises_only (is_parse_error file_type)
    (parse_file_content rt content file_type) = true.
Proof.
  unfold parse_file_content.
  match goal with
  | |- context [match ?p with Ok _ => _ | Error _ => _ end] => destruct p
  end; [reflexivity|].
  unfold raises_only, is_parse_error. cbn [exn_kind_of exn_str].
  rewrite !app_assoc. apply startswith_app.
Qed.

(** X6. A text file (txt or md) whose bytes are the UTF-8 encoding of a
    string is read back as that string. *)
Theorem parse_file_content_text_roundtrip (rt : Runtime) (s : str)
  (bs : bytes) :
  wf_str s = true ->
  utf8_encode s = Ok bs ->
  parse_file_content rt bs TXT = Ok s
  /\ parse_file_content rt bs MD = Ok s.
Proof.
  intros Hw E. destruct (utf8_encode_from_inv _ _ E) as [Hn ->].
  assert (Hs : Forall scalar s) by (apply scalar_of_bools; assumption).
  unfold parse_file_content. rewrite (decode_encode_roundtrip Hs). auto.
Qed.

Lemma parse_file_content_text_roundtrip_witness :
  parse_file_content ascii_runtime [97; 0xE2; 0x82; 0xAC] TXT
  = Ok [97; 0x20AC]
  /\ parse_file_content ascii_runtime [97; 0xE2; 0x82; 0xAC] MD
     = Ok [97; 0x20AC].
Proof.
  apply (@parse_file_content_text_roundtrip ascii_runtime [97; 0x20AC]
           [97; 0xE2; 0x82; 0xAC]); vm_compute; reflexivity.
Defined.

(** X7. Bytes that are not valid UTF-8 are refused for every file type,
    JSON and CSV included, with the decoder's report in the message. *)
Theorem parse_file_content_undecodable (rt : Runtime) (content : bytes)
  (file_type : FileType) (e : exn) :
  utf8_decode Strict content = Error e ->
  parse_file_content rt content file_type
  = Error (Raise FileProcessingError
             (py "Failed to parse " ++ FileType_value file_type
              ++ py " file: " ++ exn_str e)).
Proof.
  intros E. unfold parse_file_content.
  destruct file_type; simpl; rewrite E; reflexivity.
Qed.

Lemma parse_file_content_undecodable_witness :
  parse_file_content ascii_runtime [0x7B; 0xFF] JSON
  = Error (Raise FileProcessingError
             (py "Failed to parse " ++ FileType_value JSON ++ py " file: "
              ++ py "'utf-8' codec can't decode byte 0xff in position 1: invalid start byte")).
Proof.
  apply (@parse_file_content_undecodable ascii_runtime [0x7B; 0xFF] JSON
           (Raise UnicodeDecodeError
              (py "'utf-8' codec can't decode byte 0xff in position 1: invalid start byte"))).
  vm_compute. reflexivity.
Defined.

(** ** Stripping *)




Lemma lstrip_by_length (p : Z -> bool) (s : str) :
  (length (lstrip_by p s) <= length s)%nat.
Proof.
  destruct (lstrip_by_suffix p s) as (pre & E & _).
  rewrite E at 2. rewrite length_app. lia.
Qed.

Lemma strip_by_length (p : Z -> bool) (s : str) :
  (length (strip_by p s) <= length s)%nat.
Proof.
  unfold strip_by, rstrip_by. rewrite length_rev.
  pose proof (lstrip_by_length p (rev (lstrip_by p s))) as H.
  rewrite length_rev in H. pose proof (lstrip_by_length p s). lia.
Qed.

Lemma strip_by_idempotent (p : Z -> bool) (s : str) :
  strip_by p (strip_by p s) = strip_by p s.
Proof.
  unfold strip_by, rstrip_by.
  set (v := lstrip_by p s).
  set (u := lstrip_by p (rev v)).
  assert (Hu : lstrip_by p u = u).
  { apply lstrip_by_fixed. destruct u as [|c r] eqn:E; [exact I|].
    apply (lstrip_by_head p (rev v) E). }
  assert (Hv : lstrip_by p (rev u) = rev u).
  { apply lstrip_by_fixed. destruct (rev u) as [|c r] eqn:E; [exact I|].
    destruct (lstrip_by_suffix p (rev v)) as (pre & Ev & _). fold u in Ev.
    assert (Ev' : v = rev u ++ rev pre).
    { rewrite <- (rev_involutive v), Ev, rev_app_distr. reflexivity. }
    rewrite E in Ev'. simpl in Ev'.
    apply (lstrip_by_head p s (c := c) (r := r ++ rev pre)).
    fold v. exact Ev'. }
  rewrite Hv, rev_involutive, Hu. reflexivity.
Qed.

Lemma valid_value_strip (limits : Limits) (v : str) :
  valid_value limits v = true -> valid_value limits (strip v) = true.
Proof.
  unfold valid_value, blank. intros H.
  apply andb_prop in H. destruct H as [Hb Hl].
  apply negb_true_iff, orb_false_elim in Hb. destruct Hb as [_ Hb].
  unfold strip in *. rewrite strip_by_idempotent, Hb. simpl.
  apply Nat.leb_le. apply Nat.leb_le in Hl.
  pose proof (strip_by_length isspace v). lia.
Qed.

(** ** Schema validation, further *)

Lemma validate_keys_succeeds (rt : Runtime) (limits : Limits)
  (ks : list str) :
  succeeds (validate_keys rt limits ks) = forallb (valid_key rt limits) ks.
Proof.
  induction ks as [|k ks IH]; simpl; [reflexivity|].
  unfold valid_key. destruct (blank k); simpl; [reflexivity|].
  rewrite Nat.ltb_antisym.
  destruct (length k <=? max_key limits)%nat; simpl; [|reflexivity].
  destruct (isalnum rt _); simpl; [exact IH|reflexivity].
Qed.

Lemma validate_values_succeeds (limits : Limits) (tag_keys vs : list str) :
  forall i,
    succeeds (validate_values limits tag_keys i vs)
    = forallb (valid_value limits) vs.
Proof.
  induction vs as [|v vs IH]; intros i; simpl; [reflexivity|].
  unfold valid_value. destruct (blank v); simpl; [reflexivity|].
  rewrite Nat.ltb_antisym.
  destruct (length v <=? max_value limits)%nat; simpl; [apply IH|reflexivity].
Qed.

Lemma validate_items_succeeds (limits : Limits) (items : dict str) :
  succeeds (validate_items limits items)
  = forallb (valid_entry limits) items.
Proof.
  induction items as [|[k v] items IH]; simpl; [reflexivity|].
  unfold valid_entry, valid_value. simpl.
  destruct (blank k); simpl; [reflexivity|].
  rewrite Nat.ltb_antisym.
  destruct (length k <=? max_key limits)%nat; simpl; [|reflexivity].
  destruct (blank v); simpl; [reflexivity|].
  rewrite Nat.ltb_antisym.
  destruct (length v <=? max_value limits)%nat; simpl; [exact IH|reflexivity].
Qed.

Lemma distinct_length (l : list str) :
  (length (distinct l) <= length l)%nat.
Proof.
  induction l as [|x l IH]; simpl; [lia|].
  destruct (in_list x l); simpl; lia.
Qed.

Lemma distinct_length_no_dup (l : list str) :
  (length l =? length (distinct l))%nat = no_dup l.
Proof.
  induction l as [|x l IH]; cbn [distinct no_dup length]; [reflexivity|].
  destruct (in_list x l); cbn [negb andb length].
  - apply Nat.eqb_neq. pose proof (distinct_length l). lia.
  - exact IH.
Qed.

(** X8. The schema validator accepts a configuration exactly when the
    provider is known, the number of keys is below the provider's maximum,
    no key occurs twice and every key is well formed. *)
Theorem validate_tagging_config_accepts (rt : Runtime)
  (config : TaggingConfig) (provider : str) :
  succeeds (validate_tagging_config rt config provider)
  = match get_provider_tag_limits provider with
    | Ok limits =>
      (length (tags config) <? max_tags limits)%nat
      && no_dup (dict_keys (tags config))
      && forallb (valid_key rt limits) (dict_keys (tags config))
    | Error _ => false
    end.
Proof.
  unfold validate_tagging_config.
  destruct (get_provider_tag_limits provider) as [limits|e]; [|reflexivity].
  rewrite Nat.ltb_antisym.
  destruct (max_tags limits <=? length (tags config))%nat; simpl;
    [reflexivity|].
  rewrite <- distinct_length_no_dup.
  replace (length (dict_keys (tags config))) with (length (tags config))
    by (unfold dict_keys; rewrite length_map; reflexivity).
  destruct (length (tags config)
            =? length (distinct (dict_keys (tags config))))%nat; simpl;
    [apply validate_keys_succeeds|reflexivity].
Qed.

Lemma validate_tag_values_succeeds (provider : str) (vs tag_keys : list str) :
  succeeds (validate_tag_values vs tag_keys provider)
  = match get_provider_tag_limits provider with
    | Ok limits =>
      (length vs =? length tag_keys)%nat
      && forallb (valid_value limits) vs
    | Error _ => false
    end.
Proof.
  unfold validate_tag_values.
  destruct (get_provider_tag_limits provider) as [limits|e]; [|reflexivity].
  destruct (length vs =? length tag_keys)%nat; simpl;
    [apply validate_values_succeeds|reflexivity].
Qed.

(** X9. The validator of the tags an object has accepts them exactly when
    they are no more than the provider's maximum and each entry is valid;
    the validator of the values of the model accepts them exactly when
    there is one value per key and each value is valid. *)
Theorem value_validators_accept (provider : str) (existing_tags : dict str)
  (vs tag_keys : list str) :
  succeeds (validate_existing_tags existing_tags provider)
  = match get_provider_tag_limits provider with
    | Ok limits =>
      (length existing_tags <=? max_tags limits)%nat
      && forallb (valid_entry limits) existing_tags
    | Error _ => false
    end
  /\ succeeds (validate_tag_values vs tag_keys provider)
     = match get_provider_tag_limits provider with
       | Ok limits =>
         (length vs =? length tag_keys)%nat
         && forallb (valid_value limits) vs
       | Error _ => false
       end.
Proof.
  split; [|apply validate_tag_values_succeeds].
  unfold validate_existing_tags.
  destruct (get_provider_tag_limits provider) as [limits|e]; [|reflexivity].
  rewrite Nat.ltb_antisym.
  destruct (length existing_tags <=? max_tags limits)%nat; simpl;
    [apply validate_items_succeeds|reflexivity].
Qed.

Lemma validate_keys_raises (rt : Runtime) (limits : Limits) (ks : list str) :
  raises_only is_schema_error (validate_keys rt limits ks) = true.
Proof.
  induction ks as [|k ks IH]; simpl; [reflexivity|].
  repeat match goal with
         | |- context [if ?b then _ else _] => destruct b; try reflexivity
         end.
  exact IH.
Qed.

Lemma validate_values_raises (limits : Limits) (tag_keys vs : list str) :
  forall i,
    raises_only is_schema_error (validate_values limits tag_keys i vs) = true.
Proof.
  induction vs as [|v vs IH]; intros i; simpl; [reflexivity|].
  repeat match goal with
         | |- context [if ?b then _ else _] => destruct b; try reflexivity
         end.
  apply IH.
Qed.

Lemma validate_items_raises (limits : Limits) (items : dict str) :
  raises_only is_schema_error (validate_items limits items) = true.
Proof.
  induction items as [|[k v] items IH]; simpl; [reflexivity|].
  repeat match goal with
         | |- context [if ?b then _ else _] => destruct b; try reflexivity
         end.
  exact IH.
Qed.

Lemma get_provider_tag_limits_raises (provider : str) :
  raises_only is_schema_error (get_provider_tag_limits provider) = true.
Proof.
  unfold get_provider_tag_limits.
  repeat match goal with
         | |- context [if ?b then _ else _] => destruct b; try reflexivity
         end.
Qed.

Lemma validate_existing_tags_raises (existing_tags : dict str)
  (provider : str) :
  raises_only is_schema_error (validate_existing_tags existing_tags provider)
  = true.
Proof.
  unfold validate_existing_tags.
  pose proof (get_provider_tag_limits_raises provider) as H.
  destruct (get_provider_tag_limits provider) as [limits|e]; [|exact H].
  destruct (max_tags limits <? length existing_tags)%nat; [reflexivity|].
  apply validate_items_raises.
Qed.

Lemma validate_tag_values_raises (vs tag_keys : list str) (provider : str) :
  raises_only is_schema_error (validate_tag_values vs tag_keys provider)
  = true.
Proof.
  unfold validate_tag_values.
  pose proof (get_provider_tag_limits_raises provider) as H.
  destruct (get_provider_tag_limits provider) as [limits|e]; [|exact H].
  destruct (negb (length vs =? length tag_keys)%nat); [reflexivity|].
  apply validate_values_raises.
Qed.

(** X10. The functions of the schema module raise nothing but a
    SchemaValidationError: the limits table, the three validators, the
    mapping of the values and the merge. *)
Theorem schema_functions_raise_schema_errors (rt : Runtime)
  (config : TaggingConfig) (provider : str)
  (existing_tags new_tags : dict str) (vs tag_keys : list str) :
  raises_only is_schema_error (get_provider_tag_limits provider) = true
  /\ raises_only is_schema_error (validate_tagging_config rt config provider)
     = true
  /\ raises_only is_schema_error (validate_tag_values vs tag_keys provider)
     = true
  /\ raises_only is_schema_error (create_tag_mapping tag_keys vs provider)
     = true
  /\ raises_only is_schema_error
       (validate_existing_tags existing_tags provider) = true
  /\ raises_only is_schema_error
       (merge_and_validate_tags existing_tags new_tags tag_keys provider)
     = true.
Proof.
  pose proof (get_provider_tag_limits_raises provider) as Hl.
  pose proof (validate_existing_tags_raises existing_tags provider) as He.
  pose proof (validate_tag_values_raises vs tag_keys provider) as Hv.
  pose proof (validate_tag_values_raises (dict_values new_tags) tag_keys
                provider) as Hn.
  split; [exact Hl|]. split; [|split; [exact Hv|split; [|split; [exact He|]]]].
  - unfold validate_tagging_config.
    destruct (get_provider_tag_limits provider) as [limits|e]; [|exact Hl].
    repeat match goal with
           | |- context [if ?b then _ else _] => destruct b; try reflexivity
           end.
    apply validate_keys_raises.
  - unfold create_tag_mapping.
    destruct (validate_tag_values vs tag_keys provider); [reflexivity|exact Hv].
  - unfold merge_and_validate_tags.
    destruct (get_provider_tag_limits provider) as [limits|e]; [|exact Hl].
    destruct (validate_existing_tags existing_tags provider); [|exact He].
    destruct (validate_tag_values (dict_values new_tags) tag_keys provider);
      [|exact Hn].
    cbv zeta.
    match goal with
    | |- context [if ?b then _ else _] => destruct b; reflexivity
    end.
Qed.

Lemma map_fst_combine_same {A B : Type} (l : list A) (l' : list B) :
  length l = length l' -> map fst (combine l l') = l.
Proof.
  revert l'. induction l as [|a l IH]; intros [|b l']; simpl;
    try reflexivity; try discriminate.
  intros H. f_equal. apply IH. lia.
Qed.

Lemma map_snd_combine_same {A B : Type} (l : list A) (l' : list B) :
  length l = length l' -> map snd (combine l l') = l'.
Proof.
  revert l'. induction l as [|a l IH]; intros [|b l']; simpl;
    try reflexivity; try discriminate.
  intros H. f_equal. apply IH. lia.
Qed.

Lemma fold_strip_combine (tag_keys vs : list str) :
  forall acc : dict str,
    fold_left (fun tag_mapping kv =>
                 dict_set tag_mapping (fst kv) (strip (snd kv)))
      (combine tag_keys vs) acc
    = dict_update acc (combine tag_keys (map strip vs)).
Proof.
  unfold dict_update. revert vs.
  induction tag_keys as [|k ks IH]; intros [|v vs] acc; simpl;
    try reflexivity.
  apply IH.
Qed.

(** X11. When the mapping of the model's values succeeds for keys without
    repetition, it pairs each key, in order, with its value stripped of
    surrounding white space; the values were one per key, each valid for
    the provider, and the mapping passes the validation of values that the
    merge runs on it. *)
Theorem create_tag_mapping_spec (tag_keys vs : list str) (provider : str)
  (tag_mapping : dict str) :
  no_dup tag_keys = true ->
  create_tag_mapping tag_keys vs provider = Ok tag_mapping ->
  tag_mapping = combine tag_keys (map strip vs)
  /\ length vs = length tag_keys
  /\ dict_keys tag_mapping = tag_keys
  /\ dict_values tag_mapping = map strip vs
  /\ validate_tag_values (dict_values tag_mapping) tag_keys provider = Ok tt.
Proof.
  intros Hnd E. unfold create_tag_mapping in E.
  pose proof (validate_tag_values_succeeds provider vs tag_keys) as Hacc.
  destruct (validate_tag_values vs tag_keys provider) as [[]|e] eqn:Ev;
    [|discriminate].
  simpl in Hacc.
  destruct (get_provider_tag_limits provider) as [limits|e] eqn:El;
    [|discriminate].
  symmetry in Hacc. apply andb_prop in Hacc. destruct Hacc as [Hlen Hval].
  apply Nat.eqb_eq in Hlen.
  assert (Hlen' : length tag_keys = length (map strip vs))
    by (rewrite length_map; lia).
  assert (Hk : dict_keys (combine tag_keys (map strip vs)) = tag_keys)
    by (apply map_fst_combine_same; exact Hlen').
  assert (Hm : tag_mapping = combine tag_keys (map strip vs)).
  { inversion E as [E']. rewrite fold_strip_combine.
    rewrite dict_update_fresh; [reflexivity| |intros k _ []].
    rewrite Hk. apply no_dup_NoDup. exact Hnd. }
  subst tag_mapping.
  split; [reflexivity|]. split; [exact Hlen|]. split; [exact Hk|].
  assert (Hv : dict_values (combine tag_keys (map strip vs)) = map strip vs)
    by (apply map_snd_combine_same; exact Hlen').
  split; [exact Hv|].
  rewrite Hv. unfold validate_tag_values. rewrite El.
  rewrite <- Hlen', Nat.eqb_refl. simpl.
  apply validate_values_ok. rewrite forallb_forall in *.
  intros v Hin. apply in_map_iff in Hin. destruct Hin as (v' & <- & Hin).
  apply valid_value_strip. apply Hval. exact Hin.
Qed.

Lemma create_tag_mapping_spec_witness :
  create_tag_mapping [py "department"; py "topic"]
    [py " billing"; py "tax "] (py "aws")
  = Ok (combine [py "department"; py "topic"]
          (map strip [py " billing"; py "tax "])).
Proof.
  assert (H1 : no_dup [py "department"; py "topic"] = true)
    by (vm_compute; reflexivity).
  assert (H2 : create_tag_mapping [py "department"; py "topic"]
                 [py " billing"; py "tax "] (py "aws")
               = Ok [(py "department", py "billing"); (py "topic", py "tax")])
    by (vm_compute; reflexivity).
  pose proof (@create_tag_mapping_spec [py "department"; py "topic"]
                [py " billing"; py "tax "] (py "aws")
                [(py "department", py "billing"); (py "topic", py "tax")]
                H1 H2) as X.
  destruct X as (X & _). rewrite H2, X. reflexivity.
Defined.

(** ** Merge, further *)

Lemma dict_get_update {V : Type} (new d : dict V) (k : str) :
  NoDup (dict_keys new) ->
  dict_get (dict_update d new) k
  = match dict_get new k with
    | Some v => Some v
    | None => dict_get d k
    end.
Proof.
  unfold dict_update. revert d.
  induction new as [|[k' v'] new IH]; intros d Hnd; simpl; [reflexivity|].
  inversion Hnd as [|? ? Hk Hnew]; subst.
  rewrite IH by exact Hnew. rewrite dict_get_set.
  destruct (str_eqb k' k) eqn:E; [|reflexivity].
  apply str_eqb_eq in E. subst k'.
  rewrite (dict_get_None new k Hk). reflexivity.
Qed.

Lemma dict_get_filter_out {V : Type} (p : str -> bool) (d : dict V)
  (k : str) :
  p k = false ->
  dict_get (filter (fun kv => p (fst kv)) d) k = None.
Proof.
  intros Hk. induction d as [|[k' v] d IH]; simpl; [reflexivity|].
  destruct (p k') eqn:Ep; simpl; [|exact IH].
  destruct (str_eqb k' k) eqn:E; [|exact IH].
  apply str_eqb_eq in E. congruence.
Qed.

Lemma merged_lookup (existing_tags new_tags : dict str) (tag_keys : list str)
  (k : str) :
  NoDup (dict_keys new_tags) ->
  dict_get
    (dict_update
       (filter (fun kv => negb (in_list (fst kv) tag_keys)) existing_tags)
       new_tags) k
  = match dict_get new_tags k with
    | Some v => Some v
    | None => if in_list k tag_keys then None else dict_get existing_tags k
    end.
Proof.
  intros Hnd. rewrite dict_get_update by exact Hnd.
  destruct (dict_get new_tags k); [reflexivity|].
  destruct (in_list k tag_keys) eqn:E.
  - apply (dict_get_filter_out (fun k => negb (in_list k tag_keys))).
    rewrite E. reflexivity.
  - apply (dict_get_filter (fun k => negb (in_list k tag_keys))).
    rewrite E. reflexivity.
Qed.

(** X12. Whenever the merge succeeds, the merged tags are no more than
    the provider's maximum, and a key has the proposed value when one is
    proposed; otherwise a key of the schema is absent, even when the object
    had a tag under it, and any other key keeps its existing value. *)
Theorem merge_and_validate_tags_lookup (existing_tags new_tags : dict str)
  (tag_keys : list str) (provider : str) (merged : dict str) :
  no_dup (dict_keys new_tags) = true ->
  merge_and_validate_tags existing_tags new_tags tag_keys provider
  = Ok merged ->
  (exists limits,
      get_provider_tag_limits provider = Ok limits
      /\ (length merged <= max_tags limits)%nat)
  /\ forall k,
       dict_get merged k
       = match dict_get new_tags k with
         | Some v => Some v
         | None =>
           if in_list k tag_keys then None else dict_get existing_tags k
         end.
Proof.
  intros Hnd E. apply no_dup_NoDup in Hnd.
  unfold merge_and_validate_tags in E.
  destruct (get_provider_tag_limits provider) as [limits|e]; [|discriminate].
  destruct (validate_existing_tags existing_tags provider); [|discriminate].
  destruct (validate_tag_values (dict_values new_tags) tag_keys provider);
    [|discriminate].
  cbv zeta in E.
  match type of E with
  | context [(?a <? ?b)%nat] => destruct (Nat.ltb_spec a b); [discriminate|]
  end.
  inversion E; subst merged. split.
  - exists limits. split; [reflexivity|assumption].
  - intros k. apply merged_lookup. exact Hnd.
Qed.

Lemma merge_and_validate_tags_lookup_witness :
  dict_get [(py "owner", py "ann"); (py "topic", py "tax")] (py "department")
  = None.
Proof.
  assert (H1 : no_dup (dict_keys [(py "topic", py "tax")]) = true)
    by (vm_compute; reflexivity).
  assert (H2 : merge_and_validate_tags
                 [(py "owner", py "ann"); (py "department", py "labs")]
                 [(py "topic", py "tax")] [py "department"] (py "aws")
               = Ok [(py "owner", py "ann"); (py "topic", py "tax")])
    by (vm_compute; reflexivity).
  pose proof (@merge_and_validate_tags_lookup
                [(py "owner", py "ann"); (py "department", py "labs")]
                [(py "topic", py "tax")] [py "department"] (py "aws")
                [(py "owner", py "ann"); (py "topic", py "tax")] H1 H2) as X.
  destruct X as (_ & X). rewrite (X (py "department")).
  vm_compute. reflexivity.
Defined.

(** X13. The merge of the utilities module: when it returns, the merged
    tags are at most ten and looked up as in the merge of the schema
    module; it returns the very result of that merge whenever that merge
    succeeds for a provider with a maximum of ten; and it raises nothing
    but a ValueError. *)
Theorem merge_tags_spec (existing_tags new_tags : dict str)
  (tag_keys : list str) :
  no_dup (dict_keys new_tags) = true ->
  (forall merged,
      merge_tags existing_tags new_tags tag_keys = Ok merged ->
      (length merged <= 10)%nat
      /\ forall k,
           dict_get merged k
           = match dict_get new_tags k with
             | Some v => Some v
             | None =>
               if in_list k tag_keys then None else dict_get existing_tags k
             end)
  /\ (forall provider limits merged,
         get_provider_tag_limits provider = Ok limits ->
         max_tags limits = 10%nat ->
         merge_and_validate_tags existing_tags new_tags tag_keys provider
         = Ok merged ->
         merge_tags existing_tags new_tags tag_keys = Ok merged)
  /\ raises_only is_value_error
       (merge_tags existing_tags new_tags tag_keys) = true.
Proof.
  intros Hnd. apply no_dup_NoDup in Hnd. split; [|split].
  - intros merged E. unfold merge_tags in E. cbv zeta in E.
    match type of E with
    | context [(?a <? ?b)%nat] => destruct (Nat.ltb_spec a b); [discriminate|]
    end.
    inversion E; subst merged. split; [assumption|].
    intros k. apply merged_lookup. exact Hnd.
  - intros provider limits merged Hl H10 E.
    unfold merge_and_validate_tags in E. rewrite Hl in E.
    destruct (validate_existing_tags existing_tags provider); [|discriminate].
    destruct (validate_tag_values (dict_values new_tags) tag_keys provider);
      [|discriminate].
    cbv zeta in E. rewrite H10 in E. unfold merge_tags. cbv zeta.
    match type of E with
    | context [(?a <? ?b)%nat] => destruct (a <? b)%nat; [discriminate|]
    end.
    exact E.
  - unfold merge_tags. cbv zeta.
    match goal with
    | |- context [if ?b then _ else _] => destruct b; reflexivity
    end.
Qed.

Lemma merge_tags_spec_witness :
  merge_tags [(py "owner", py "ann"); (py "department", py "labs")]
    [(py "department", py "billing")] [py "department"]
  = Ok [(py "owner", py "ann"); (py "department", py "billing")].
Proof.
  assert (H1 : no_dup (dict_keys [(py "department", py "billing")]) = true)
    by (vm_compute; reflexivity).
  assert (H2 : get_provider_tag_limits (py "aws")
               = Ok {| max_tags := 10; max_key := 128; max_value := 256 |})
    by (vm_compute; reflexivity).
  assert (H3 : merge_and_validate_tags
                 [(py "owner", py "ann"); (py "department", py "labs")]
                 [(py "department", py "billing")] [py "department"] (py "aws")
               = Ok [(py "owner", py "ann"); (py "department", py "billing")])
    by (vm_compute; reflexivity).
  pose proof (@merge_tags_spec
                [(py "owner", py "ann"); (py "department", py "labs")]
                [(py "department", py "billing")] [py "department"] H1) as X.
  destruct X as (_ & X & _).
  exact (X (py "aws") _ _ H2 eq_refl H3).
Defined.

(** ** Sanitizers *)

Lemma fold_replace_char (new : Z) (chars s : str) :
  existsb (Z.eqb new) chars = false ->
  fold_left (fun sanitized char => replace_char char new sanitized) chars s
  = map (fun c => if existsb (Z.eqb c) chars then new else c) s.
Proof.
  revert s. induction chars as [|ch chars IH]; intros s Hnew; simpl.
  - symmetry. apply map_id.
  - apply orb_false_elim in Hnew. destruct Hnew as [Hch Hnew].
    change (existsb (Z.eqb new) chars = false) in Hnew.
    rewrite IH by exact Hnew. unfold replace_char. rewrite map_map.
    apply map_ext. intros c. destruct (c =? ch); simpl; [|reflexivity].
    rewrite Hnew. reflexivity.
Qed.

Lemma In_firstn {A : Type} (n : nat) (l : list A) (x : A) :
  In x (firstn n l) -> In x l.
Proof.
  intros H. rewrite <- (firstn_skipn n l). apply in_or_app. auto.
Qed.

Lemma truncated_length {A : Type} (n : nat) (l : list A) :
  (length (if (n <? length l)%nat then firstn n l else l) <= n)%nat.
Proof.
  destruct (Nat.ltb_spec n (length l)); [rewrite length_firstn|]; lia.
Qed.

(** X14. A sanitized key has at most 128 characters and none of the
    characters the sanitizer replaces; it is empty only when the key is
    blank, and otherwise starts with a letter or a digit. *)
Theorem sanitize_tag_key_spec (rt : Runtime) (key : str) :
  (length (sanitize_tag_key rt key) <= 128)%nat
  /\ forallb (fun c => negb (existsb (Z.eqb c) invalid_key_chars))
       (sanitize_tag_key rt key) = true
  /\ match sanitize_tag_key rt key with
     | c :: _ => isalnum_char rt c = true
     | [] => strip key = []
     end.
Proof.
  unfold sanitize_tag_key. cbv zeta.
  rewrite fold_replace_char by reflexivity.
  set (s1 := map _ (strip key)).
  assert (H1 : forall c, In c s1 -> existsb (Z.eqb c) invalid_key_chars = false).
  { intros c Hin. unfold s1 in Hin. apply in_map_iff in Hin.
    destruct Hin as (x & <- & _).
    destruct (existsb (Z.eqb x) invalid_key_chars) eqn:E;
      [reflexivity|exact E]. }
  match goal with
  | |- context [firstn 128 ?x] => set (s2 := x)
  end.
  assert (H2 : forall c, In c s2 -> existsb (Z.eqb c) invalid_key_chars = false).
  { intros c Hin. unfold s2 in Hin. destruct s1 as [|c1 r1]; [destruct Hin|].
    destruct (negb (isalnum rt [c1])); [|exact (H1 c Hin)].
    apply in_app_or in Hin. destruct Hin as [Hin|Hin]; [|exact (H1 c Hin)].
    simpl in Hin.
    destruct Hin as [<-|[<-|[<-|[<-|[]]]]]; reflexivity. }
  assert (H3 : match s2 with
               | c :: _ => isalnum_char rt c = true
               | [] => strip key = []
               end).
  { unfold s2. destruct s1 as [|c1 r1] eqn:E1.
    - unfold s1 in E1. destruct (strip key); [reflexivity|discriminate].
    - unfold isalnum. simpl. rewrite andb_true_r.
      destruct (isalnum_char rt c1) eqn:Ec; simpl; [exact Ec|reflexivity]. }
  split; [apply truncated_length|]. split.
  - apply forallb_forall. intros c Hin. apply negb_true_iff, H2.
    destruct (128 <? length s2)%nat; [exact (In_firstn _ _ _ Hin)|exact Hin].
  - destruct (128 <? length s2)%nat; [|exact H3].
    destruct s2 as [|c r]; [exact H3|exact H3].
Qed.

Lemma isspace_not_32 (c : Z) : isspace c = false -> (c =? 32) = false.
Proof.
  intros H. destruct (Z.eqb_spec c 32); [subst; discriminate|reflexivity].
Qed.

Lemma collapse_spaces_spec (s : str) :
  forall in_run,
    (forall c, In c (collapse_spaces in_run s) ->
               c = 32 \/ (In c s /\ isspace c = false))
    /\ single_spaced (collapse_spaces in_run s) = true
    /\ (in_run = true ->
        match collapse_spaces in_run s with
        | c :: _ => (c =? 32) = false
        | [] => True
        end).
Proof.
  induction s as [|x s IH]; intros in_run.
  - simpl. repeat split; auto. intros c [].
  - cbn [collapse_spaces]. destruct (isspace x) eqn:Ex.
    + destruct (IH true) as (Hin & Hss & Hhd). specialize (Hhd eq_refl).
      destruct in_run.
      * split; [|split; [exact Hss|intros _; exact Hhd]].
        intros c Hc. destruct (Hin c Hc) as [->|[H1 H2]]; [auto|].
        right. split; [right; exact H1|exact H2].
      * split; [|split; [|discriminate]].
        -- intros c [<-|Hc]; [auto|].
           destruct (Hin c Hc) as [->|[H1 H2]]; [auto|].
           right. split; [right; exact H1|exact H2].
        -- cbn [single_spaced].
           destruct (collapse_spaces true s) as [|y r]; [reflexivity|].
           rewrite Hhd, Hss. reflexivity.
    + destruct (IH false) as (Hin & Hss & _).
      pose proof (isspace_not_32 x Ex) as Hx.
      split; [|split; [|intros _; exact Hx]].
      * intros c [<-|Hc]; [right; split; [left; reflexivity|exact Ex]|].
        destruct (Hin c Hc) as [->|[H1 H2]]; [auto|].
        right. split; [right; exact H1|exact H2].
      * cbn [single_spaced].
        destruct (collapse_spaces false s) as [|y r]; [reflexivity|].
        rewrite Hx, Hss. reflexivity.
Qed.

Lemma single_spaced_firstn (n : nat) (s : str) :
  single_spaced s = true -> single_spaced (firstn n s) = true.
Proof.
  revert s. induction n as [|n IH]; intros s H; [reflexivity|].
  destruct s as [|a s]; [reflexivity|].
  cbn [firstn]. specialize (IH s).
  destruct s as [|b s]; [destruct n; reflexivity|].
  cbn [single_spaced] in H. apply andb_prop in H. destruct H as [Hab Hs].
  specialize (IH Hs). destruct n as [|n]; [reflexivity|].
  cbn [firstn] in *. cbn [single_spaced]. rewrite Hab. exact IH.
Qed.

(** X15. A sanitized value has at most 256 characters and none of the
    characters the sanitizer replaces; its only white space is the plain
    space, and no two spaces stand side by side. *)
Theorem sanitize_tag_value_spec (value : str) :
  (length (sanitize_tag_value value) <= 256)%nat
  /\ forallb (fun c => negb (existsb (Z.eqb c) invalid_value_chars)
                       && (negb (isspace c) || (c =? 32)))
       (sanitize_tag_value value) = true
  /\ single_spaced (sanitize_tag_value value) = true.
Proof.
  unfold sanitize_tag_value. cbv zeta.
  rewrite fold_replace_char by reflexivity.
  set (s1 := map _ (strip value)).
  destruct (collapse_spaces_spec s1 false) as (Hin & Hss & _).
  set (s2 := collapse_spaces false s1) in *.
  assert (H2 : forall c, In c s2 ->
                 existsb (Z.eqb c) invalid_value_chars = false
                 /\ (isspace c = true -> c = 32)).
  { intros c Hc. destruct (Hin c Hc) as [->|[H1 Hsp]];
      [split; [reflexivity|auto]|].
    split; [|rewrite Hsp; discriminate].
    unfold s1 in H1. apply in_map_iff in H1. destruct H1 as (x & <- & _).
    destruct (existsb (Z.eqb x) invalid_value_chars) eqn:E;
      [reflexivity|exact E]. }
  split; [apply truncated_length|]. split.
  - apply forallb_forall. intros c Hc.
    assert (Hc' : In c s2)
      by (destruct (256 <? length s2)%nat;
          [exact (In_firstn _ _ _ Hc)|exact Hc]).
    destruct (H2 c Hc') as [Hi Hsp]. rewrite Hi. simpl.
    destruct (isspace c); [|reflexivity].
    rewrite (Hsp eq_refl). reflexivity.
  - destruct (256 <? length s2)%nat; [|exact Hss].
    apply single_spaced_firstn, Hss.
Qed.

(** ** Storage URIs *)

Lemma split_once_first (sep : Z) (p : str) :
  startswith p (nth 0 (split_once sep p) []) = true
  /\ (existsb (fun x => x =? sep) p = false ->
      nth 0 (split_once sep p) [] = p)
  /\ is_empty (nth 0 (split_once sep p) [])
     = is_empty p || startswith p [sep].
Proof.
  induction p as [|c p IH]; [repeat split|].
  cbn [split_once existsb]. destruct (c =? sep) eqn:E.
  - cbn [nth startswith is_empty orb]. rewrite E.
    repeat split. discriminate.
  - destruct IH as (H1 & H2 & _).
    destruct (split_once sep p) as [|w ws]; cbn [nth] in *.
    + cbn [startswith is_empty orb]. rewrite Z.eqb_refl, E.
      split; [reflexivity|]. split; [|reflexivity].
      intros H. rewrite (H2 H). reflexivity.
    + cbn [startswith is_empty orb]. rewrite Z.eqb_refl, E, H1.
      split; [reflexivity|]. split; [|reflexivity].
      intros H. rewrite (H2 H). reflexivity.
Qed.

Lemma split_once_app (sep : Z) (name path : str) :
  existsb (fun x => x =? sep) name = false ->
  split_once sep (name ++ sep :: path) = [name; path].
Proof.
  induction name as [|c name IH]; simpl; intros H.
  - rewrite Z.eqb_refl. reflexivity.
  - apply orb_false_elim in H. destruct H as [Hc Hn].
    rewrite Hc, (IH Hn). reflexivity.
Qed.

Lemma split_once_decomp (sep : Z) (p : str) :
  exists name rest,
    p = name ++ rest
    /\ ~ In sep name
    /\ (rest = [] \/ exists path, rest = sep :: path)
    /\ nth 0 (split_once sep p) [] = name.
Proof.
  induction p as [|c p IH].
  - exists [], []. repeat split; auto.
  - cbn [split_once]. destruct (Z.eqb_spec c sep) as [->|Hc].
    + exists [], (sep :: p). repeat split; auto. right. exists p. reflexivity.
    + destruct IH as (name & rest & Ep & Hn & Hr & Hs).
      exists (c :: name), rest. split; [rewrite Ep at 1; reflexivity|].
      split; [intros [H|H]; [congruence|exact (Hn H)]|].
      split; [exact Hr|].
      destruct (split_once sep p) as [|w ws]; cbn [nth] in *;
        rewrite Hs; reflexivity.
Qed.

(** X16. Behind their schemes the Azure and the Google parser read the
    same name from a storage URI, the text up to the first slash: the path
    is that name, which holds no slash, followed by nothing or by a slash
    and more.  Both return the name when it is not empty; when it is
    empty, the first raises a ValueError and the second a StorageError. *)
Theorem storage_uri_parsers_agree (p : str) :
  exists name rest,
    p = name ++ rest
    /\ ~ In 47 name
    /\ (rest = [] \/ exists path, rest = 47 :: path)
    /\ match name with
       | [] =>
         _parse_azure_uri (py "az://" ++ p)
         = Error (Raise ValueError
                    (py "Invalid Azure URI: missing container name"))
         /\ _parse_gcs_uri (py "gs://" ++ p)
            = Error (Raise StorageError
                       (py "Invalid GCS URI: missing bucket name in "
                        ++ py "gs://" ++ p))
       | _ :: _ =>
         _parse_azure_uri (py "az://" ++ p) = Ok name
         /\ _parse_gcs_uri (py "gs://" ++ p) = Ok name
       end.
Proof.
  destruct (split_once_decomp 47 p) as (name & rest & Ep & Hn & Hr & Hs).
  exists name, rest. split; [exact Ep|]. split; [exact Hn|].
  split; [exact Hr|].
  unfold _parse_azure_uri, _parse_gcs_uri. cbv zeta.
  rewrite !startswith_app. cbn [negb].
  change (skipn 5 (py "az://" ++ p)) with p.
  change (skipn 5 (py "gs://" ++ p)) with p.
  change (py "/") with [47]. rewrite contains_char.
  destruct (split_once_first 47 p) as (_ & H2 & _).
  rewrite Hs in *.
  destruct (existsb (fun x => x =? 47) p);
    [|rewrite <- (H2 eq_refl)];
    destruct name as [|c r]; cbn [is_empty]; split; reflexivity.
Qed.

(** X17. A storage URI made of the scheme, a name without a slash and,
    optionally, a slash and a path, is read back as the name by the Azure
    and by the Google parser. *)
Theorem storage_uri_roundtrip (name path : str) :
  name <> [] ->
  contains name (py "/") = false ->
  _parse_azure_uri (py "az://" ++ name) = Ok name
  /\ _parse_azure_uri (py "az://" ++ name ++ py "/" ++ path) = Ok name
  /\ _parse_gcs_uri (py "gs://" ++ name) = Ok name
  /\ _parse_gcs_uri (py "gs://" ++ name ++ py "/" ++ path) = Ok name.
Proof.
  intros Hne Hslash. change (py "/") with [47] in *.
  rewrite contains_char in Hslash.
  unfold _parse_azure_uri, _parse_gcs_uri. cbv zeta.
  rewrite !startswith_app. cbn [negb].
  change (skipn 5 (py "az://" ++ name)) with name.
  change (skipn 5 (py "gs://" ++ name)) with name.
  change (skipn 5 (py "az://" ++ name ++ [47] ++ path))
    with (name ++ 47 :: path).
  change (skipn 5 (py "gs://" ++ name ++ [47] ++ path))
    with (name ++ 47 :: path).
  change (py "/") with [47].
  rewrite !contains_char, Hslash.
  rewrite (split_once_app _ _ path Hslash).
  destruct (split_once_first 47 name) as (_ & H2 & _).
  rewrite (H2 Hslash). cbn [nth].
  rewrite existsb_app. cbn [existsb]. rewrite Z.eqb_refl, orb_true_r.
  destruct name as [|c r]; [contradiction|].
  cbn [is_empty]. repeat split.
Qed.

Lemma storage_uri_roundtrip_witness :
  _parse_azure_uri (py "az://" ++ py "reports" ++ py "/" ++ py "2025/q1")
  = Ok (py "reports")
  /\ _parse_gcs_uri (py "gs://" ++ py "reports") = Ok (py "reports").
Proof.
  assert (H1 : py "reports" <> []) by discriminate.
  assert (H2 : contains (py "reports") (py "/") = false)
    by (vm_compute; reflexivity).
  pose proof (@storage_uri_roundtrip (py "reports") (py "2025/q1") H1 H2)
    as X.
  destruct X as (_ & Xa & Xg & _). split; [exact Xa|exact Xg].
Defined.

(** ** The values of the model *)


Lemma lstrip_by_In (p : Z -> bool) (s : str) (c : Z) :
  In c (lstrip_by p s) -> In c s.
Proof.
  destruct (lstrip_by_suffix p s) as (pre & E & _).
  intros H. rewrite E. apply in_or_app. auto.
Qed.

Lemma strip_by_In (p : Z -> bool) (s : str) (c : Z) :
  In c (strip_by p s) -> In c s.
Proof.
  unfold strip_by, rstrip_by. intros H.
  apply in_rev in H. apply lstrip_by_In in H. apply in_rev in H.
  apply lstrip_by_In in H. exact H.
Qed.

(** X18. Every value the response parser returns is non-empty, holds no
    comma, and has no quote left at either end. *)
Theorem parse_llm_response_values (response : str) (tag_keys vs : list str) :
  parse_llm_response response tag_keys = Ok vs ->
  Forall (fun v => v <> [] /\ ~ In 44 v /\ strip_chars quote_chars v = v) vs.
Proof.
  intros E.
  destruct (parse_llm_response_exactly_N_pieces response tag_keys) as [E' _].
  rewrite E' in E. inversion E; subst vs. clear E E'.
  apply Forall_forall. intros v Hin. unfold spec_repair in Hin.
  apply In_firstn in Hin. apply in_app_or in Hin. destruct Hin as [Hin|Hin].
  - unfold spec_pieces in Hin. apply filter_In in Hin.
    destruct Hin as [Hin Hne]. apply in_map_iff in Hin.
    destruct Hin as (w & <- & Hw). split; [|split].
    + intros Hv. rewrite Hv in Hne. discriminate.
    + intros Hc. apply (split_pieces_no_sep _ _ _ Hw).
      unfold strip_chars, strip in Hc.
      apply strip_by_In in Hc. apply strip_by_In in Hc. exact Hc.
    + unfold strip_chars. apply strip_by_idempotent.
  - apply repeat_spec in Hin. subst v. split; [discriminate|]. split.
    + intros H. vm_compute in H. intuition discriminate.
    + vm_compute. reflexivity.
Qed.

Lemma parse_llm_response_values_witness :
  Forall (fun v => v <> [] /\ ~ In 44 v /\ strip_chars quote_chars v = v)
    [py "billing"; py "ann"; py "general"].
Proof.
  assert (H : parse_llm_response (py "Tags: 'billing', ,'ann'")
                [py "department"; py "owner"; py "topic"]
              = Ok [py "billing"; py "ann"; py "general"])
    by (vm_compute; reflexivity).
  exact (@parse_llm_response_values (py "Tags: 'billing', ,'ann'")
           [py "department"; py "owner"; py "topic"]
           [py "billing"; py "ann"; py "general"] H).
Defined.

(** ** The default prompt *)

Lemma startswith_app_l (a b sub : str) :
  startswith a sub = true -> startswith (a ++ b) sub = true.
Proof.
  revert a. induction sub as [|c sub IH]; intros a; [reflexivity|].
  destruct a as [|x a]; simpl; [discriminate|].
  intros H. apply andb_prop in H. destruct H as [Hx Ha].
  rewrite Hx, (IH _ Ha). reflexivity.
Qed.

Lemma contains_app_l (a b sub : str) :
  contains a sub = true -> contains (a ++ b) sub = true.
Proof.
  induction a as [|x a IH]; cbn [contains].
  - rewrite orb_false_r. intros H. destruct sub; [|discriminate].
    destruct b; reflexivity.
  - intros H. apply orb_prop in H. simpl app. cbn [contains].
    destruct H as [H|H].
    + pose proof (startswith_app_l (x :: a) b sub H) as H'.
      simpl app in H'. rewrite H'. reflexivity.
    + rewrite (IH H). apply orb_true_r.
Qed.

Lemma contains_infix (a sub b : str) : contains (a ++ sub ++ b) sub = true.
Proof. apply contains_app_r, contains_prefix. Qed.

Lemma contains_refl (s : str) : contains s s = true.
Proof.
  pose proof (contains_prefix s []) as H. rewrite app_nil_r in H. exact H.
Qed.

Lemma contains_join (sep x : str) (items : list str) :
  In x items -> contains (join sep items) x = true.
Proof.
  induction items as [|y items IH]; [intros []|].
  intros [->|Hin].
  - destruct items; [apply contains_refl|apply contains_prefix].
  - destruct items as [|z items]; [destruct Hin|].
    change (join sep (y :: z :: items))
      with (y ++ sep ++ join sep (z :: items)).
    apply contains_app_r, contains_app_r, IH, Hin.
Qed.

(** X19. The default prompt is refused, with a ValueError, exactly when
    the file name is blank; otherwise it holds, unchanged, the content
    preview, the file name behind its label, and the constraint line of
    every key of the schema. *)
Theorem format_llm_prompt_spec (rt : Runtime) (tags : TagSchema)
  (content_preview filename : str) :
  match format_llm_prompt rt tags content_preview filename with
  | Ok prompt =>
    blank filename = false
    /\ contains prompt content_preview = true
    /\ contains prompt (py "File being analyzed: " ++ filename) = true
    /\ forallb (fun kv => contains prompt (constraint_line rt kv)) tags = true
  | Error e =>
    blank filename = true
    /\ e = Raise ValueError (py "filename is required and cannot be empty")
  end.
Proof.
  unfold format_llm_prompt. destruct (blank filename); [split; reflexivity|].
  cbv zeta. split; [reflexivity|]. split; [|split].
  - do 6 apply contains_app_r. apply contains_prefix.
  - do 4 apply contains_app_r. apply contains_app_l.
    apply (contains_infix [10] (py "File being analyzed: " ++ filename) [10]).
  - apply forallb_forall. intros kv Hin.
    do 3 apply contains_app_r. apply contains_app_l.
    apply contains_join. apply in_map. exact Hin.
Qed.

(** ** The model providers *)

Lemma tags_of_completion_ok (request : LLMRequest) (content : str) :
  exists response,
    tags_of_completion request content = Ok response
    /\ length (response_tags response) = length (request_tags request).
Proof.
  unfold tags_of_completion.
  destruct (parse_llm_response_exactly_N_pieces content
              (dict_keys (request_tags request))) as [E Hlen].
  rewrite E. eexists. split; [reflexivity|]. simpl. rewrite Hlen.
  unfold dict_keys. apply length_map.
Qed.

(** X20. Each of the three model providers either returns exactly one tag
    value per key of the schema or raises an LLMError, whatever the
    service does: no other exception leaves generate_tags. *)
Theorem llm_providers_outcome (rt : Runtime) (World : Type)
  (messages_create : str -> Call World (list str))
  (generate_content : str -> Call World str)
  (chat_completions_create :
     str -> World -> (openai_failure + option str) * World)
  (request : LLMRequest) (w : World) :
  let expected (outcome : Result LLMResponse * World) :=
    match fst outcome with
    | Ok response =>
      length (response_tags response) = length (request_tags request)
    | Error e => is_llm_error e = true
    end in
  expected (generate_tags (AnthropicProvider rt messages_create) request w)
  /\ expected (generate_tags (GeminiProvider rt generate_content) request w)
  /\ expected
       (generate_tags (OpenAIProvider rt chat_completions_create) request w).
Proof.
  intros expected. unfold expected. cbn [generate_tags AnthropicProvider
    GeminiProvider OpenAIProvider].
  destruct (build_prompt rt request) as [prompt|e]; [|repeat split].
  split; [|split].
  - destruct (messages_create prompt w) as [[blocks|e] w']; [|reflexivity].
    match goal with
    | |- context [tags_of_completion request ?c] =>
        destruct (tags_of_completion_ok request c) as (r & E & Hr)
    end.
    rewrite E. exact Hr.
  - destruct (generate_content prompt w) as [[text|e] w']; [|reflexivity].
    destruct (tags_of_completion_ok request text) as (r & E & Hr).
    rewrite E. exact Hr.
  - destruct (chat_completions_create prompt w)
      as [[[| |message|e]|[[|c content]|]] w']; try reflexivity.
    destruct (tags_of_completion_ok request (c :: content)) as (r & E & Hr).
    rewrite E. exact Hr.
Qed.

Lemma parse_llm_response_empty (tag_keys : list str) :
  parse_llm_response [] tag_keys = Ok (repeat general (length tag_keys)).
Proof.
  destruct (parse_llm_response_exactly_N_pieces [] tag_keys) as [E _].
  rewrite E. unfold spec_repair.
  change (spec_pieces []) with (@nil str). simpl.
  rewrite Nat.sub_0_r, firstn_all2; [reflexivity|].
  rewrite repeat_length. lia.
Qed.

(** X21. When the service answers with nothing, the Anthropic and the
    Gemini provider return the value general for every key of the schema,
    while the OpenAI provider raises an LLMError. *)
Theorem empty_completion (rt : Runtime) (World : Type)
  (request : LLMRequest) (w w' : World) :
  succeeds (build_prompt rt request) = true ->
  let defaults :=
    {| response_tags := repeat general (length (request_tags request)) |} in
  (forall messages_create blocks,
      (forall prompt, messages_create prompt w = (Ok blocks, w')) ->
      hd [] blocks = [] ->
      generate_tags (AnthropicProvider rt messages_create) request w
      = (Ok defaults, w'))
  /\ (forall generate_content,
         (forall prompt, generate_content prompt w = (Ok [], w')) ->
         generate_tags (GeminiProvider rt generate_content) request w
         = (Ok defaults, w'))
  /\ (forall chat_completions_create content,
         (forall prompt,
             chat_completions_create prompt w = (inr content, w')) ->
         content = None \/ content = Some [] ->
         generate_tags (OpenAIProvider rt chat_completions_create) request w
         = (Error
              (llm_error
                 (py "Unexpected error calling OpenAI: Empty response from OpenAI")),
            w')).
Proof.
  intros Hp defaults.
  assert (Hd : tags_of_completion request [] = Ok defaults).
  { unfold tags_of_completion. rewrite parse_llm_response_empty.
    unfold defaults, dict_keys. rewrite length_map. reflexivity. }
  cbn [generate_tags AnthropicProvider GeminiProvider OpenAIProvider].
  destruct (build_prompt rt request) as [prompt|e]; [|discriminate].
  split; [|split].
  - intros create blocks Hc Hb. rewrite Hc. cbv beta iota zeta.
    destruct blocks as [|text blocks]; simpl in Hb; [|subst text];
      rewrite Hd; reflexivity.
  - intros gen Hc. rewrite Hc. cbv beta iota zeta. rewrite Hd. reflexivity.
  - intros create content Hc [->| ->]; rewrite Hc; reflexivity.
Qed.

Lemma empty_completion_witness :
  generate_tags
    (AnthropicProvider ascii_runtime (fun _ (w : unit) => (Ok [], w)))
    {| request_content := py "invoice 42";
       request_tags := [(py "department", None); (py "topic", None)];
       request_filename := py "a.txt"; request_template := None |} tt
  = (Ok {| response_tags := [general; general] |}, tt)
  /\ generate_tags
       (OpenAIProvider ascii_runtime (fun _ (w : unit) => (inr None, w)))
       {| request_content := py "invoice 42";
          request_tags := [(py "department", None); (py "topic", None)];
          request_filename := py "a.txt"; request_template := None |} tt
     = (Error
          (llm_error
             (py "Unexpected error calling OpenAI: Empty response from OpenAI")),
        tt).
Proof.
  assert (H : succeeds
                (build_prompt ascii_runtime
                   {| request_content := py "invoice 42";
                      request_tags :=
                        [(py "department", None); (py "topic", None)];
                      request_filename := py "a.txt";
                      request_template := None |}) = true)
    by (vm_compute; reflexivity).
  pose proof (@empty_completion ascii_runtime unit
                {| request_content := py "invoice 42";
                   request_tags :=
                     [(py "department", None); (py "topic", None)];
                   request_filename := py "a.txt";
                   request_template := None |} tt tt H) as X.
  destruct X as (Xa & _ & Xo). split.
  - exact (Xa (fun _ (w : unit) => (Ok [], w)) []
              (fun _ => eq_refl) eq_refl).
  - exact (Xo (fun _ (w : unit) => (inr None, w)) None
              (fun _ => eq_refl) (or_introl eq_refl)).
Defined.

(** ** The configuration model *)

Lemma TaggingConfig_new_inv (model uri : str) (schema : TagSchema)
  (budget : Z) (config : TaggingConfig) :
  TaggingConfig_new model uri schema budget = Ok config ->
  config = {| llm_model := model; storage_uri := uri; tags := schema;
              max_bytes := budget |}
  /\ (length schema <= 9)%nat.
Proof.
  unfold TaggingConfig_new, validate_tags, validate_max_bytes.
  destruct (Nat.leb_spec 10 (length schema)); [discriminate|].
  destruct (length schema =? 0)%nat; [discriminate|].
  destruct (budget <=? 0); [discriminate|].
  intros E. inversion E. split; [reflexivity|lia].
Qed.

(** X22. A configuration is constructed exactly for a schema of one to
    nine keys and a positive byte budget, with the fields as given; any
    other construction raises a ValueError. *)
Theorem TaggingConfig_new_spec (model uri : str) (schema : TagSchema)
  (budget : Z) :
  match TaggingConfig_new model uri schema budget with
  | Ok config =>
    config = {| llm_model := model; storage_uri := uri; tags := schema;
                max_bytes := budget |}
    /\ (1 <= length schema <= 9)%nat /\ 0 < budget
  | Error e =>
    is_value_error e = true
    /\ (length schema = 0%nat \/ (10 <= length schema)%nat \/ budget <= 0)
  end.
Proof.
  unfold TaggingConfig_new, validate_tags, validate_max_bytes.
  destruct (Nat.leb_spec 10 (length schema)); [split; [reflexivity|lia]|].
  destruct (Nat.eqb_spec (length schema) 0); [split; [reflexivity|lia]|].
  destruct (Z.leb_spec budget 0); [split; [reflexivity|lia]|].
  repeat split; lia.
Qed.

Lemma max_tags_at_least_ten (provider : str) (limits : Limits) :
  get_provider_tag_limits provider = Ok limits ->
  (10 <= max_tags limits)%nat.
Proof.
  unfold get_provider_tag_limits.
  repeat match goal with
         | |- context [if ?b then _ else _] => destruct b
         end; intros E; inversion E; simpl; lia.
Qed.

(** X23. For a configuration that was constructed, and whose keys are
    distinct as those of a dictionary are, the count check and the
    uniqueness check of the schema validator cannot fail for a known
    provider: the validator's outcome is that of its loop over the keys. *)
Theorem constructed_config_validation (rt : Runtime) (model uri : str)
  (schema : TagSchema) (budget : Z) (provider : str) (limits : Limits)
  (config : TaggingConfig) :
  TaggingConfig_new model uri schema budget = Ok config ->
  get_provider_tag_limits provider = Ok limits ->
  no_dup (dict_keys schema) = true ->
  validate_tagging_config rt config provider
  = validate_keys rt limits (dict_keys schema).
Proof.
  intros Hc Hl Hnd.
  destruct (TaggingConfig_new_inv _ _ _ _ Hc) as (-> & Hlen).
  pose proof (max_tags_at_least_ten _ Hl) as H10.
  unfold validate_tagging_config. rewrite Hl. cbn [tags].
  destruct (Nat.leb_spec (max_tags limits) (length schema)); [lia|].
  pose proof (distinct_length_no_dup (dict_keys schema)) as Hd.
  rewrite Hnd in Hd. unfold dict_keys at 1 in Hd. rewrite length_map in Hd.
  rewrite Hd. reflexivity.
Qed.

Lemma constructed_config_validation_witness :
  validate_tagging_config ascii_runtime
    {| llm_model := py "gpt-4.1"; storage_uri := py "s3://bucket";
       tags := [(py "department", None)]; max_bytes := 5000 |} (py "aws")
  = validate_keys ascii_runtime
      {| max_tags := 10; max_key := 128; max_value := 256 |}
      (dict_keys [(py "department", @None (list str))]).
Proof.
  assert (H1 : TaggingConfig_new (py "gpt-4.1") (py "s3://bucket")
                 [(py "department", None)] 5000
               = Ok {| llm_model := py "gpt-4.1";
                       storage_uri := py "s3://bucket";
                       tags := [(py "department", None)];
                       max_bytes := 5000 |})
    by (vm_compute; reflexivity).
  assert (H2 : get_provider_tag_limits (py "aws")
               = Ok {| max_tags := 10; max_key := 128; max_value := 256 |})
    by (vm_compute; reflexivity).
  assert (H3 : no_dup (dict_keys [(py "department", @None (list str))]) = true)
    by (vm_compute; reflexivity).
  exact (@constructed_config_validation ascii_runtime _ _ _ _ _ _ _ H1 H2 H3).
Defined.

(** ** The summary *)

Lemma filter_length_impl {A : Type} (p q : A -> bool) (l : list A) :
  (forall x, In x l -> p x = true -> q x = true) ->
  (length (filter p l) <= length (filter q l))%nat.
Proof.
  induction l as [|x l IH]; intros H; simpl; [lia|].
  assert (IH' := IH (fun y Hy => H y (or_intror Hy))).
  pose proof (H x (or_introl eq_refl)) as Hx.
  destruct (p x); [rewrite Hx by reflexivity|destruct (q x)]; simpl; lia.
Qed.

Lemma filter_length_disjoint {A : Type} (p q : A -> bool) (l : list A) :
  (forall x, In x l -> p x && q x = false) ->
  (length (filter p l) + length (filter q l) <= length l)%nat.
Proof.
  induction l as [|x l IH]; intros H; simpl; [lia|].
  assert (IH' := IH (fun y Hy => H y (or_intror Hy))).
  pose proof (H x (or_introl eq_refl)) as Hx.
  destruct (p x), (q x); simpl in *; try discriminate; lia.
Qed.

Lemma filter_length_cover {A : Type} (p q : A -> bool) (l : list A) :
  (forall x, In x l -> p x || q x = true) ->
  (length l <= length (filter p l) + length (filter q l))%nat.
Proof.
  induction l as [|x l IH]; intros H; simpl; [lia|].
  assert (IH' := IH (fun y Hy => H y (or_intror Hy))).
  pose proof (H x (or_introl eq_refl)) as Hx.
  destruct (p x), (q x); simpl in *; try discriminate; lia.
Qed.

(** X24. In the summary statistics of any result the counts of processed,
    skipped and applied records lie between 0 and the total, and the
    success rate is 0 for an empty result and otherwise the fraction
    processed / total, which lies between 0 and 1. *)
Theorem get_summary_stats_bounds (r : TaggingResult) :
  exists total processed skipped applied_count rate,
    get_summary_stats r
    = [ (py "total_objects", PyInt total); (py "processed", PyInt processed);
        (py "skipped", PyInt skipped); (py "applied", PyInt applied_count);
        (py "success_rate", rate) ]
    /\ total = Z.of_nat (length (results r))
    /\ 0 <= processed <= total
    /\ 0 <= skipped <= total
    /\ 0 <= applied_count <= total
    /\ ((total = 0 /\ rate = PyInt 0)
        \/ (0 < total
            /\ rate = PyFloat (Qmake processed (Z.to_pos total))
            /\ (0 <= Qmake processed (Z.to_pos total) <= 1)%Q)).
Proof.
  unfold get_summary_stats. rewrite !count_if_filter.
  set (records := dict_values (results r)).
  assert (Hn : length (results r) = length records)
    by (unfold records, dict_values; rewrite length_map; reflexivity).
  assert (Hle : forall p : ObjectTags -> bool,
             0 <= Z.of_nat (length (filter p records))
             <= Z.of_nat (length (results r))).
  { intros p. pose proof (filter_length_le p records). lia. }
  eexists _, _, _, _, _. split; [reflexivity|]. split; [reflexivity|].
  split; [apply Hle|]. split; [apply Hle|]. split; [apply Hle|].
  destruct (Z.ltb_spec 0 (Z.of_nat (length (results r)))) as [Hpos|Hz].
  - right. split; [exact Hpos|]. split; [reflexivity|].
    specialize (Hle (fun t => is_some (proposed t))).
    unfold Qle. simpl. rewrite Z2Pos.id by exact Hpos. lia.
  - left. split; [lia|reflexivity].
Qed.

(** ** The run, further *)

Lemma In_dict_set_key {V : Type} (d : dict V) (k k' : str) (v v' : V) :
  In (k, v) (dict_set d k' v') -> In (k, v) d \/ (k = k' /\ v = v').
Proof.
  induction d as [|[k0 v0] d IH]; simpl.
  - intros [E|[]]. inversion E. auto.
  - destruct (str_eqb k0 k') eqn:E0; simpl.
    + apply str_eqb_eq in E0. subst k0.
      intros [E|H]; [inversion E; auto|auto].
    + intros [E|H]; [auto|]. destruct (IH H) as [|]; auto.
Qed.

Lemma In_fold_dict_set_key {V : Type} (recs : list (str * V)) (d : dict V)
  (k : str) (v : V) :
  In (k, v) (fold_left (fun d kt => dict_set d (fst kt) (snd kt)) recs d) ->
  In (k, v) d \/ In (k, v) recs.
Proof.
  revert d. induction recs as [|[k' v'] recs IH]; intros d; simpl; [auto|].
  intros H. destruct (IH _ H) as [H'|H']; [|auto].
  destruct (In_dict_set_key _ _ _ _ _ H') as [|[-> ->]]; auto.
Qed.

Section RunOutcomes.
Variable World : Type.
Variable rt : Runtime.
Variable self : SmartCloudTagger World.

Ltac close_step evs :=
  eexists _, evs, _;
  split; [reflexivity|];
  split; [reflexivity|];
  split; [cbn [trace]; rewrite <- ?app_assoc; reflexivity|].

Lemma process_object_step_outcome (mode : ProcessingMode) (b : Z)
  (obj_key : str) (st : RunState World) :
  exists t evs st',
    process_object rt self mode b obj_key st = (Ok tt, st')
    /\ result st' = add_result (result st) obj_key t
    /\ trace st' = trace st ++ evs
    /\ outcome self mode b obj_key t evs.
Proof.
  set (req0 := {| request_content := [];
                  request_tags := tags (tagger_config self);
                  request_filename := obj_key;
                  request_template := custom_prompt_template self |}).
  assert (Hreq0 : request_for self obj_key req0) by (repeat split).
  unfold process_object, propose, record_or_apply, try_except, mbind, call,
    lift, ret, add_result_m, put_result.
  destruct (is_supported_file_type (storage_provider self) obj_key (world st))
    as [[[|]|e] w1]; cbn [fst snd world trace result negb].
  - destruct (get_object_tags (storage_provider self) obj_key w1)
      as [[existing_tags|e] w2]; cbn [fst snd world trace result].
    2:{ close_step [EIsSupported obj_key; EGetTags obj_key].
        apply GaveUp with (request := req0) (n := 2%nat);
          [exact Hreq0|lia|reflexivity]. }
    destruct (get_object_content (storage_provider self) obj_key b w2)
      as [[[content file_type]|e] w3]; cbn [fst snd world trace result].
    2:{ close_step [EIsSupported obj_key; EGetTags obj_key;
                    EGetContent obj_key b].
        apply GaveUp with (request := req0) (n := 3%nat);
          [exact Hreq0|lia|reflexivity]. }
    destruct (parse_file_content rt content file_type) as [text|e].
    2:{ close_step [EIsSupported obj_key; EGetTags obj_key;
                    EGetContent obj_key b].
        apply GaveUp with (request := req0) (n := 3%nat);
          [exact Hreq0|lia|reflexivity]. }
    destruct (truncate_content text b) as [truncated_content|e].
    2:{ close_step [EIsSupported obj_key; EGetTags obj_key;
                    EGetContent obj_key b].
        apply GaveUp with (request := req0) (n := 3%nat);
          [exact Hreq0|lia|reflexivity]. }
    set (request := {| request_content := truncated_content;
                       request_tags := tags (tagger_config self);
                       request_filename := obj_key;
                       request_template := custom_prompt_template self |}).
    assert (Hreq : request_for self obj_key request) by (repeat split).
    destruct (generate_tags (llm_provider self) request w3)
      as [[llm_response|e] w4]; cbn [fst snd world trace result].
    2:{ close_step (calls_before_write obj_key b request).
        apply GaveUp with (request := request) (n := 4%nat);
          [exact Hreq|lia|reflexivity]. }
    destruct (create_tag_mapping (dict_keys (tags (tagger_config self)))
                (response_tags llm_response) (storage_provider_type self))
      as [proposed_tags|e] eqn:Emap.
    2:{ close_step (calls_before_write obj_key b request).
        apply GaveUp with (request := request) (n := 4%nat);
          [exact Hreq|lia|reflexivity]. }
    assert (Hmapped : mapped self proposed_tags)
      by (exists (response_tags llm_response); exact Emap).
    cbn [fst snd].
    destruct mode.
    + close_step (calls_before_write obj_key b request).
      apply Previewed; [reflexivity|exact Hreq|exact Hmapped].
    + destruct (merge_and_validate_tags existing_tags proposed_tags
                  (dict_keys (tags (tagger_config self)))
                  (storage_provider_type self))
        as [final_tags|e] eqn:Emerge.
      2:{ close_step (calls_before_write obj_key b request).
          apply MergeFailed; [reflexivity|exact Hreq|exact Hmapped|].
          exact Emerge. }
      cbn [fst snd world trace result].
      destruct (set_object_tags (storage_provider self) obj_key final_tags w4)
        as [[[]|e] w5]; cbn [fst snd world trace result].
      * close_step (calls_before_write obj_key b request
                    ++ [ESetTags obj_key final_tags]).
        apply Applied; [reflexivity|exact Hreq|exact Hmapped|exact Emerge].
      * close_step (calls_before_write obj_key b request
                    ++ [ESetTags obj_key final_tags]).
        apply WriteFailed with (final_tags := final_tags);
          [reflexivity|exact Hreq|exact Hmapped|exact Emerge].
  - close_step [EIsSupported obj_key]. apply Unsupported.
  - close_step [EIsSupported obj_key].
    apply GaveUp with (request := req0) (n := 1%nat);
      [exact Hreq0|lia|reflexivity].
Qed.

Lemma for_each_outcomes (mode : ProcessingMode) (b : Z) (objects : list str) :
  forall st : RunState World,
  exists (steps : list step) (st' : RunState World),
    for_each objects (process_object rt self mode b) st = (Ok tt, st')
    /\ map (fun s : step => fst (fst s)) steps = objects
    /\ result st' = add_all (map fst steps) (result st)
    /\ trace st' = trace st ++ concat (map snd steps)
    /\ steps_ok self mode b steps.
Proof.
  induction objects as [|o objects IH]; intros st; simpl.
  - exists [], st. simpl. rewrite app_nil_r. repeat split. constructor.
  - destruct (process_object_step_outcome mode b o st)
      as (t & evs & st1 & E & Hr & Ht & Hout).
    destruct (IH st1) as (steps & st2 & E' & Hk & Hr' & Ht' & Hs).
    exists ((o, t, evs) :: steps), st2.
    unfold mbind. rewrite E, E'. simpl.
    split; [reflexivity|]. split; [rewrite Hk; reflexivity|].
    split; [rewrite Hr', Hr; reflexivity|].
    split; [rewrite Ht', Ht, app_assoc; reflexivity|].
    constructor; [exact Hout|exact Hs].
Qed.

Lemma process_objects_outcomes (mode : ProcessingMode)
  (max_bytes' : option Z) (st : RunState World) :
  match list_objects (storage_provider self) (world st) with
  | (Ok (o :: objects), _) =>
    exists steps : list step,
      map (fun s : step => fst (fst s)) steps = o :: objects
      /\ steps_ok self mode (budget_of (tagger_config self) max_bytes') steps
      /\ fst (_process_objects rt self mode max_bytes' st)
         = Ok (set_summary
                 (add_all (map fst steps) (fresh_result self mode))
                 (get_summary_stats
                    (add_all (map fst steps) (fresh_result self mode))))
      /\ trace (snd (_process_objects rt self mode max_bytes' st))
         = trace st ++ EListObjects :: concat (map snd steps)
  | _ => True
  end.
Proof.
  unfold _process_objects, try_except, mbind, put_result, call, raise,
    set_summary_m, get_result. simpl.
  destruct (list_objects (storage_provider self) (world st))
    as [[[|o objects]|e] w1]; simpl; [exact I| |exact I].
  match goal with
  | |- context [mbind (process_object rt self mode ?p o) _ ?s] =>
      destruct (for_each_outcomes mode p (o :: objects) s)
        as (steps & st2 & E & Hk & Hr & Ht & Hs)
  end.
  cbn [for_each] in E. rewrite E. simpl. simpl in Hr, Ht.
  exists steps. rewrite Hr, Ht, <- app_assoc.
  repeat split; assumption.
Qed.

Lemma outcome_calls (mode : ProcessingMode) (b : Z) (obj_key : str)
  (t : ObjectTags) (evs : list event) (objects : list str) :
  outcome self mode b obj_key t evs ->
  in_list obj_key objects = true ->
  forallb (fetch_with_budget b) evs = true
  /\ forallb (about objects) evs = true.
Proof.
  intros Hout Hin.
  assert (Hcalls : forall request,
             request_for self obj_key request ->
             forallb (fetch_with_budget b)
               (calls_before_write obj_key b request) = true
             /\ forallb (about objects)
                  (calls_before_write obj_key b request) = true).
  { intros request (_ & Hf & _). simpl. rewrite Hf, Hin, Z.eqb_refl. auto. }
  destruct Hout as [|e request n evs Hreq Hn ->|ex pr request _ Hreq _
                    |ex pr final request _ Hreq _ _|ex pr e request _ Hreq _ _
                    |ex pr final e request _ Hreq _ _].
  - simpl. rewrite Hin. auto.
  - destruct Hreq as (_ & Hf & _).
    destruct n as [|[|[|[|[|n]]]]]; try lia; simpl;
      rewrite ?Hf, ?Hin, ?Z.eqb_refl; auto.
  - apply Hcalls, Hreq.
  - rewrite !forallb_app. destruct (Hcalls _ Hreq) as [-> ->].
    simpl. rewrite Hin. auto.
  - apply Hcalls, Hreq.
  - rewrite !forallb_app. destruct (Hcalls _ Hreq) as [-> ->].
    simpl. rewrite Hin. auto.
Qed.

Lemma steps_calls (mode : ProcessingMode) (b : Z) (steps : list step)
  (objects : list str) :
  steps_ok self mode b steps ->
  (forall s, In s steps -> in_list (fst (fst s)) objects = true) ->
  forallb (fetch_with_budget b) (concat (map snd steps)) = true
  /\ forallb (about objects) (concat (map snd steps)) = true.
Proof.
  induction 1 as [|s steps Hs _ IH]; intros Hin; simpl; [auto|].
  rewrite !forallb_app.
  destruct (outcome_calls objects Hs (Hin s (or_introl eq_refl))) as [-> ->].
  destruct (IH (fun s' H' => Hin s' (or_intror H'))) as [-> ->]. auto.
Qed.

(** X25. A run fails exactly when the listing of the objects fails, and
    then with a SmartCloudTagError after that one call.  Otherwise it
    returns, and after the listing the provider calls are, object by
    object in the order of the listing, those of one outcome of the loop
    body: the support check, the existing tags, the content, the model
    and, in Apply mode after a merge that succeeded, one write of the
    merged tags.  Every fetch of content uses the byte budget of the run,
    the override when it is given and not zero and else the configured
    one, and every call concerns a listed object. *)
Theorem run_protocol (mode : ProcessingMode) (max_bytes' : option Z)
  (st : RunState World) :
  match fst (list_objects (storage_provider self) (world st)) with
  | Ok objects =>
    exists steps : list step,
      map (fun s : step => fst (fst s)) steps = objects
      /\ steps_ok self mode (budget_of (tagger_config self) max_bytes') steps
      /\ succeeds (fst (_process_objects rt self mode max_bytes' st)) = true
      /\ trace (snd (_process_objects rt self mode max_bytes' st))
         = trace st ++ EListObjects :: concat (map snd steps)
      /\ forallb (fetch_with_budget
                    (budget_of (tagger_config self) max_bytes'))
           (concat (map snd steps)) = true
      /\ forallb (about objects) (concat (map snd steps)) = true
  | Error e =>
    fst (_process_objects rt self mode max_bytes' st)
    = Error (Raise SmartCloudTagError
               (py "Failed to process objects: " ++ exn_str e))
    /\ trace (snd (_process_objects rt self mode max_bytes' st))
       = trace st ++ [EListObjects]
  end.
Proof.
  pose proof (process_objects_cases rt self mode max_bytes' st) as Hc.
  pose proof (process_objects_outcomes mode max_bytes' st) as Ho.
  destruct (list_objects (storage_provider self) (world st))
    as [[[|o objects]|e] w1]; cbn [fst].
  - destruct Hc as [E Ht]. exists []. rewrite E, Ht.
    repeat split. constructor.
  - destruct Ho as (steps & Hk & Hs & E & Ht). exists steps.
    assert (Hin : forall s : step,
               In s steps -> in_list (fst (fst s)) (o :: objects) = true).
    { intros s Hs'. apply in_list_In. rewrite <- Hk.
      apply (in_map (fun s : step => fst (fst s))). exact Hs'. }
    destruct (steps_calls (o :: objects) Hs Hin) as [Hb Ha].
    rewrite E, Ht. repeat split; assumption.
  - exact Hc.
Qed.

Lemma outcome_applied (mode : ProcessingMode) (b : Z) (obj_key : str)
  (t : ObjectTags) (evs : list event) :
  outcome self mode b obj_key t evs ->
  match applied t with
  | Some final_tags =>
    mode = APPLY
    /\ In (ESetTags obj_key final_tags) evs
    /\ exists proposed_tags,
         proposed t = Some proposed_tags
         /\ merge_and_validate_tags (existing t) proposed_tags
              (dict_keys (tags (tagger_config self)))
              (storage_provider_type self)
            = Ok final_tags
  | None => True
  end.
Proof.
  destruct 1 as [| | |ex pr final request Hm _ _ Hmerge| |]; simpl; auto.
  split; [exact Hm|]. split.
  - do 4 right. left. reflexivity.
  - exists pr. auto.
Qed.

Lemma run_records (mode : ProcessingMode) (b : Z) (steps : list step)
  (k : str) (t : ObjectTags) :
  In (k, t) (results (add_all (map fst steps) (fresh_result self mode))) ->
  exists evs, In (k, t, evs) steps.
Proof.
  intros Hin.
  destruct (results_add_all (map fst steps) (fresh_result self mode))
    as [E _].
  rewrite E in Hin. apply In_fold_dict_set_key in Hin.
  destruct Hin as [[]|Hin]. apply in_map_iff in Hin.
  destruct Hin as ([[k' t'] evs] & Es & Hin). simpl in Es.
  inversion Es; subst. exists evs. exact Hin.
Qed.

(** X26. In the result of a run, a record holds applied tags only in
    Apply mode, and then these tags are the merge of the record's existing
    and proposed tags, and the run has written exactly them to the
    record's object. *)
Theorem applied_tags_were_written (mode : ProcessingMode)
  (max_bytes' : option Z) (st : RunState World) :
  match fst (_process_objects rt self mode max_bytes' st) with
  | Ok r =>
    Forall
      (fun kt : str * ObjectTags =>
         match applied (snd kt) with
         | Some final_tags =>
           mode = APPLY
           /\ In (ESetTags (fst kt) final_tags)
                (trace (snd (_process_objects rt self mode max_bytes' st)))
           /\ exists proposed_tags,
                proposed (snd kt) = Some proposed_tags
                /\ merge_and_validate_tags (existing (snd kt)) proposed_tags
                     (dict_keys (tags (tagger_config self)))
                     (storage_provider_type self)
                   = Ok final_tags
         | None => True
         end)
      (results r)
  | Error _ => True
  end.
Proof.
  pose proof (process_objects_cases rt self mode max_bytes' st) as Hc.
  pose proof (process_objects_outcomes mode max_bytes' st) as Ho.
  destruct (list_objects (storage_provider self) (world st))
    as [[[|o objects]|e] w1].
  - destruct Hc as [E _]. rewrite E. constructor.
  - destruct Ho as (steps & Hk & Hs & E & Ht). rewrite E, Ht.
    cbn [results set_summary]. apply Forall_forall. intros [k t] Hin.
    destruct (run_records mode (budget_of (tagger_config self) max_bytes')
                steps k t Hin) as (evs & Hstep).
    unfold steps_ok in Hs. rewrite Forall_forall in Hs.
    pose proof (outcome_applied (Hs _ Hstep)) as Ha. cbn [fst snd] in *.
    destruct (applied t) as [final_tags|]; [|exact I].
    destruct Ha as (Hm & Hev & Hp). split; [exact Hm|]. split; [|exact Hp].
    apply in_or_app. right. right. apply in_concat.
    exists evs. split; [|exact Hev].
    apply (in_map snd) in Hstep. exact Hstep.
  - destruct Hc as [E _]. rewrite E. exact I.
Qed.

Lemma outcome_shape (mode : ProcessingMode) (b : Z) (obj_key : str)
  (t : ObjectTags) (evs : list event) :
  outcome self mode b obj_key t evs ->
  (is_some (applied t) = true -> is_some (proposed t) = true)
  /\ is_some (applied t) && is_some (skipped_reason t) = false
  /\ is_some (proposed t) || is_some (skipped_reason t) = true
  /\ match mode with
     | PREVIEW =>
       is_some (applied t) = false
       /\ is_some (proposed t) && is_some (skipped_reason t) = false
     | APPLY => True
     end.
Proof.
  destruct 1 as [| |? ? ? Hm|? ? ? ? Hm|? ? ? ? Hm|? ? ? ? ? Hm];
    try subst mode; simpl; repeat split; auto; destruct mode; auto.
Qed.

(** X27. The summary of a run that found objects: the applied records
    are among the processed ones, no record is both applied and skipped,
    and every record is processed or skipped, so that
    applied <= processed, applied + skipped <= total <= processed +
    skipped; in a preview nothing is applied and every record is either
    processed or skipped. *)
Theorem run_summary_relations (mode : ProcessingMode)
  (max_bytes' : option Z) (st : RunState World) :
  match fst (_process_objects rt self mode max_bytes' st) with
  | Ok r =>
    summary r = no_objects_summary
    \/ exists total processed skipped applied_count rate,
         summary r
         = [ (py "total_objects", PyInt total);
             (py "processed", PyInt processed);
             (py "skipped", PyInt skipped);
             (py "applied", PyInt applied_count);
             (py "success_rate", rate) ]
         /\ applied_count <= processed
         /\ applied_count + skipped <= total
         /\ total <= processed + skipped
         /\ match mode with
            | PREVIEW => applied_count = 0 /\ processed + skipped = total
            | APPLY => True
            end
  | Error _ => True
  end.
Proof.
  pose proof (process_objects_cases rt self mode max_bytes' st) as Hc.
  pose proof (process_objects_outcomes mode max_bytes' st) as Ho.
  destruct (list_objects (storage_provider self) (world st))
    as [[[|o objects]|e] w1].
  - destruct Hc as [E _]. rewrite E. left. reflexivity.
  - destruct Ho as (steps & Hk & Hs & E & Ht). rewrite E. right.
    cbn [summary set_summary].
    set (R := add_all (map fst steps) (fresh_result self mode)).
    unfold get_summary_stats. rewrite !count_if_filter.
    set (records := dict_values (results R)).
    assert (Hshape : forall t, In t records ->
               (is_some (applied t) = true -> is_some (proposed t) = true)
               /\ is_some (applied t) && is_some (skipped_reason t) = false
               /\ is_some (proposed t) || is_some (skipped_reason t) = true
               /\ match mode with
                  | PREVIEW =>
                    is_some (applied t) = false
                    /\ is_some (proposed t) && is_some (skipped_reason t)
                       = false
                  | APPLY => True
                  end).
    { intros t Hin. unfold records, dict_values in Hin.
      apply in_map_iff in Hin. destruct Hin as ([k t'] & Et & Hin).
      simpl in Et. subst t'.
      destruct (run_records mode (budget_of (tagger_config self) max_bytes')
                  steps k t Hin) as (evs & Hstep).
      unfold steps_ok in Hs. rewrite Forall_forall in Hs.
      exact (outcome_shape (Hs _ Hstep)). }
    assert (Hn : length (results R) = length records)
      by (unfold records, dict_values; rewrite length_map; reflexivity).
    pose proof (filter_length_impl (fun t => is_some (applied t))
                  (fun t => is_some (proposed t)) records
                  (fun t Hin => proj1 (Hshape t Hin))) as H1.
    pose proof (filter_length_disjoint (fun t => is_some (applied t))
                  (fun t => is_some (skipped_reason t)) records
                  (fun t Hin => proj1 (proj2 (Hshape t Hin)))) as H2.
    pose proof (filter_length_cover (fun t => is_some (proposed t))
                  (fun t => is_some (skipped_reason t)) records
                  (fun t Hin => proj1 (proj2 (proj2 (Hshape t Hin))))) as H3.
    eexists _, _, _, _, _. split; [reflexivity|].
    split; [lia|]. split; [lia|]. split; [lia|].
    destruct mode; [|exact I].
    assert (H4 : length (filter (fun t => is_some (applied t)) records)
                 = 0%nat).
    { assert (H := filter_length_impl (fun t => is_some (applied t))
                     (fun _ => false) records).
      replace (filter (fun _ : ObjectTags => false) records)
        with (@nil ObjectTags) in H
        by (clear; induction records; simpl; auto).
      simpl in H. apply Nat.le_0_r, H. intros t Hin Ht'.
      destruct (Hshape t Hin) as (_ & _ & _ & Hp & _). congruence. }
    pose proof (filter_length_disjoint (fun t => is_some (proposed t))
                  (fun t => is_some (skipped_reason t)) records
                  (fun t Hin =>
                     proj2 (proj2 (proj2 (proj2 (Hshape t Hin)))))) as H5.
    split; lia.
  - destruct Hc as [E _]. rewrite E. exact I.
Qed.

(** X28. When the listing returns objects without repetition, the run
    returns a result with one record per object, under the keys of the
    listing and in its order. *)
Theorem results_keys_in_order (mode : ProcessingMode)
  (max_bytes' : option Z) (st : RunState World) (objects : list str)
  (w : World) :
  list_objects (storage_provider self) (world st) = (Ok objects, w) ->
  no_dup objects = true ->
  exists r,
    fst (_process_objects rt self mode max_bytes' st) = Ok r
    /\ dict_keys (results r) = objects.
Proof.
  intros Hl Hnd.
  pose proof (process_objects_cases rt self mode max_bytes' st) as Hc.
  rewrite Hl in Hc. destruct objects as [|o objects].
  - destruct Hc as [E _]. rewrite E. eexists. split; reflexivity.
  - destruct Hc as (recs & evs & E & Hk & _). rewrite E.
    eexists. split; [reflexivity|]. cbn [results set_summary].
    destruct (results_add_all recs (fresh_result self mode)) as [Er _].
    rewrite Er. cbn [results fresh_result].
    change (fold_left (fun d kt => dict_set d (fst kt) (snd kt)) recs [])
      with (dict_update [] recs).
    rewrite dict_update_fresh; [exact Hk| |intros k _ []].
    unfold dict_keys. rewrite Hk. apply no_dup_NoDup. exact Hnd.
Qed.

End RunOutcomes.

Lemma results_keys_in_order_witness :
  exists r,
    fst (_process_objects ascii_runtime demo_tagger APPLY None
           (start demo_bucket demo_tagger)) = Ok r
    /\ dict_keys (results r)
       = [py "a.txt"; py "b.txt"; py "c.bin"; py "d.txt"].
Proof.
  assert (H1 : list_objects (storage_provider demo_tagger)
                 (world (start demo_bucket demo_tagger))
               = (Ok [py "a.txt"; py "b.txt"; py "c.bin"; py "d.txt"],
                  demo_bucket))
    by (vm_compute; reflexivity).
  assert (H2 : no_dup [py "a.txt"; py "b.txt"; py "c.bin"; py "d.txt"] = true)
    by (vm_compute; reflexivity).
  exact (@results_keys_in_order Bucket ascii_runtime demo_tagger APPLY None
           (start demo_bucket demo_tagger) _ _ H1 H2).
Defined.
